(** * OncoScan backend: a shallow embedding of [backend/*.py] and its properties

    The development follows the layout of the repository:

    - [Py]         the fragment of Python the backend relies on (exceptions,
                   truthiness, slices, [str.replace]);
    - [Binary64]   Python's [float], as IEEE-754 binary64 ([SpecFloat] at
                   precision 53), with [round(x, ndigits)];
    - [posixpath]  [os.path.join], [normpath] and [abspath];
    - [models.py], [db.py], [crud.py], [auth.py], [admin_api.py], [model.py],
      [utils_dicom.py], [main.py], [scripts_create_admin.py], one module
      each, every embedded function under its own name.

    External collaborators (password hashing, JWT, PIL, pydicom, torch, the
    operating system) are not part of the repository: they are fields of the
    records [auth.Crypto], [utils_dicom.Decoders], [model.Torch] and
    [main.OS], and every theorem holds for all of their behaviours unless a
    hypothesis says otherwise. What a request draws from the random
    generator, the clock and [uuid4] is an argument ([main.Draws]). *)

From Stdlib Require Import ZArith List Bool String Ascii Lia QArith Qpower Lqa.
From Stdlib Require Import Floats.SpecFloat.
Import ListNotations.

Set Implicit Arguments.

Local Open Scope string_scope.
Local Open Scope Z_scope.

(* ================================================================== *)
(** * Python prelude *)
(* ================================================================== *)

Module Py.

(** Exceptions that cross a function boundary in the backend: FastAPI's
    [HTTPException] (status code and detail) and every other Python exception
    (which the framework turns into a 500 response). *)
Inductive exn : Type :=
| HTTPException (status_code : Z) (detail : string)
| Exception (what : string).

(** A computation that returns or raises. *)
Inductive result (A : Type) : Type :=
| Ok (a : A)
| Raise (e : exn).

Arguments Ok {A} a.
Arguments Raise {A} e.

Definition bind {A B : Type} (m : result A) (k : A -> result B) : result B :=
  match m with
  | Ok a => k a
  | Raise e => Raise e
  end.

(** [try: body / except Exception: handler]. [HTTPException] derives from
    [Exception], so the handler sees every [Raise]. *)
Definition try_except {A : Type} (body : result A) (handler : exn -> result A)
  : result A :=
  match body with
  | Ok a => Ok a
  | Raise e => handler e
  end.

(** Truthiness of an optional string: [None] and [""] are falsy. *)
Definition truthy_str (s : option string) : bool :=
  match s with
  | None => false
  | Some EmptyString => false
  | Some _ => true
  end.

(** [x or y] on strings. *)
Definition str_or (x : option string) (y : string) : string :=
  match x with
  | Some (String c s) => String c s
  | _ => y
  end.

(** [l[start:]] with Python's treatment of a negative or too large start. *)
Definition slice_from {A : Type} (l : list A) (start : Z) : list A :=
  let n := Z.of_nat (List.length l) in
  let i := if start <? 0 then Z.max 0 (n + start) else Z.min start n in
  skipn (Z.to_nat i) l.

(** [dict.get(key)] on a dictionary kept as an association list. *)
Fixpoint dict_get {V : Type} (d : list (string * V)) (key : string) : option V :=
  match d with
  | [] => None
  | (k, v) :: d' => if String.eqb k key then Some v else dict_get d' key
  end.

(** [s.startswith(p)]. *)
Definition startswith (s p : string) : bool := String.prefix p s.

(** [sub in s] for strings. *)
Fixpoint contains (sub s : string) : bool :=
  String.prefix sub s ||
  match s with
  | EmptyString => false
  | String _ s' => contains sub s'
  end.

(** [s.endswith(p)]. *)
Definition endswith (s p : string) : bool :=
  let ls := String.length s in
  let lp := String.length p in
  (lp <=? ls)%nat && String.eqb (String.substring (ls - lp) lp s) p.

(** [s.replace(old, new)] for a non-empty [old]: a single left-to-right scan
    over non-overlapping occurrences. [skip] counts the characters of the
    occurrence just replaced that are still to be dropped. *)
Fixpoint replace_from (old new : string) (skip : nat) (s : string) : string :=
  match s with
  | EmptyString => EmptyString
  | String c s' =>
      match skip with
      | S k => replace_from old new k s'
      | O =>
          if String.prefix old s
          then new ++ replace_from old new (String.length old - 1) s'
          else String c (replace_from old new 0 s')
      end
  end.

Definition replace (s old new : string) : string := replace_from old new 0 s.

(** [c.lower()] and [s.lower()] on ASCII text: [A] to [Z] are lowered and
    every other character is kept. Python also lowers letters beyond ASCII;
    none of them becomes a letter of the suffixes or of the backend name the
    code compares with, so only the lowered string itself can differ there. *)
Definition lower_ascii (c : ascii) : ascii :=
  let n := nat_of_ascii c in
  if ((65 <=? n) && (n <=? 90))%nat then ascii_of_nat (n + 32) else c.

Fixpoint lower (s : string) : string :=
  match s with
  | EmptyString => EmptyString
  | String c s' => String (lower_ascii c) (lower s')
  end.

End Py.

Import Py.

Notation "x <- m ;; k" := (bind m (fun x => k))
  (at level 61, m at next level, right associativity).

(* ================================================================== *)
(** * Python's [float]: IEEE-754 binary64 *)
(* ================================================================== *)

Module Binary64.

Definition prec : Z := 53.
Definition emax : Z := 1024.

Definition float : Type := spec_float.

Definition add : float -> float -> float := SFadd prec emax.
Definition sub : float -> float -> float := SFsub prec emax.
Definition mul : float -> float -> float := SFmul prec emax.
Definition div : float -> float -> float := SFdiv prec emax.

(** [x < y] and [x <= y]; both are false when an operand is NaN. *)
Definition ltb : float -> float -> bool := SFltb.
Definition leb : float -> float -> bool := SFleb.

(** Conversion of an integer, correctly rounded ([float(n)]). *)
Definition of_Z (n : Z) : float := binary_normalize prec emax n 0 false.

(** The literal [num/den] written in decimal in the source ([0.3] is
    [lit 3 10]): the double nearest to the quotient. Both integers are exactly
    representable, and IEEE division is correctly rounded. *)
Definition lit (num den : Z) : float := div (of_Z num) (of_Z den).

Definition zero : float := S754_zero false.
Definition one : float := of_Z 1.

(** A well-formed double: the mantissa is canonical for its exponent. *)
Definition valid (x : float) : bool := valid_binary prec emax x.

(** [0.0 <= x <= 1.0]. *)
Definition in01 (x : float) : bool := leb zero x && leb x one.

(** The contract of [random.random()]: a well-formed double in [[0.0, 1.0)],
    that is [+0.0] or a positive double below [1.0]. *)
Definition unit_draw (u : float) : bool :=
  valid u && ltb u one
  && match u with
     | S754_zero false | S754_finite false _ _ => true
     | _ => false
     end.

(** The builtins [min(a, b)] and [max(a, b)]: the first argument is kept
    unless the second compares strictly smaller (resp. greater). *)
Definition py_min (a b : float) : float := if ltb b a then b else a.
Definition py_max (a b : float) : float := if ltb a b then b else a.

(** Nearest integer to [a / b] for [b > 0], ties to the even integer. *)
Definition round_half_even_div (a b : Z) : Z :=
  let q := a / b in
  match (2 * (a mod b) ?= b) with
  | Lt => q
  | Gt => q + 1
  | Eq => if Z.even q then q else q + 1
  end.

(** [round(x, ndigits)] for [0 <= ndigits <= 22]: the exact value of [x] is
    rounded to [ndigits] decimals (half to even), and the decimal obtained is
    converted back to the nearest double. Non-finite values and integers are
    returned unchanged. *)
Definition py_round (x : float) (ndigits : Z) : float :=
  match x with
  | S754_finite s m e =>
      if 0 <=? e then x
      else
        match round_half_even_div (Zpos m * 10 ^ ndigits) (2 ^ (- e)) with
        | Zpos n =>
            div (S754_finite s n 0) (S754_finite false (Z.to_pos (10 ^ ndigits)) 0)
        | _ => S754_zero s
        end
  | _ => x
  end.

(** [random.uniform(a, b)] is [a + (b - a) * random()]. *)
Definition uniform (a b u : float) : float := add a (mul (sub b a) u).

(** Truncation toward zero of a finite double. *)
Definition trunc (x : float) : option Z :=
  match x with
  | S754_zero _ => Some 0
  | S754_finite s m e =>
      Some (cond_Zopp s (if 0 <=? e then Zpos m * 2 ^ e else Zpos m / 2 ^ (- e)))
  | _ => None
  end.

(** The rational a double denotes (0 for the non-finite ones). *)
Definition to_Q (x : float) : Q :=
  match x with
  | S754_finite s m e =>
      ((if s then -1 # 1 else 1 # 1) * inject_Z (Zpos m) * (2 # 1) ^ e)%Q
  | _ => 0%Q
  end.

(** A double that is [+0.0] or positive and finite. *)
Definition nonneg_finite (x : float) : Prop :=
  x = S754_zero false \/ exists m e, x = S754_finite false m e.

End Binary64.

Module B := Binary64.

(* ================================================================== *)
(** * [posixpath], as used by [main.py] *)
(* ================================================================== *)

Module posixpath.

(** [os.path.join(a, b)]. *)
Definition join (a b : string) : string :=
  if startswith b "/" then b
  else if String.eqb a "" || endswith a "/" then a ++ b
  else a ++ "/" ++ b.

(** [s.split('/')]. *)
Fixpoint split_sep (s : string) : list string :=
  match s with
  | EmptyString => [EmptyString]
  | String c s' =>
      if Ascii.eqb c "/" then EmptyString :: split_sep s'
      else
        match split_sep s' with
        | [] => [String c EmptyString]
        | x :: xs => String c x :: xs
        end
  end.

(** ['/'.join(comps)]. *)
Fixpoint join_sep (comps : list string) : string :=
  match comps with
  | [] => EmptyString
  | [x] => x
  | x :: comps' => x ++ "/" ++ join_sep comps'
  end.

(** One iteration of the loop of [normpath] over the components. *)
Definition norm_step (initial_slashes : nat) (new_comps : list string)
  (comp : string) : list string :=
  if String.eqb comp "" || String.eqb comp "." then new_comps
  else if negb (String.eqb comp "..")
          || (Nat.eqb initial_slashes 0 && match new_comps with [] => true | _ => false end)
          || match new_comps with
             | [] => false
             | _ => String.eqb (List.last new_comps "") ".."
             end
       then new_comps ++ [comp]
       else removelast new_comps.

Definition initial_slashes (path : string) : nat :=
  if startswith path "/"
  then if startswith path "//" && negb (startswith path "///") then 2%nat else 1%nat
  else 0%nat.

(** [sep * n]. *)
Fixpoint slashes (n : nat) : string :=
  match n with
  | O => EmptyString
  | S k => String "/" (slashes k)
  end.

(** [os.path.normpath(path)]. *)
Definition normpath (path : string) : string :=
  if String.eqb path "" then "."
  else
    let n := initial_slashes path in
    let new_comps := fold_left (norm_step n) (split_sep path) [] in
    let path' := slashes n ++ join_sep new_comps in
    if String.eqb path' "" then "." else path'.

(** [os.path.abspath(path)], the working directory being [cwd]. *)
Definition abspath (cwd path : string) : string :=
  normpath (if startswith path "/" then path else join cwd path).

End posixpath.

(* ================================================================== *)
(** * [models.py] and [db.py] *)
(* ================================================================== *)

Module User.
Record t : Type := mk {
  id : option Z;
  username : string;
  full_name : option string;
  role : string;
  disabled : bool;
  password_hash : string;
  created_at : Z
}.
Definition set_role (u : t) (r : string) : t :=
  mk (id u) (username u) (full_name u) r (disabled u) (password_hash u) (created_at u).
End User.

Module CompanyProfile.
Record t : Type := mk {
  id : option Z;
  name : string;
  address : option string;
  contact_email : option string;
  logo_url : option string;
  created_at : Z
}.
End CompanyProfile.

(** What a [Session] on the engine sees: the two tables in row order and the
    next primary keys the database will hand out. *)
Record Session : Type := mkSession {
  users : list User.t;
  companies : list CompanyProfile.t;
  next_user_id : Z;
  next_company_id : Z
}.

Module db.

(** The two environment variables [get_database_url] reads ([None] when a
    variable is not set). *)
Record Environ : Type := mkEnviron {
  ONCOSCAN_DATABASE_URL : option string;
  DATABASE_URL : option string
}.

(** [get_database_url()]: [a or b], then the SQLite file when that is falsy. *)
Definition get_database_url (env : Environ) : string :=
  let url :=
    if truthy_str (ONCOSCAN_DATABASE_URL env) then ONCOSCAN_DATABASE_URL env
    else DATABASE_URL env in
  match url with
  | Some (String c s) => String c s
  | _ => "sqlite:///oncoscan_webapp/backend/oncoscan.db"
  end.

End db.

(* ================================================================== *)
(** * [crud.py] *)
(* ================================================================== *)

Module crud.

(** [session.exec(select(User).where(User.username == username)).first()] *)
Definition get_user_by_username (session : Session) (username : string)
  : option User.t :=
  find (fun u => String.eqb (User.username u) username) (users session).

(** Replace the first row satisfying [p] (the row the ORM object is bound to). *)
Fixpoint update_first {A : Type} (p : A -> bool) (f : A -> A) (l : list A) : list A :=
  match l with
  | [] => []
  | x :: l' => if p x then f x :: l' else x :: update_first p f l'
  end.

(** [create_user]; the commit fails on the unique index of [username]. *)
Definition create_user (session : Session) (username password_hash full_name role : string)
  (utcnow : Z) : Session * result User.t :=
  match get_user_by_username session username with
  | Some _ => (session, Raise (Exception "IntegrityError"))
  | None =>
      let user := User.mk (Some (next_user_id session)) username (Some full_name)
                          role false password_hash utcnow in
      (mkSession (users session ++ [user]) (companies session)
                 (next_user_id session + 1) (next_company_id session),
       Ok user)
  end.

Definition list_users (session : Session) : list User.t := users session.

Definition set_user_role (session : Session) (username role : string)
  : Session * option User.t :=
  match get_user_by_username session username with
  | None => (session, None)
  | Some user =>
      let user' := User.set_role user role in
      (mkSession
         (update_first (fun u => String.eqb (User.username u) username)
                       (fun u => User.set_role u role) (users session))
         (companies session) (next_user_id session) (next_company_id session),
       Some user')
  end.

Definition upsert_company_profile (session : Session)
  (name address contact_email logo_url : string) (utcnow : Z)
  : Session * CompanyProfile.t :=
  match companies session with
  | [] =>
      let profile :=
        CompanyProfile.mk (Some (next_company_id session)) name (Some address)
                          (Some contact_email) (Some logo_url) utcnow in
      (mkSession (users session) [profile]
                 (next_user_id session) (next_company_id session + 1),
       profile)
  | profile :: rest =>
      let profile' :=
        CompanyProfile.mk (CompanyProfile.id profile) name (Some address)
                          (Some contact_email) (Some logo_url)
                          (CompanyProfile.created_at profile) in
      (mkSession (users session) (profile' :: rest)
                 (next_user_id session) (next_company_id session),
       profile')
  end.

Definition get_company_profile (session : Session) : option CompanyProfile.t :=
  hd_error (companies session).

End crud.

(* ================================================================== *)
(** * [auth.py] *)
(* ================================================================== *)

Module auth.

(** The claims of a token: the subject and the absolute expiry (seconds). *)
Record Claims : Type := mkClaims {
  sub : option string;
  exp : Z
}.

(** passlib and python-jose, with the secret key and the algorithm fixed.
    [pwd_verify p h = None] when [pwd_context.verify] raises (a hash of no
    known scheme); [pwd_hash p = None] when [pwd_context.hash] raises (its
    default scheme is bcrypt: a password with a NUL byte, a missing backend);
    [jwt_decode t = None] when [jwt.decode] raises [JWTError] (bad signature,
    malformed or expired token). [demo_hash] is the value of
    [_pbkdf_ctx.hash("securepass")] computed when the module is imported. *)
Record Crypto : Type := mkCrypto {
  pwd_verify : string -> string -> option bool;
  pwd_hash : string -> option string;
  jwt_encode : Claims -> string;
  jwt_decode : string -> option Claims;
  demo_hash : string;
  ACCESS_TOKEN_EXPIRE_MINUTES : Z
}.

(** An entry of [FAKE_USERS_DB]. *)
Record FakeUser : Type := mkFakeUser {
  fake_user_id : string;
  hashed_password : string;
  full_name : string;
  disabled : bool
}.

Definition FAKE_USERS_DB (c : Crypto) : list (string * FakeUser) :=
  [("doc_user", mkFakeUser "doc_user" (demo_hash c) "Dr. Alice Onco" false)].

(** The dictionary [get_current_user] returns. *)
Record Identity : Type := mkIdentity {
  user_id : string;
  username : string;
  role : string
}.

Definition verify_password (c : Crypto) (plain_password hashed_password : string)
  : result bool :=
  match pwd_verify c plain_password hashed_password with
  | Some b => Ok b
  | None => Raise (Exception "UnknownHashError")
  end.

(** [create_access_token({"sub": subject}, expires_delta)]; a zero
    [timedelta] is falsy, like [None]. Times are in seconds. *)
Definition create_access_token (c : Crypto) (subject : string)
  (expires_delta : option Z) (utcnow : Z) : string :=
  let expire :=
    match expires_delta with
    | Some d => if Z.eqb d 0 then utcnow + 60 * ACCESS_TOKEN_EXPIRE_MINUTES c
                else utcnow + d
    | None => utcnow + 60 * ACCESS_TOKEN_EXPIRE_MINUTES c
    end in
  jwt_encode c (mkClaims (Some subject) expire).

Definition credentials_exception : exn :=
  HTTPException 401 "Could not validate credentials".

(** The database half of [get_current_user]: the body of its second [try].
    [db = None] stands for a session or query that raises. *)
Definition db_identity (db : option Session) (user_id : string)
  : result (option Identity) :=
  match db with
  | None => Raise (Exception "OperationalError")
  | Some session =>
      match crud.get_user_by_username session user_id with
      | Some db_user =>
          if User.disabled db_user
          then Raise (HTTPException 400 "Inactive user")
          else Ok (Some (mkIdentity (User.username db_user)
                                    (str_or (User.full_name db_user) (User.username db_user))
                                    (User.role db_user)))
      | None => Ok None
      end
  end.

(** The in-memory half of [get_current_user]. *)
Definition fallback_identity (c : Crypto) (user_id : string) : result Identity :=
  match dict_get (FAKE_USERS_DB c) user_id with
  | None => Raise credentials_exception
  | Some user =>
      if disabled user then Raise (HTTPException 400 "Inactive user")
      else Ok (mkIdentity user_id (full_name user) "doctor")
  end.

Definition get_current_user (c : Crypto) (db : option Session) (token : string)
  : result Identity :=
  match jwt_decode c token with
  | None => Raise credentials_exception
  | Some payload =>
      match sub payload with
      | None => Raise credentials_exception
      | Some user_id =>
          (* try: ... except Exception: pass *)
          match try_except (db_identity db user_id) (fun _ => Ok None) with
          | Ok (Some found) => Ok found
          | _ => fallback_identity c user_id
          end
      end
  end.

End auth.

(* ================================================================== *)
(** * [model.py] *)
(* ================================================================== *)

Module model.

(** A decoded picture: its PIL mode and its samples. A sample is [None] when
    the array conversion that produced it is undefined in C (see
    [utils_dicom.astype_uint8]). *)
Record Image : Type := mkImage {
  mode : string;
  samples : list (option Z)
}.

(** What [self._model] holds once loaded. *)
Inductive Model : Type :=
| SimulateTag
| TorchScript (handle : Z).

(** torch and the file system, as [_load] and [predict] see them.
    [forward m img = None] when preprocessing, the forward pass or the
    conversion of its output to [float] raises. *)
Record Torch : Type := mkTorch {
  import_ok : bool;
  path_exists : string -> bool;
  jit_load : string -> string -> option Z;
  forward : Z -> Image -> option B.float
}.

Record ModelService : Type := mkModelService {
  backend : string;
  model_path : option string;
  device : string;
  _model : option Model;
  _loaded : bool
}.

Record Status : Type := mkStatus {
  st_backend : string;
  st_loaded : bool;
  st_model_path : option string;
  st_device : option string
}.

(** A value stored in the dictionary [predict] returns. *)
Inductive pyval : Type :=
| PyFloat (f : B.float)
| PyStr (s : string).

(** [self._load()]: the service after the call, and whether it raised. *)
Definition _load (t : Torch) (self : ModelService) : ModelService * result unit :=
  if String.eqb (backend self) "torch" then
    if negb (import_ok t)
    then (self, Raise (Exception "RuntimeError: PyTorch not available"))
    else
      match model_path self with
      | Some (String c p) =>
          let path := String c p in
          if negb (path_exists t path)
          then (self, Raise (Exception "RuntimeError: Model path not found"))
          else
            let first := jit_load t path (device self) in
            let loaded :=
              if endswith path ".pt" || endswith path ".pth"
              then match first with
                   | Some h => Some h
                   | None => jit_load t path (device self)
                   end
              else first in
            match loaded with
            | Some h =>
                (mkModelService (backend self) (model_path self) (device self)
                                (Some (TorchScript h)) true, Ok tt)
            | None => (self, Raise (Exception "RuntimeError: Failed to load torch model"))
            end
      | _ => (self, Raise (Exception "RuntimeError: Model path not found"))
      end
  else
    (mkModelService (backend self) (model_path self) (device self)
                    (Some SimulateTag) true, Ok tt).

Definition status (self : ModelService) : Status :=
  mkStatus (backend self) (_loaded self) (model_path self)
           (if String.eqb (backend self) "torch" then Some (device self) else None).

Definition reload (t : Torch) (self : ModelService) : ModelService * result Status :=
  let cleared := mkModelService (backend self) (model_path self) (device self) None false in
  let (self', r) := _load t cleared in
  (self', _ <- r ;; Ok (status self')).

(** The probability of the simulator, [base] being [random.random()]. *)
Definition simulate_prob (base : B.float) : B.float :=
  B.py_round (B.add (B.lit 3 10) (B.mul (B.lit 4 10) base)) 4.

(** The probability of the torch backend, [out] being the model's output. *)
Definition clamp_prob (out : B.float) : B.float :=
  B.py_max B.zero (B.py_min B.one out).

Definition finding_of (prob : B.float) : string :=
  if B.leb (B.lit 1 2) prob then "suspicious lesion" else "no acute findings".

(** [ModelService.predict(image)]. [base] is the value [random.random()]
    returns on the simulator path. The simulated delay changes no returned
    value and is left out, so on the simulator path this is the value of a
    call that returns: [time.sleep] raises when [ONCOSCAN_SIMULATE_DELAY_SEC]
    reads as nan, as inf or as a number too large for the clock. *)
Definition predict (t : Torch) (self : ModelService) (image : Image) (base : B.float)
  : result (list (string * pyval)) :=
  if negb (_loaded self) then Raise (Exception "RuntimeError: Model not loaded")
  else
    prob <-
      (if String.eqb (backend self) "torch" then
         match _model self with
         | Some (TorchScript h) =>
             match forward t h image with
             | Some out => Ok (clamp_prob out)
             | None => Raise (Exception "torch")
             end
         | _ => Raise (Exception "TypeError")
         end
       else Ok (simulate_prob base)) ;;
    Ok [("probability", PyFloat prob); ("primary_finding", PyStr (finding_of prob))].

(** The environment variables [ModelService.__init__] reads. *)
Record Environ : Type := mkEnviron {
  ONCOSCAN_MODEL_BACKEND : option string;
  ONCOSCAN_MODEL_PATH : option string;
  ONCOSCAN_MODEL_DEVICE : option string
}.

(** [ModelService()]. *)
Definition init (env : Environ) (t : Torch) : result ModelService :=
  let self :=
    mkModelService
      (lower (match ONCOSCAN_MODEL_BACKEND env with Some b => b | None => "simulate" end))
      (ONCOSCAN_MODEL_PATH env)
      (match ONCOSCAN_MODEL_DEVICE env with Some d => d | None => "cpu" end)
      None false in
  let (self', r) := _load t self in
  _ <- r ;; Ok self'.

(** [get_model_service()]: the module-level holder, created on first use. *)
Definition get_model_service (env : Environ) (t : Torch)
  (_MODEL_SERVICE : option ModelService)
  : option ModelService * result ModelService :=
  match _MODEL_SERVICE with
  | Some ms => (Some ms, Ok ms)
  | None =>
      match init env t with
      | Ok ms => (Some ms, Ok ms)
      | Raise e => (None, Raise e)
      end
  end.

End model.

(* ================================================================== *)
(** * [utils_dicom.py] *)
(* ================================================================== *)

Module utils_dicom.

(** A numpy array of an integer dtype: signedness and width of the dtype,
    the shape (rows and columns, preceded by the number of frames or followed
    by the number of samples per pixel when the data set has several), and
    the elements in C order (each within the range of the dtype). The
    arithmetic of [load_image_from_bytes] works element by element, so only
    [Image.fromarray] looks at the shape. *)
Record ndarray : Type := mkArray {
  signed : bool;
  bits : Z;
  shape : list Z;
  data : list Z
}.

(** What [load_image_from_bytes] reads from a parsed DICOM data set. *)
Record Dataset : Type := mkDataset {
  pixel_array : ndarray;
  Modality : option string
}.

(** pydicom and PIL. [dcmread b = None] when [pydicom.dcmread] or the
    [pixel_array] of its result raises on the bytes [b], [pil_open b = None]
    when PIL raises on them; [pil_open] includes [.convert("RGB")].
    [fromarray shape elements] is [Image.fromarray] on a [uint8] array of
    that shape and those elements: [None] when it raises, as it does for a
    shape it has no mode for (a stack of frames, say). *)
Record Decoders : Type := mkDecoders {
  _HAVE_PYDICOM : bool;
  dcmread : list Byte.byte -> option Dataset;
  pil_open : list Byte.byte -> option model.Image;
  fromarray : list Z -> list (option Z) -> option model.Image
}.

(** Arithmetic of an integer dtype wraps around. *)
Definition wrap (signed : bool) (bits : Z) (z : Z) : Z :=
  if signed then (z + 2 ^ (bits - 1)) mod 2 ^ bits - 2 ^ (bits - 1)
  else z mod 2 ^ bits.

(** [arr.min()] and [arr.max()]; numpy raises on an empty array. *)
Definition arr_min (l : list Z) : option Z :=
  match l with
  | [] => None
  | x :: l' => Some (fold_left Z.min l' x)
  end.

Definition arr_max (l : list Z) : option Z :=
  match l with
  | [] => None
  | x :: l' => Some (fold_left Z.max l' x)
  end.

(** [.astype("uint8")] on a float64 element: the C conversion truncates
    toward zero and is defined only when the truncated value fits. *)
Definition astype_uint8 (x : B.float) : option Z :=
  match B.trunc x with
  | Some z => if (0 <=? z) && (z <=? 255) then Some z else None
  | None => None
  end.

(** [.astype("uint8")] on an element of an integer dtype: modulo 256. *)
Definition astype_uint8_int (z : Z) : option Z := Some (z mod 256).

(** [(arr - arr_min) * (255.0 / (arr_max - arr_min))] at one element [v]. *)
Definition rescale (signed : bool) (bits : Z) (lo hi v : Z) : B.float :=
  B.mul (B.of_Z (wrap signed bits (v - lo)))
        (B.div (B.of_Z 255) (B.of_Z (wrap signed bits (hi - lo)))).

(** The elements of [arr.astype("uint8")] on the DICOM path, after the
    rescaling when it applies; [None] when [arr.min()] raises. *)
Definition normalize (arr : ndarray) : option (list (option Z)) :=
  match arr_min (data arr), arr_max (data arr) with
  | Some lo, Some hi =>
      Some (if lo <? hi
            then map (fun v => astype_uint8 (rescale (signed arr) (bits arr) lo hi v))
                     (data arr)
            else map astype_uint8_int (data arr))
  | _, _ => None
  end.

Definition load_image_from_bytes (d : Decoders) (data : list Byte.byte)
  (filename : string) : result (model.Image * string) :=
  let name := lower filename in
  if endswith name ".dcm" && _HAVE_PYDICOM d then
    match dcmread d data with
    | None => Raise (Exception "InvalidDicomError")
    | Some ds =>
        match normalize (pixel_array ds) with
        | None => Raise (Exception "ValueError")
        | Some px =>
            match fromarray d (shape (pixel_array ds)) px with
            | None => Raise (Exception "TypeError")
            | Some img =>
                Ok (img, match Modality ds with Some m => m | None => "DICOM" end)
            end
        end
    end
  else
    match pil_open d data with
    | None => Raise (Exception "UnidentifiedImageError")
    | Some img =>
        Ok (img,
            if endswith name ".png" || endswith name ".jpg" || endswith name ".jpeg"
            then "CT" else "Unknown")
    end.

End utils_dicom.

(* ================================================================== *)
(** * [admin_api.py] *)
(* ================================================================== *)

(** A row of [audit_log.csv]. *)
Record AuditRow : Type := mkAuditRow {
  row_audit_id : string;
  row_user_id : string;
  row_filename : string;
  row_saved_path : string;
  row_processing_time_seconds : B.float
}.

Module admin_api.

Definition require_admin (current_user : auth.Identity) : result auth.Identity :=
  if negb (String.eqb (auth.role current_user) "admin")
  then Raise (HTTPException 403 "Admin role required")
  else Ok current_user.

Definition require_doctor (current_user : auth.Identity) : result auth.Identity :=
  if negb (String.eqb (auth.role current_user) "doctor")
  then Raise (HTTPException 403 "Doctor role required")
  else Ok current_user.

Record UserIn : Type := mkUserIn {
  in_username : string;
  in_full_name : option string;
  in_password : string;
  in_role : string
}.

Record CompanyIn : Type := mkCompanyIn {
  in_name : string;
  in_address : option string;
  in_contact_email : option string;
  in_logo_url : option string
}.

(** Every route below first runs its [Depends(require_admin)]; the session
    is returned with the response. *)
Definition admin_list_users (current_user : auth.Identity) (session : Session)
  : result (list User.t) :=
  _ <- require_admin current_user ;; Ok (crud.list_users session).

Definition admin_create_user (c : auth.Crypto) (payload : UserIn)
  (current_user : auth.Identity) (session : Session) (utcnow : Z)
  : Session * result User.t :=
  match require_admin current_user with
  | Raise e => (session, Raise e)
  | Ok _ =>
      match auth.pwd_hash c (in_password payload) with
      | None => (session, Raise (Exception "PasswordValueError"))
      | Some hashed =>
          crud.create_user session (in_username payload) hashed
                           (str_or (in_full_name payload) "") (in_role payload) utcnow
      end
  end.

Definition admin_set_role (username role : string) (current_user : auth.Identity)
  (session : Session) : Session * result User.t :=
  match require_admin current_user with
  | Raise e => (session, Raise e)
  | Ok _ =>
      let (session', user) := crud.set_user_role session username role in
      match user with
      | None => (session', Raise (HTTPException 404 "User not found"))
      | Some u => (session', Ok u)
      end
  end.

Definition admin_upsert_company (payload : CompanyIn) (current_user : auth.Identity)
  (session : Session) (utcnow : Z) : Session * result (string * option Z) :=
  match require_admin current_user with
  | Raise e => (session, Raise e)
  | Ok _ =>
      let (session', prof) :=
        crud.upsert_company_profile session (in_name payload)
          (str_or (in_address payload) "") (str_or (in_contact_email payload) "")
          (str_or (in_logo_url payload) "") utcnow in
      (session', Ok ("ok", CompanyProfile.id prof))
  end.

(** The body of the response is [{"company": None}] or the profile. *)
Definition admin_get_company (current_user : auth.Identity) (session : Session)
  : result (option CompanyProfile.t) :=
  _ <- require_admin current_user ;; Ok (crud.get_company_profile session).

(** [audit_csv] is [None] when the file does not exist, and otherwise the
    rows [csv.DictReader] yields, in file order. *)
Definition admin_list_audits (limit : Z) (current_user : auth.Identity)
  (audit_csv : option (list AuditRow)) : result (list AuditRow) :=
  _ <- require_admin current_user ;;
  match audit_csv with
  | None => Ok []
  | Some all_rows => Ok (slice_from all_rows (- limit))
  end.

End admin_api.

(* ================================================================== *)
(** * [main.py] *)
(* ================================================================== *)

Module main.

Record TokenResponse : Type := mkTokenResponse {
  access_token : string;
  token_type : string
}.

Record DiagnosisResult : Type := mkDiagnosisResult {
  audit_id : string;
  user_id : string;
  scan_modality : string;
  filename : string;
  primary_finding : string;
  probability_malignancy : B.float;
  processing_time_seconds : B.float
}.

(** The database half of [login_for_access_token]: the body of its [try].
    It yields the token when the row exists and the password verifies. *)
Definition db_login (c : auth.Crypto) (db : option Session)
  (username password : string) (utcnow : Z) : result (option TokenResponse) :=
  match db with
  | None => Raise (Exception "OperationalError")
  | Some session =>
      match crud.get_user_by_username session username with
      | Some db_user =>
          ok <- auth.verify_password c password (User.password_hash db_user) ;;
          if ok
          then Ok (Some (mkTokenResponse
                           (auth.create_access_token c (User.username db_user) None utcnow)
                           "bearer"))
          else Ok None
      | None => Ok None
      end
  end.

(** [POST /token]. [username] and [password] are the two fields read from the
    JSON or form body ([None] when absent). *)
Definition login_for_access_token (c : auth.Crypto) (db : option Session)
  (username password : option string) (utcnow : Z) : result TokenResponse :=
  if negb (truthy_str username) || negb (truthy_str password)
  then Raise (HTTPException 400 "Missing credentials")
  else
    let u := str_or username "" in
    let p := str_or password "" in
    match try_except (db_login c db u p utcnow) (fun _ => Ok None) with
    | Ok (Some token) => Ok token
    | _ =>
        match dict_get (auth.FAKE_USERS_DB c) u with
        | None => Raise (HTTPException 401 "Incorrect username or password")
        | Some user =>
            ok <- auth.verify_password c p (auth.hashed_password user) ;;
            if negb ok
            then Raise (HTTPException 401 "Incorrect username or password")
            else Ok (mkTokenResponse (auth.create_access_token c u None utcnow) "bearer")
        end
    end.

(** [GET /users/me]. *)
Definition read_users_me (current_user : auth.Identity) : auth.Identity :=
  current_user.

(** [GET /status]: the service name and the status of the model service,
    which the request creates when the holder is still empty. *)
Definition status_endpoint (env : model.Environ) (t : model.Torch)
  (holder : option model.ModelService)
  : option model.ModelService * result (string * model.Status) :=
  match model.get_model_service env t holder with
  | (holder', Raise e) => (holder', Raise e)
  | (holder', Ok ms) => (holder', Ok ("oncoscan", model.status ms))
  end.

(** [POST /models/reload]; the holder of the singleton is threaded through. *)
Definition reload_model (env : model.Environ) (t : model.Torch)
  (current_user : auth.Identity) (holder : option model.ModelService)
  : option model.ModelService * result model.Status :=
  if negb (String.eqb (auth.role current_user) "admin")
  then (holder, Raise (HTTPException 403 "Admin role required"))
  else
    match model.get_model_service env t holder with
    | (holder', Raise e) => (holder', Raise e)
    | (_, Ok ms) =>
        let (ms', r) := model.reload t ms in (Some ms', r)
    end.

(** The operating system as [predict_scan] sees it: the directory of
    [main.py], the working directory, and whether [open(path, mode)] succeeds. *)
Record OS : Type := mkOS {
  here : string;
  getcwd : string;
  can_open : string -> bool
}.

(** What the request draws from the outside: two [uuid4().hex] values, two
    readings of [time.time()], and the values [random.random()] returns to
    [predict], to the fallback and to the branch for a missing key. *)
Record Draws : Type := mkDraws {
  uuid_upload : string;
  uuid_audit : string;
  time_start : B.float;
  time_end : B.float;
  rand_predict : B.float;
  rand_fallback : B.float;
  rand_missing : B.float
}.

(** The state [predict_scan] reads and writes. [audit_log] is [None] when
    [audit_log.csv] does not exist, and otherwise the rows that follow the
    header line [predict_scan] writes when it creates the file. A file that
    exists without that line (an empty file, say) is no state of [World]:
    the row appended to it would be read as the header. *)
Record World : Type := mkWorld {
  _MODEL_SERVICE : option model.ModelService;
  uploads : list (string * list Byte.byte);
  audit_log : option (list AuditRow)
}.

Definition upload_dir (os : OS) : string :=
  posixpath.join (posixpath.join (here os) "..") "uploads".

Definition safe_name_of (filename : string) : string :=
  replace (replace filename ".." "") "/" "_".

Definition saved_path_of (os : OS) (filename : string) : string :=
  posixpath.abspath (getcwd os) (posixpath.join (upload_dir os) (safe_name_of filename)).

Definition audit_csv_path (os : OS) : string :=
  posixpath.join (posixpath.join (here os) "..") "audit_log.csv".

(** The probability and finding of the fallback taken when no image could
    be decoded. *)
Definition fallback_prob (u : B.float) : B.float :=
  B.py_round (B.uniform (B.lit 1 100) (B.lit 99 100) u) 4.

(** Lines 142-150: the prediction for a decoded image, or the fallback. *)
Definition prob_and_finding (t : model.Torch) (ms : model.ModelService)
  (img : option model.Image) (dr : Draws) : result (B.float * string) :=
  match img with
  | Some image =>
      pred <- model.predict t ms image (rand_predict dr) ;;
      prob <-
        match dict_get pred "probability" with
        | Some (model.PyFloat f) => Ok f
        | Some (model.PyStr _) => Raise (Exception "ValueError")
        | None => Ok (B.uniform (B.lit 1 100) (B.lit 99 100) (rand_missing dr))
        end ;;
      primary <-
        match dict_get pred "primary_finding" with
        | Some (model.PyStr s) => Ok s
        | Some (model.PyFloat _) => Raise (Exception "ValidationError")
        | None => Ok "no acute findings"
        end ;;
      Ok (prob, primary)
  | None => Ok (fallback_prob (rand_fallback dr), "no acute findings")
  end.

(** [POST /predict], for a request that passed [get_current_user].
    [os.makedirs(upload_dir, exist_ok=True)] is taken to succeed; the two
    [open] calls fail when [can_open] says so. *)
Definition predict_scan (os : OS) (d : utils_dicom.Decoders) (env : model.Environ)
  (t : model.Torch) (dr : Draws) (file_filename : option string)
  (contents : list Byte.byte) (current_user : auth.Identity) (w : World)
  : World * result DiagnosisResult :=
  let filename := str_or file_filename ("upload_" ++ uuid_upload dr) in
  let saved_path := saved_path_of os filename in
  if negb (can_open os saved_path) then (w, Raise (Exception "OSError"))
  else
    let w1 := mkWorld (_MODEL_SERVICE w) ((saved_path, contents) :: uploads w)
                      (audit_log w) in
    let (img, modality) :=
      match utils_dicom.load_image_from_bytes d contents filename with
      | Ok (img, modality) => (Some img, modality)
      | Raise _ => (None, "Unknown")
      end in
    match model.get_model_service env t (_MODEL_SERVICE w1) with
    | (holder, Raise e) => (mkWorld holder (uploads w1) (audit_log w1), Raise e)
    | (holder, Ok ms) =>
        let w2 := mkWorld holder (uploads w1) (audit_log w1) in
        match prob_and_finding t ms img dr with
        | Raise e => (w2, Raise e)
        | Ok (prob, primary) =>
            let processing_time := B.sub (time_end dr) (time_start dr) in
            if negb (can_open os (audit_csv_path os))
            then (w2, Raise (Exception "OSError"))
            else
              let row := mkAuditRow (uuid_audit dr) (auth.user_id current_user)
                                    filename saved_path (B.py_round processing_time 3) in
              let w3 := mkWorld holder (uploads w2)
                          (Some (match audit_log w2 with
                                 | None => [row]
                                 | Some rows => (rows ++ [row])%list
                                 end)) in
              (w3, Ok (mkDiagnosisResult (uuid_audit dr) (auth.user_id current_user)
                         modality filename primary prob
                         (B.py_round processing_time 3)))
        end
    end.

End main.

(* ================================================================== *)
(** * [scripts_create_admin.py] *)
(* ================================================================== *)

Module scripts_create_admin.

(** [main()] for the parsed arguments [username], [password] and
    [--full-name]; [ctx_hash] is the [hash] of the script's own
    [pbkdf2_sha256] context. The result is the session after the run and the
    line the script prints. [create_db_and_tables()] adds no row. *)
Definition main (ctx_hash : string -> string) (session : Session)
  (username password full_name : string) (utcnow : Z) : Session * string :=
  let hashed := ctx_hash password in
  match find (fun u => String.eqb (User.username u) username) (users session) with
  | Some _ => (session, "User already exists")
  | None =>
      let user := User.mk (Some (next_user_id session)) username (Some full_name)
                          "admin" false hashed utcnow in
      (mkSession (users session ++ [user]) (companies session)
                 (next_user_id session + 1) (next_company_id session),
       "Admin user created")
  end.

End scripts_create_admin.

(* ================================================================== *)
(** * Vocabulary of the statements *)
(* ================================================================== *)

(** The last [k] records of [rows], in file order, as the specification of
    [tail(limit)] words it. *)
Definition last_records {A : Type} (k : nat) (rows : list A) : list A :=
  skipn (List.length rows - k) rows.

(** A sequence of [POST /admin/company] requests by [current_user], each with
    its payload and the clock reading at the time. *)
Definition run_upserts (current_user : auth.Identity) (session : Session)
  (posts : list (admin_api.CompanyIn * Z)) : Session :=
  fold_left
    (fun s post => fst (admin_api.admin_upsert_company (fst post) current_user s (snd post)))
    posts session.

(** The row the database lookup of [uid] yields; [None] when the lookup
    fails ([db = None]) or finds no matching row. *)
Definition db_lookup (db : option Session) (uid : string) : option User.t :=
  match db with
  | Some session => crud.get_user_by_username session uid
  | None => None
  end.

(** No two rows of the user table carry the same username. *)
Definition unique_usernames (session : Session) : Prop :=
  NoDup (map User.username (users session)).

(** The identity [get_current_user] builds from a stored row. *)
Definition stored_identity (row : User.t) : auth.Identity :=
  auth.mkIdentity (User.username row)
                  (str_or (User.full_name row) (User.username row))
                  (User.role row).

(** The same draws, with another value for the branch of a missing key. *)
Definition with_rand_missing (dr : main.Draws) (x : B.float) : main.Draws :=
  main.mkDraws (main.uuid_upload dr) (main.uuid_audit dr) (main.time_start dr)
               (main.time_end dr) (main.rand_predict dr) (main.rand_fallback dr) x.

(** The environment's choice of backend and device, as [ModelService()]
    reads them. *)
Definition backend_of (env : model.Environ) : string :=
  lower (match model.ONCOSCAN_MODEL_BACKEND env with Some b => b | None => "simulate" end).

Definition device_of (env : model.Environ) : string :=
  match model.ONCOSCAN_MODEL_DEVICE env with Some d => d | None => "cpu" end.

(** The rows of the audit file, none when the file does not exist. *)
Definition audit_rows (log : option (list AuditRow)) : list AuditRow :=
  match log with Some rows => rows | None => [] end.

(** The subject claim of a token that decodes. *)
Definition token_subject (c : auth.Crypto) (token : string) : option string :=
  match auth.jwt_decode c token with
  | Some payload => auth.sub payload
  | None => None
  end.

Definition forbidden : exn := HTTPException 403 "Admin role required".

(** Every admin-only route and [/models/reload] answer 403 to [who], and
    leave the state they were given untouched. *)
Definition rejected_by_admin_routes (c : auth.Crypto) (who : auth.Identity) : Prop :=
  (forall session, admin_api.admin_list_users who session = Raise forbidden)
  /\ (forall payload session now,
        admin_api.admin_create_user c payload who session now
        = (session, Raise forbidden))
  /\ (forall username role session,
        admin_api.admin_set_role username role who session
        = (session, Raise forbidden))
  /\ (forall payload session now,
        admin_api.admin_upsert_company payload who session now
        = (session, Raise forbidden))
  /\ (forall session, admin_api.admin_get_company who session = Raise forbidden)
  /\ (forall limit audit_csv,
        admin_api.admin_list_audits limit who audit_csv = Raise forbidden)
  /\ (forall env t holder,
        main.reload_model env t who holder = (holder, Raise forbidden)).

(** The token [POST /token] issues for [subject] at time [utcnow]. *)
Definition token_for (c : auth.Crypto) (subject : string) (utcnow : Z)
  : main.TokenResponse :=
  main.mkTokenResponse (auth.create_access_token c subject None utcnow) "bearer".

(** What [os.path.join] puts in front of a relative second argument. *)
Definition join_prefix (a : string) : string :=
  if String.eqb a "" || endswith a "/" then a else a ++ "/".

(** [path] is the single component [c], or ends in ["/" ++ c]. *)
Definition last_component (path c : string) : Prop :=
  path = c \/ exists a, path = a ++ String "/" c.

(** Powers of two in [Q]. *)
Definition bpow (e : Z) : Q := ((2 # 1) ^ e)%Q.

(** [x] is [+0.0], or a positive finite double whose exponent is at most [E]. *)
Definition finite_below (E : Z) (x : B.float) : Prop :=
  x = S754_zero false \/ exists m e, x = S754_finite false m e /\ e <= E.

(** [P] holds of every positive number up to [n]. *)
Definition all_upto (P : positive -> bool) (n : positive) : bool :=
  Pos.peano_rect (fun _ => bool) (P 1%positive)
                 (fun p acc => acc && P (Pos.succ p)) n.

(** The decimal [n / 10000], converted to the nearest double, compares
    within [[0.0, 1.0]]. *)
Definition decimal4_ok (n : positive) : bool :=
  B.in01 (B.div (S754_finite false n 0) (S754_finite false 10000 0)).

(** The values of an integer dtype. *)
Definition dtype_range (signed : bool) (bits : Z) (z : Z) : Prop :=
  if signed then - 2 ^ (bits - 1) <= z < 2 ^ (bits - 1) else 0 <= z < 2 ^ bits.

(** An array of an integer dtype of at most 32 bits, every element within
    the range of the dtype. *)
Definition integer_array (arr : utils_dicom.ndarray) : Prop :=
  0 < utils_dicom.bits arr <= 32
  /\ forall v, In v (utils_dicom.data arr) ->
       dtype_range (utils_dicom.signed arr) (utils_dicom.bits arr) v.

(** What the DICOM path returns once the [uint8] array [px] is built: the
    image [Image.fromarray] makes of it with the modality of the data set,
    or the error [Image.fromarray] raises. *)
Definition dicom_result (d : utils_dicom.Decoders) (ds : utils_dicom.Dataset)
  (px : list (option Z)) : result (model.Image * string) :=
  match utils_dicom.fromarray d (utils_dicom.shape (utils_dicom.pixel_array ds)) px with
  | None => Raise (Exception "TypeError")
  | Some img =>
      Ok (img, match utils_dicom.Modality ds with Some m => m | None => "DICOM" end)
  end.

(** Every character of [s] is an ASCII character. *)
Definition is_ascii (s : string) : bool :=
  forallb (fun c => (nat_of_ascii c <? 128)%nat) (list_ascii_of_string s).

(** The double nearest to the decimal [n / 10000]. *)
Definition decimal4 (n : positive) : B.float :=
  B.div (S754_finite false n 0) (S754_finite false 10000 0).

(** [lo <= x <= hi] on doubles. *)
Definition in_range (lo hi x : B.float) : bool := B.leb lo x && B.leb x hi.

(** The decimals from 0.3000 to 0.7000 compare within [[0.3, 0.7]], and
    those from 0.0100 to 0.9900 within [[0.01, 0.99]]. *)
Definition simulator_decimal_ok (n : positive) : bool :=
  (n <? 3000)%positive || (7000 <? n)%positive
  || in_range (B.lit 3 10) (B.lit 7 10) (decimal4 n).

Definition fallback_decimal_ok (n : positive) : bool :=
  (n <? 100)%positive || (9900 <? n)%positive
  || in_range (B.lit 1 100) (B.lit 99 100) (decimal4 n).

(* ================================================================== *)
(** * Fixtures: concrete collaborators on which the theorems are exercised *)
(* ================================================================== *)

Module Fixtures.

(** A toy password scheme: the hash of [p] is ["plain$" ++ p]; any other
    string is not a hash and makes verification raise. *)
Definition toy_hash (p : string) : string := "plain$" ++ p.

Definition toy_verify (p h : string) : option bool :=
  if String.prefix "plain$" h then Some (String.eqb h (toy_hash p)) else None.

(** A toy token format: the token is the subject itself. *)
Definition toy_encode (cl : auth.Claims) : string :=
  match auth.sub cl with Some s => s | None => "" end.

Definition toy_decode (tok : string) : option auth.Claims :=
  if String.eqb tok "" then None else Some (auth.mkClaims (Some tok) 0).

Definition crypto : auth.Crypto :=
  auth.mkCrypto toy_verify (fun p => Some (toy_hash p)) toy_encode toy_decode
                (toy_hash "securepass") 1440.


Definition alice_disabled : User.t :=
  User.mk (Some 1) "alice" (Some "Alice") "doctor" true (toy_hash "wonderland") 0.

Definition root_admin : User.t :=
  User.mk (Some 2) "root" (Some "Root") "admin" false (toy_hash "toor") 0.

Definition session0 : Session := mkSession [alice_disabled; root_admin] [] 3 1.

Definition empty_session : Session := mkSession [] [] 1 1.

Definition admin_identity : auth.Identity := auth.mkIdentity "root" "Root" "admin".

Definition no_torch : model.Torch :=
  model.mkTorch false (fun _ => false) (fun _ _ => None) (fun _ _ => None).

Definition environ0 : model.Environ := model.mkEnviron None None None.

(** [Image.fromarray] as far as the fixtures need it: an array of rows and
    columns becomes an image of mode [L], any other shape is refused. *)
Definition pil_fromarray (shape : list Z) (px : list (option Z)) : option model.Image :=
  match shape with
  | [_; _] => Some (model.mkImage "L" px)
  | _ => None
  end.

Definition no_decoders : utils_dicom.Decoders :=
  utils_dicom.mkDecoders false (fun _ => None) (fun _ => None) pil_fromarray.

Definition os0 : main.OS :=
  main.mkOS "/srv/oncoscan_webapp/backend" "/srv" (fun _ => true).


Definition half : B.float := B.lit 1 2.

Definition draws0 : main.Draws :=
  main.mkDraws "0123" "abcd" (B.of_Z 10) (B.of_Z 11) half half half.

Definition world0 : main.World := main.mkWorld None [] None.

(** A pydicom that parses every upload into the same data set. *)
Definition decoders_of (ds : utils_dicom.Dataset) : utils_dicom.Decoders :=
  utils_dicom.mkDecoders true (fun _ => Some ds) (fun _ => None) pil_fromarray.

(** One row of three 16-bit pixels. *)
Definition dicom_dataset : utils_dicom.Dataset :=
  utils_dicom.mkDataset (utils_dicom.mkArray false 16 [1; 3] [0; 25; 10]) (Some "MR").

Definition dicom_decoders : utils_dicom.Decoders := decoders_of dicom_dataset.



(** One row of three signed 16-bit pixels whose range fits the dtype, and one
    whose range does not. *)
Definition signed_dataset : utils_dicom.Dataset :=
  utils_dicom.mkDataset (utils_dicom.mkArray true 16 [1; 3] [-1000; 0; 1000]) (Some "CT").

Definition wide_signed_dataset : utils_dicom.Dataset :=
  utils_dicom.mkDataset (utils_dicom.mkArray true 16 [1; 3] [-20000; 0; 20000])
                        (Some "CT").


Definition simulator : model.ModelService :=
  model.mkModelService "simulate" None "cpu" (Some model.SimulateTag) true.

Definition company (n : string) : admin_api.CompanyIn :=
  admin_api.mkCompanyIn n None None None.

Definition doc_user_identity : auth.Identity :=
  auth.mkIdentity "doc_user" "Dr. Alice Onco" "doctor".

Definition row (n : string) : AuditRow := mkAuditRow n "doc_user" "scan.png" "/x" B.zero.

End Fixtures.

(* ================================================================== *)
(** * Properties *)
(* ================================================================== *)

Unset Implicit Arguments.
Local Open Scope list_scope.

(** ** The scenarios of [tests/test_api.py], replayed on the embedding *)

(** [test_token_and_me]: the demo user logs in and [/users/me] resolves the
    token back to [doc_user] (here with no database at all). *)
Lemma test_token_and_me :
  exists token,
    main.login_for_access_token Fixtures.crypto None (Some "doc_user")
      (Some "securepass") 0 = Ok token
    /\ (x <- auth.get_current_user Fixtures.crypto None (main.access_token token) ;;
        Ok (auth.user_id (main.read_users_me x))) = Ok "doc_user".
Proof. eexists. split; reflexivity. Qed.

(** [test_predict_and_audit]: a file named [scan.png] that is no image is
    answered with a result for [doc_user], and the audit file exists
    afterwards with one row. *)
Lemma test_predict_and_audit :
  exists res row,
    main.predict_scan Fixtures.os0 Fixtures.no_decoders Fixtures.environ0
      Fixtures.no_torch Fixtures.draws0 (Some "scan.png") []
      Fixtures.doc_user_identity Fixtures.world0
    = (main.mkWorld (Some Fixtures.simulator)
         [("/srv/oncoscan_webapp/uploads/scan.png", [])] (Some [row]),
       Ok res)
    /\ main.user_id res = "doc_user"
    /\ main.audit_id res = row_audit_id row.
Proof. eexists _, _. repeat split. Qed.

(** ** The audit log ([GET /admin/audits]) *)

Lemma last_records_length {A : Type} (k : nat) (rows : list A) :
  List.length (last_records k rows) = Nat.min k (List.length rows).
Proof.
  unfold last_records. rewrite length_skipn. lia.
Qed.

Lemma slice_from_neg {A : Type} (rows : list A) (limit : Z) :
  0 < limit ->
  slice_from rows (- limit) = last_records (Z.to_nat limit) rows.
Proof.
  intros Hpos. unfold slice_from, last_records.
  assert (Hlt : (- limit <? 0) = true) by (apply Z.ltb_lt; lia).
  rewrite Hlt. f_equal. lia.
Qed.

(** For a positive [limit] the route returns the last [min(limit, n)] rows. *)
Lemma admin_list_audits_positive_limit (uid name : string) (limit : Z)
  (rows : list AuditRow) :
  0 < limit ->
  admin_api.admin_list_audits limit (auth.mkIdentity uid name "admin") (Some rows)
  = Ok (last_records (Z.to_nat limit) rows).
Proof.
  intros Hpos. unfold admin_api.admin_list_audits. cbn.
  now rewrite slice_from_neg.
Qed.

(** C6 (the code at the failing input): with [limit = 0] the slice
    [all_rows[-0:]] is the whole list, so the route returns every row of a
    non-empty audit file, whereas the last [min(0, n)] records are none. *)
Theorem admin_list_audits_limit_zero_returns_all (uid name : string)
  (r : AuditRow) (rows : list AuditRow) :
  admin_api.admin_list_audits 0 (auth.mkIdentity uid name "admin") (Some (r :: rows))
  = Ok (r :: rows)
  /\ last_records 0 (r :: rows) = [].
Proof.
  split.
  - reflexivity.
  - unfold last_records. rewrite Nat.sub_0_r. apply skipn_all.
Qed.

(** ** Role updates ([POST /admin/users/{username}/role]) *)

Lemma get_user_by_username_none (session : Session) (username : string) :
  crud.get_user_by_username session username = None <->
  (forall u, In u (users session) -> User.username u <> username).
Proof.
  unfold crud.get_user_by_username. split.
  - intros Hnone u Hin Heq.
    apply (find_none _ _ Hnone) in Hin. cbn in Hin.
    apply String.eqb_neq in Hin. contradiction.
  - intros Hall. induction (users session) as [|x l IH]; [reflexivity|].
    cbn. destruct (String.eqb (User.username x) username) eqn:E.
    + apply String.eqb_eq in E. exfalso. apply (Hall x); [now left | exact E].
    + apply IH. intros u Hu. apply Hall. now right.
Qed.

(** C7: an admin's role update for a username with no row answers 404 and
    returns the store exactly as it was. *)
Theorem admin_set_role_unknown_user (session : Session) (username role : string)
  (current_user : auth.Identity) :
  auth.role current_user = "admin" ->
  crud.get_user_by_username session username = None ->
  admin_api.admin_set_role username role current_user session
  = (session, Raise (HTTPException 404 "User not found")).
Proof.
  intros Hadmin Hnone.
  unfold admin_api.admin_set_role, admin_api.require_admin, crud.set_user_role.
  rewrite Hadmin, Hnone. reflexivity.
Qed.

Lemma admin_set_role_unknown_user_witness :
  admin_api.admin_set_role "bob" "admin" Fixtures.admin_identity Fixtures.session0
  = (Fixtures.session0, Raise (HTTPException 404 "User not found")).
Proof.
  apply (admin_set_role_unknown_user Fixtures.session0 "bob" "admin"
           Fixtures.admin_identity); reflexivity.
Defined.

(** ** The company profile ([POST] and [GET /admin/company]) *)

Lemma upsert_on_empty (current_user : auth.Identity) (s : Session)
  (p : admin_api.CompanyIn) (now : Z) :
  auth.role current_user = "admin" ->
  companies s = [] ->
  exists prof,
    companies (fst (admin_api.admin_upsert_company p current_user s now)) = [prof]
    /\ CompanyProfile.name prof = admin_api.in_name p
    /\ CompanyProfile.id prof = Some (next_company_id s).
Proof.
  intros Hadmin Hempty.
  unfold admin_api.admin_upsert_company, admin_api.require_admin,
    crud.upsert_company_profile.
  rewrite Hadmin, Hempty. cbn. eexists. repeat split.
Qed.

Lemma upsert_on_single (current_user : auth.Identity) (s : Session)
  (p : admin_api.CompanyIn) (now : Z) (old : CompanyProfile.t) :
  auth.role current_user = "admin" ->
  companies s = [old] ->
  exists prof,
    companies (fst (admin_api.admin_upsert_company p current_user s now)) = [prof]
    /\ CompanyProfile.name prof = admin_api.in_name p
    /\ CompanyProfile.id prof = CompanyProfile.id old.
Proof.
  intros Hadmin Hone.
  unfold admin_api.admin_upsert_company, admin_api.require_admin,
    crud.upsert_company_profile.
  rewrite Hadmin, Hone. cbn. eexists. repeat split.
Qed.

Lemma last_cons_default {A : Type} (a d : A) (l : list A) :
  List.last (a :: l) d = List.last l a.
Proof.
  revert a d. induction l as [|b l IH]; intros a d; [reflexivity|].
  change (List.last (a :: b :: l) d) with (List.last (b :: l) d).
  now rewrite !IH.
Qed.

Lemma run_upserts_from_single (current_user : auth.Identity)
  (posts : list (admin_api.CompanyIn * Z)) :
  auth.role current_user = "admin" ->
  forall (s : Session) (old : CompanyProfile.t),
  companies s = [old] ->
  exists prof,
    companies (run_upserts current_user s posts) = [prof]
    /\ CompanyProfile.id prof = CompanyProfile.id old
    /\ CompanyProfile.name prof
       = List.last (map (fun post => admin_api.in_name (fst post)) posts)
                   (CompanyProfile.name old).
Proof.
  intros Hadmin. induction posts as [|[p now] posts IH]; intros s old Hone.
  - exists old. cbn. auto.
  - destruct (upsert_on_single current_user s p now old Hadmin Hone) as (prof & Hc & Hn & Hi).
    destruct (IH _ _ Hc) as (prof' & Hc' & Hi' & Hn').
    exists prof'. unfold run_upserts in *. cbn [fold_left fst snd].
    split; [exact Hc'|]. split; [congruence|].
    rewrite Hn'. cbn [map fst]. rewrite Hn. symmetry. apply last_cons_default.
Qed.

(** C8: starting from an empty table, after any sequence of upserts by an
    admin the table holds at most one row; after at least one upsert it holds
    exactly one, whose id is the one created by the first upsert, and a [GET]
    returns the name of the most recent [POST]. *)
Theorem company_upserts_keep_single_row (current_user : auth.Identity)
  (session : Session) (posts : list (admin_api.CompanyIn * Z))
  (p : admin_api.CompanyIn) (now : Z) :
  auth.role current_user = "admin" ->
  companies session = [] ->
  (List.length (companies (run_upserts current_user session posts)) <= 1)%nat
  /\ exists prof,
       companies (run_upserts current_user session (posts ++ [(p, now)])) = [prof]
       /\ CompanyProfile.id prof = Some (next_company_id session)
       /\ admin_api.admin_get_company current_user
            (run_upserts current_user session (posts ++ [(p, now)])) = Ok (Some prof)
       /\ CompanyProfile.name prof = admin_api.in_name p.
Proof.
  intros Hadmin Hempty.
  assert (Hnonempty : forall q t qs,
    exists prof,
      companies (run_upserts current_user session ((q, t) :: qs)) = [prof]
      /\ CompanyProfile.id prof = Some (next_company_id session)
      /\ CompanyProfile.name prof
         = List.last (map (fun post => admin_api.in_name (fst post)) qs)
                     (admin_api.in_name q)).
  { intros q t qs.
    destruct (upsert_on_empty current_user session q t Hadmin Hempty) as (prof & Hc & Hn & Hi).
    destruct (run_upserts_from_single current_user qs Hadmin _ _ Hc) as (prof' & Hc' & Hi' & Hn').
    exists prof'. unfold run_upserts in *. cbn [fold_left fst snd].
    split; [exact Hc'|]. split; [congruence|]. now rewrite Hn', Hn. }
  split.
  - destruct posts as [|[q t] qs].
    + cbn. rewrite Hempty. cbn. lia.
    + destruct (Hnonempty q t qs) as (prof & Hc & _). rewrite Hc. cbn. lia.
  - assert (Hlast : exists q t qs, posts ++ [(p, now)] = (q, t) :: qs
        /\ List.last (map (fun post => admin_api.in_name (fst post)) qs)
                     (admin_api.in_name q) = admin_api.in_name p).
    { destruct posts as [|[q t] qs].
      - exists p, now, []. split; reflexivity.
      - exists q, t, (qs ++ [(p, now)]). split; [reflexivity|].
        rewrite map_app. cbn [map fst]. apply last_last. }
    destruct Hlast as (q & t & qs & Heq & Hl). rewrite Heq.
    destruct (Hnonempty q t qs) as (prof & Hc & Hi & Hn).
    exists prof. split; [exact Hc|]. split; [exact Hi|]. split.
    + unfold admin_api.admin_get_company, admin_api.require_admin,
        crud.get_company_profile.
      rewrite Hadmin, Hc. reflexivity.
    + now rewrite Hn, Hl.
Qed.

Lemma company_upserts_keep_single_row_witness :
  (List.length (companies (run_upserts Fixtures.admin_identity Fixtures.empty_session
                             [(Fixtures.company "Acme", 5%Z)])) <= 1)%nat
  /\ exists prof,
       companies (run_upserts Fixtures.admin_identity Fixtures.empty_session
                    ([(Fixtures.company "Acme", 5)] ++ [(Fixtures.company "Onco Ltd", 6)]))
       = [prof]
       /\ CompanyProfile.id prof = Some (next_company_id Fixtures.empty_session)
       /\ admin_api.admin_get_company Fixtures.admin_identity
            (run_upserts Fixtures.admin_identity Fixtures.empty_session
               ([(Fixtures.company "Acme", 5)] ++ [(Fixtures.company "Onco Ltd", 6)]))
          = Ok (Some prof)
       /\ CompanyProfile.name prof = admin_api.in_name (Fixtures.company "Onco Ltd").
Proof.
  apply (company_upserts_keep_single_row Fixtures.admin_identity Fixtures.empty_session
           [(Fixtures.company "Acme", 5)] (Fixtures.company "Onco Ltd") 6);
    reflexivity.
Defined.

(** ** Identity resolution and the admin gate *)

Lemma fallback_identity_role (c : auth.Crypto) (uid : string) (who : auth.Identity) :
  auth.fallback_identity c uid = Ok who -> auth.role who = "doctor".
Proof.
  unfold auth.fallback_identity.
  destruct (dict_get (auth.FAKE_USERS_DB c) uid) as [user|]; [|discriminate].
  destruct (auth.disabled user); [discriminate|].
  intros [= <-]. reflexivity.
Qed.

Lemma doctor_is_rejected (c : auth.Crypto) (who : auth.Identity) :
  auth.role who = "doctor" -> rejected_by_admin_routes c who.
Proof.
  intros Hrole.
  unfold rejected_by_admin_routes, admin_api.admin_list_users,
    admin_api.admin_create_user, admin_api.admin_set_role,
    admin_api.admin_upsert_company, admin_api.admin_get_company,
    admin_api.admin_list_audits, main.reload_model, admin_api.require_admin.
  rewrite Hrole. cbn. repeat split.
Qed.

(** An identity [get_current_user] returns is built from a stored row that
    is not disabled, or it is the fallback identity. The fallback is also
    reached for a stored row that is disabled: the "Inactive user" exception
    raised inside the [try] is caught by its [except Exception: pass]. *)
Lemma get_current_user_cases (c : auth.Crypto) (db : option Session)
  (token uid : string) (who : auth.Identity) :
  token_subject c token = Some uid ->
  auth.get_current_user c db token = Ok who ->
  (exists row, db_lookup db uid = Some row
               /\ User.disabled row = false
               /\ auth.role who = User.role row)
  \/ auth.fallback_identity c uid = Ok who.
Proof.
  unfold token_subject, auth.get_current_user.
  destruct (auth.jwt_decode c token) as [payload|]; [|discriminate].
  intros ->. unfold auth.db_identity, db_lookup.
  destruct db as [session|]; [|now right].
  destruct (crud.get_user_by_username session uid) as [row|]; [|now right].
  destruct (User.disabled row) eqn:Hdis; [now right|].
  cbn. intros [= <-]. left. exists row. auto.
Qed.

Lemma disabled_row_resolves_through_fallback :
  auth.get_current_user Fixtures.crypto
    (Some (mkSession [User.mk (Some 1) "doc_user" None "admin" true
                              (Fixtures.toy_hash "x") 0] [] 2 1))
    "doc_user"
  = Ok Fixtures.doc_user_identity.
Proof. reflexivity. Qed.

(** C10: when the database lookup of the token's subject fails or finds no
    row, the identity [get_current_user] returns comes from the in-memory
    fallback and carries role "doctor"; every admin-only route and
    [/models/reload] answer it with 403. *)
Theorem fallback_identity_is_doctor_and_forbidden (c : auth.Crypto)
  (db : option Session) (token uid : string) (who : auth.Identity) :
  token_subject c token = Some uid ->
  db_lookup db uid = None ->
  auth.get_current_user c db token = Ok who ->
  auth.role who = "doctor"
  /\ admin_api.require_admin who = Raise forbidden
  /\ rejected_by_admin_routes c who.
Proof.
  intros Hsub Hmiss Hres.
  assert (Hrole : auth.role who = "doctor").
  { unfold auth.get_current_user in Hres. unfold token_subject in Hsub.
    destruct (auth.jwt_decode c token) as [payload|]; [|discriminate].
    rewrite Hsub in Hres.
    assert (Hdb : try_except (auth.db_identity db uid) (fun _ => Ok None) = Ok None).
    { unfold auth.db_identity, db_lookup in *. destruct db as [session|].
      - rewrite Hmiss. reflexivity.
      - reflexivity. }
    rewrite Hdb in Hres. now apply fallback_identity_role in Hres. }
  split; [exact Hrole|]. split.
  - unfold admin_api.require_admin. rewrite Hrole. reflexivity.
  - now apply doctor_is_rejected.
Qed.

Lemma fallback_identity_is_doctor_and_forbidden_witness :
  auth.role Fixtures.doc_user_identity = "doctor"
  /\ admin_api.require_admin Fixtures.doc_user_identity = Raise forbidden
  /\ rejected_by_admin_routes Fixtures.crypto Fixtures.doc_user_identity.
Proof.
  apply (fallback_identity_is_doctor_and_forbidden Fixtures.crypto
           (Some Fixtures.session0) "doc_user" "doc_user" Fixtures.doc_user_identity);
    reflexivity.
Defined.

(** ** Login ([POST /token]) *)


(** A stored row whose hash does not verify is no obstacle when the fallback
    entry of the same name verifies: the request still gets a token. *)
Lemma login_stored_mismatch_fallback_match :
  let shadow := User.mk (Some 1) "doc_user" None "doctor" false
                        (Fixtures.toy_hash "other") 0 in
  auth.pwd_verify Fixtures.crypto "securepass" (User.password_hash shadow) = Some false
  /\ main.login_for_access_token Fixtures.crypto (Some (mkSession [shadow] [] 2 1))
       (Some "doc_user") (Some "securepass") 0
     = Ok (token_for Fixtures.crypto "doc_user" 0).
Proof.
  repeat split.
Qed.



(** ** Upload paths ([POST /predict], lines 124-130) *)

Lemma append_assoc (a b c : string) : ((a ++ b) ++ c = a ++ (b ++ c))%string.
Proof. induction a as [|x a IH]; cbn; [reflexivity | now rewrite IH]. Qed.

Lemma append_empty_r (a : string) : (a ++ "")%string = a.
Proof. induction a as [|x a IH]; cbn; [reflexivity | now rewrite IH]. Qed.

Lemma append_nonempty_r (a b : string) : b <> "" -> (a ++ b)%string <> "".
Proof. destruct a; cbn; [auto | discriminate]. Qed.

Lemma prefix_empty (s : string) : String.prefix "" s = true.
Proof. destruct s; reflexivity. Qed.

Lemma prefix_cons (p : string) (c d : ascii) (s : string) :
  String.prefix (String c p) (String d s) = Ascii.eqb c d && String.prefix p s.
Proof.
  cbn. destruct (ascii_dec c d) as [->|Hne].
  - now rewrite Ascii.eqb_refl.
  - apply Ascii.eqb_neq in Hne. now rewrite Hne.
Qed.

(** A prefix test no longer than [s] does not see what is appended to [s]. *)
Lemma prefix_app_long (p s t : string) :
  (String.length p <= String.length s)%nat ->
  String.prefix p (s ++ t)%string = String.prefix p s.
Proof.
  revert s. induction p as [|c p IH]; intros s Hlen.
  - now rewrite !prefix_empty.
  - destruct s as [|d s]; cbn in Hlen; [lia|].
    change (String d s ++ t)%string with (String d (s ++ t)%string).
    rewrite !prefix_cons, IH by lia. reflexivity.
Qed.

Lemma length_append (a b : string) :
  String.length (a ++ b)%string = (String.length a + String.length b)%nat.
Proof. induction a as [|x a IH]; cbn; [reflexivity | now rewrite IH]. Qed.

(** *** [str.replace] on the two patterns of [safe_name] *)

Lemma replace_slash_cons (c : ascii) (s : string) :
  replace (String c s) "/" "_"
  = String (if Ascii.eqb c "/" then "_"%char else c) (replace s "/" "_").
Proof.
  unfold replace. cbn [replace_from]. rewrite prefix_cons.
  destruct (Ascii.eqb "/" c) eqn:E.
  - apply Ascii.eqb_eq in E. subst c. destruct s; reflexivity.
  - rewrite Ascii.eqb_sym in E. rewrite E. reflexivity.
Qed.

Lemma replace_dots_pair (s : string) :
  replace (String "." (String "." s)) ".." "" = replace s ".." "".
Proof.
  unfold replace. cbn [replace_from].
  rewrite !prefix_cons, prefix_empty. destruct s; reflexivity.
Qed.

Lemma replace_dots_other (c : ascii) (s : string) :
  String.prefix ".." (String c s) = false ->
  replace (String c s) ".." "" = String c (replace s ".." "").
Proof.
  intros H. unfold replace. cbn [replace_from]. now rewrite H.
Qed.

Lemma prefix_dots_inv (s : string) :
  String.prefix ".." s = true -> exists s', s = String "." (String "." s').
Proof.
  destruct s as [|c [|d s]]; [discriminate| |].
  - rewrite prefix_cons. cbn. rewrite andb_false_r. discriminate.
  - rewrite !prefix_cons. intros H.
    apply andb_prop in H as [Hc H]. apply andb_prop in H as [Hd _].
    apply Ascii.eqb_eq in Hc, Hd. subst. now exists s.
Qed.

(** The scan leaves a leading dot only where the input had one. *)
Lemma replace_dots_head (s r : string) :
  replace s ".." "" = String "." r -> exists s', s = String "." s'.
Proof.
  destruct s as [|c s]; [discriminate|].
  destruct (String.prefix ".." (String c s)) eqn:E.
  - apply prefix_dots_inv in E as [s' E]. rewrite E. eauto.
  - rewrite replace_dots_other by exact E. intros [= -> _]. eauto.
Qed.

Lemma replace_dots_clean_bounded (n : nat) :
  forall s, (String.length s <= n)%nat -> contains ".." (replace s ".." "") = false.
Proof.
  induction n as [|n IH]; intros s Hlen.
  - destruct s; [reflexivity | cbn in Hlen; lia].
  - destruct s as [|c s]; [reflexivity|].
    destruct (String.prefix ".." (String c s)) eqn:E.
    + apply prefix_dots_inv in E as [s' E]. rewrite E in *.
      rewrite replace_dots_pair. apply IH. cbn in Hlen. lia.
    + rewrite replace_dots_other by exact E.
      cbn [contains]. rewrite IH by (cbn in Hlen; lia). rewrite orb_false_r.
      destruct (replace s ".." "") as [|d r] eqn:Er.
      * rewrite prefix_cons. cbn. apply andb_false_r.
      * rewrite !prefix_cons.
        destruct (Ascii.eqb "." c) eqn:Ec; [|reflexivity].
        destruct (Ascii.eqb "." d) eqn:Ed; [|reflexivity].
        apply Ascii.eqb_eq in Ec, Ed. subst c d.
        apply replace_dots_head in Er as [s' ->].
        rewrite !prefix_cons, prefix_empty in E. discriminate E.
Qed.

Lemma replace_dots_clean (s : string) : contains ".." (replace s ".." "") = false.
Proof. apply (replace_dots_clean_bounded (String.length s)). lia. Qed.

Lemma prefix_dot_replace_slash (s : string) :
  String.prefix "." (replace s "/" "_") = String.prefix "." s.
Proof.
  destruct s as [|c s]; [reflexivity|].
  rewrite replace_slash_cons, !prefix_cons, !prefix_empty.
  destruct (Ascii.eqb c "/") eqn:E; [|reflexivity].
  apply Ascii.eqb_eq in E. now subst c.
Qed.

(** Turning slashes into underscores neither creates nor removes dots. *)
Lemma contains_dots_replace_slash (s : string) :
  contains ".." (replace s "/" "_") = contains ".." s.
Proof.
  induction s as [|c s IH]; [reflexivity|].
  rewrite replace_slash_cons. cbn [contains]. rewrite IH. f_equal.
  rewrite !prefix_cons, prefix_dot_replace_slash.
  destruct (Ascii.eqb c "/") eqn:E; [|reflexivity].
  apply Ascii.eqb_eq in E. now subst c.
Qed.

Lemma replace_slash_clean (s : string) : contains "/" (replace s "/" "_") = false.
Proof.
  induction s as [|c s IH]; [reflexivity|].
  rewrite replace_slash_cons. cbn [contains]. rewrite IH, orb_false_r.
  rewrite prefix_cons, prefix_empty, andb_true_r.
  destruct (Ascii.eqb c "/") eqn:E; [reflexivity|].
  now rewrite Ascii.eqb_sym.
Qed.

(** *** [split('/')], ['/'.join] and [os.path.join] *)

Lemma split_sep_nonempty (s : string) : posixpath.split_sep s <> [].
Proof.
  destruct s as [|c s]; cbn; [discriminate|].
  destruct (Ascii.eqb c "/"); [discriminate|].
  destruct (posixpath.split_sep s); discriminate.
Qed.

Lemma split_sep_plain (s : string) :
  contains "/" s = false -> posixpath.split_sep s = [s].
Proof.
  induction s as [|c s IH]; [reflexivity|].
  cbn [contains]. rewrite prefix_cons, prefix_empty, andb_true_r.
  intros H. apply orb_false_elim in H as [Hc Hs].
  cbn [posixpath.split_sep]. rewrite Ascii.eqb_sym, Hc, (IH Hs). reflexivity.
Qed.

Lemma split_sep_app (a b : string) :
  posixpath.split_sep (a ++ String "/" b)%string
  = posixpath.split_sep a ++ posixpath.split_sep b.
Proof.
  induction a as [|c a IH]; [reflexivity|].
  cbn [String.append posixpath.split_sep]. rewrite IH.
  destruct (Ascii.eqb c "/"); [reflexivity|].
  destruct (posixpath.split_sep a) eqn:E; [|reflexivity].
  now apply split_sep_nonempty in E.
Qed.

Lemma join_sep_snoc (comps : list string) (c : string) :
  comps <> [] ->
  posixpath.join_sep (comps ++ [c]) = (posixpath.join_sep comps ++ "/" ++ c)%string.
Proof.
  induction comps as [|x comps IH]; [congruence|]. intros _.
  destruct comps as [|y comps]; [reflexivity|].
  change (posixpath.join_sep ((x :: y :: comps) ++ [c]))
    with (x ++ "/" ++ posixpath.join_sep ((y :: comps) ++ [c]))%string.
  rewrite IH by discriminate.
  change (posixpath.join_sep (x :: y :: comps))
    with (x ++ "/" ++ posixpath.join_sep (y :: comps))%string.
  now rewrite !append_assoc.
Qed.

Lemma endswith_slash_inv (s : string) :
  endswith s "/" = true -> exists a, s = (a ++ "/")%string.
Proof.
  unfold endswith. induction s as [|c s IH]; [discriminate|].
  destruct s as [|d s].
  - cbn. destruct (Ascii.eqb c "/") eqn:E; [|discriminate].
    apply Ascii.eqb_eq in E. subst c. now exists ""%string.
  - intros H.
    assert (Hs : ((String.length "/" <=? String.length (String d s))%nat
                  && String.eqb
                       (String.substring (String.length (String d s) - String.length "/")
                          (String.length "/") (String d s)) "/") = true).
    { apply andb_prop in H as [_ H]. cbn in H |- *. rewrite Nat.sub_0_r in *. exact H. }
    destruct (IH Hs) as [a Ha]. exists (String c a). cbn. now rewrite <- Ha.
Qed.

Lemma join_relative (a b : string) :
  startswith b "/" = false -> posixpath.join a b = (join_prefix a ++ b)%string.
Proof.
  intros H. unfold posixpath.join, join_prefix. rewrite H.
  destruct (String.eqb a "" || endswith a "/"); [reflexivity|].
  now rewrite append_assoc.
Qed.

Lemma join_prefix_cases (a : string) :
  join_prefix a = ""%string \/ exists a', join_prefix a = (a' ++ "/")%string.
Proof.
  unfold join_prefix. destruct (String.eqb a "") eqn:E.
  - apply String.eqb_eq in E. subst a. now left.
  - cbn [orb]. destruct (endswith a "/") eqn:E'.
    + right. now apply endswith_slash_inv.
    + right. now exists a.
Qed.

Lemma last_component_prepend (w path c : string) :
  w = ""%string \/ (exists a, w = (a ++ "/")%string) ->
  last_component path c -> last_component (w ++ path)%string c.
Proof.
  intros [->|[a ->]] [->|[b ->]].
  - now left.
  - right. now exists b.
  - right. exists a. now rewrite append_assoc.
  - right. exists (a ++ String "/" b)%string. now rewrite !append_assoc.
Qed.

Lemma last_component_split (path c : string) :
  contains "/" c = false -> last_component path c ->
  exists init, posixpath.split_sep path = init ++ [c].
Proof.
  intros Hc [->|[a ->]].
  - exists []. now apply split_sep_plain.
  - exists (posixpath.split_sep a). rewrite split_sep_app. f_equal.
    now apply split_sep_plain.
Qed.

Lemma last_component_length (path c : string) :
  last_component path c -> (String.length c <= String.length path)%nat.
Proof.
  intros [->|[a ->]]; [lia|]. rewrite length_append. cbn. lia.
Qed.

Lemma last_component_no_trailing_slash (path c : string) :
  contains "/" c = false -> c <> ""%string -> last_component path c ->
  endswith path "/" = false.
Proof.
  intros Hc Hne Hlast. destruct (endswith path "/") eqn:E; [|reflexivity].
  apply endswith_slash_inv in E as [a Ha].
  destruct (last_component_split path c Hc Hlast) as [init Hsplit].
  rewrite Ha in Hsplit. change (a ++ "/")%string with (a ++ String "/" "")%string in Hsplit.
  rewrite split_sep_app in Hsplit. cbn in Hsplit.
  apply app_inj_tail in Hsplit as [_ Heq]. congruence.
Qed.

(** *** [normpath] below a directory *)

Lemma initial_slashes_app (path t : string) :
  (3 <= String.length path)%nat ->
  posixpath.initial_slashes (path ++ t)%string = posixpath.initial_slashes path.
Proof.
  intros Hlen. unfold posixpath.initial_slashes, startswith.
  rewrite !prefix_app_long by (cbn; lia). reflexivity.
Qed.

Lemma norm_step_plain (n : nat) (comps : list string) (c : string) :
  c <> ""%string -> c <> "."%string -> c <> ".."%string ->
  posixpath.norm_step n comps c = comps ++ [c].
Proof.
  intros H0 H1 H2. unfold posixpath.norm_step.
  apply String.eqb_neq in H0, H1, H2. now rewrite H0, H1, H2.
Qed.

Lemma contains_prefix_false (p s : string) :
  contains p s = false -> String.prefix p s = false.
Proof.
  destruct s; cbn [contains]; intros H; now apply orb_false_elim in H as [H _].
Qed.

Lemma upload_dir_last_component (os : main.OS) :
  last_component (main.upload_dir os) "uploads".
Proof.
  unfold main.upload_dir. rewrite join_relative by reflexivity.
  rewrite <- (append_empty_r "uploads") at 1.
  destruct (join_prefix_cases (posixpath.join (main.here os) "..")) as [->|[a ->]].
  - now left.
  - right. exists a. now rewrite append_assoc.
Qed.

(** Two uploads on a concrete file system: for a name made of dots only the
    path is the uploads directory itself; a name that tries to climb out of
    the directory is flattened into one component. *)
Lemma saved_path_of_dots_only :
  main.safe_name_of ".." = ""
  /\ main.saved_path_of Fixtures.os0 ".." = "/srv/oncoscan_webapp/uploads"
  /\ main.saved_path_of Fixtures.os0 "../../etc/passwd"
     = "/srv/oncoscan_webapp/uploads/__etc_passwd".
Proof. repeat split. Qed.

(** ** Binary64 arithmetic: how far rounding can move a result *)

(** *** Powers of two in [Q] *)

Lemma bpow_pos (e : Z) : (0 < bpow e)%Q.
Proof. apply Qpower_0_lt. reflexivity. Qed.

Lemma bpow_add (a b : Z) : (bpow (a + b) == bpow a * bpow b)%Q.
Proof. apply Qpower_plus. discriminate. Qed.

Lemma bpow_le (a b : Z) : a <= b -> (bpow a <= bpow b)%Q.
Proof. intros H. apply Qpower_le_compat_l; [exact H | discriminate]. Qed.

Lemma bpow_lt_inv (a b : Z) : (bpow a < bpow b)%Q -> a < b.
Proof. intros H. apply (Qpower_lt_compat_l_inv (2 # 1)); [exact H | reflexivity]. Qed.

Lemma bpow_Z (k : Z) : 0 <= k -> (bpow k == inject_Z (2 ^ k))%Q.
Proof. intros H. unfold bpow. now rewrite Zpower_Qpower. Qed.

Lemma inject_Z_le (a b : Z) : a <= b -> (inject_Z a <= inject_Z b)%Q.
Proof. intros H. now rewrite <- Zle_Qle. Qed.

(** Dropping [k] low bits of a mantissa never increases the value. *)
Lemma shift_right_le (m e k : Z) :
  0 <= m -> 0 <= k ->
  (inject_Z (m / 2 ^ k) * bpow (e + k) <= inject_Z m * bpow e)%Q.
Proof.
  intros Hm Hk. rewrite Z.add_comm, bpow_add, (bpow_Z k Hk), Qmult_assoc.
  rewrite <- inject_Z_mult. apply Qmult_le_compat_r; [|apply Qlt_le_weak, bpow_pos].
  apply inject_Z_le. rewrite Z.mul_comm. apply Z.mul_div_le.
  apply Z.pow_pos_nonneg; lia.
Qed.

(** Shifting a mantissa left by [k] and lowering the exponent keeps the value. *)
Lemma shift_left_eq (m e k : Z) :
  0 <= k -> (inject_Z (m * 2 ^ k) * bpow (e - k) == inject_Z m * bpow e)%Q.
Proof.
  intros Hk. rewrite inject_Z_mult, <- (bpow_Z k Hk), <- Qmult_assoc, <- bpow_add.
  now replace (k + (e - k)) with e by ring.
Qed.

(** *** Number of binary digits *)

Lemma digits2_pos_bounds (p : positive) :
  2 ^ (Zpos (digits2_pos p) - 1) <= Zpos p < 2 ^ Zpos (digits2_pos p).
Proof.
  induction p as [p IH|p IH|]; cbn [digits2_pos].
  - rewrite !Pos2Z.inj_succ. change (Zpos p~1) with (2 * Zpos p + 1).
    replace (Z.succ (Zpos (digits2_pos p)) - 1) with (Zpos (digits2_pos p)) by lia.
    rewrite Z.pow_succ_r by lia.
    replace (2 ^ Zpos (digits2_pos p)) with (2 * 2 ^ (Zpos (digits2_pos p) - 1)) in *
      by (rewrite <- Z.pow_succ_r by lia; f_equal; lia).
    remember (2 ^ (Zpos (digits2_pos p) - 1)) as X eqn:EX. clear EX. lia.
  - rewrite !Pos2Z.inj_succ. change (Zpos p~0) with (2 * Zpos p).
    replace (Z.succ (Zpos (digits2_pos p)) - 1) with (Zpos (digits2_pos p)) by lia.
    rewrite Z.pow_succ_r by lia.
    replace (2 ^ Zpos (digits2_pos p)) with (2 * 2 ^ (Zpos (digits2_pos p) - 1)) in *
      by (rewrite <- Z.pow_succ_r by lia; f_equal; lia).
    remember (2 ^ (Zpos (digits2_pos p) - 1)) as X eqn:EX. clear EX. lia.
  - cbn. lia.
Qed.

Lemma Zdigits2_nonneg (m : Z) : 0 <= Zdigits2 m.
Proof. destruct m; cbn; lia. Qed.

Lemma Zdigits2_lt_pow (m : Z) : 0 <= m -> m < 2 ^ Zdigits2 m.
Proof.
  destruct m as [|p|p]; intros H; [cbn; lia | apply digits2_pos_bounds | lia].
Qed.

(** A non-negative integer below [2 ^ k] has at most [k] digits. *)
Lemma Zdigits2_le (m k : Z) : 0 <= m < 2 ^ k -> 0 <= k -> Zdigits2 m <= k.
Proof.
  intros [H0 Hlt] Hk. destruct m as [|p|p]; [exact Hk | | lia].
  cbn. pose proof (digits2_pos_bounds p) as [Hlo _].
  assert (2 ^ (Zpos (digits2_pos p) - 1) < 2 ^ k) by lia.
  apply Z.pow_lt_mono_r_iff in H; lia.
Qed.

(** *** Right shifts *)

Lemma shr_1_m (mrs : shr_record) :
  0 <= shr_m mrs -> shr_m (shr_1 mrs) = shr_m mrs / 2.
Proof.
  destruct mrs as [m r s]. cbn [shr_m]. intros Hm.
  destruct m as [|q|q]; [reflexivity| |lia].
  destruct q as [q|q|]; cbn [shr_1 shr_m].
  - change (Zpos q~1) with (2 * Zpos q + 1).
    apply Z.div_unique with (r := 1); lia.
  - change (Zpos q~0) with (2 * Zpos q).
    apply Z.div_unique with (r := 0); lia.
  - reflexivity.
Qed.

Lemma iter_shr_1_m (p : positive) :
  forall mrs, 0 <= shr_m mrs ->
  shr_m (iter_pos shr_1 p mrs) = shr_m mrs / 2 ^ Zpos p.
Proof.
  induction p as [p IH|p IH|]; intros mrs Hm; cbn [iter_pos].
  - assert (H1 : 0 <= shr_m (shr_1 mrs)).
    { rewrite shr_1_m by exact Hm. apply Z.div_pos; lia. }
    assert (H2 : 0 <= shr_m (iter_pos shr_1 p (shr_1 mrs))).
    { rewrite IH by exact H1. apply Z.div_pos; [lia|]. apply Z.pow_pos_nonneg; lia. }
    rewrite IH, IH, shr_1_m by assumption.
    rewrite !Z.div_div by (try lia; apply Z.pow_pos_nonneg; lia).
    f_equal. change (Zpos p~1) with (2 * Zpos p + 1).
    replace (2 * Zpos p + 1) with (1 + Zpos p + Zpos p) by ring.
    rewrite !Z.pow_add_r by lia. ring.
  - assert (H1 : 0 <= shr_m (iter_pos shr_1 p mrs)).
    { rewrite IH by exact Hm. apply Z.div_pos; [lia|]. apply Z.pow_pos_nonneg; lia. }
    rewrite IH, IH by assumption.
    rewrite !Z.div_div by (try lia; apply Z.pow_pos_nonneg; lia).
    f_equal. change (Zpos p~0) with (2 * Zpos p).
    replace (2 * Zpos p) with (Zpos p + Zpos p) by ring.
    rewrite !Z.pow_add_r by lia. ring.
  - rewrite shr_1_m by exact Hm. reflexivity.
Qed.

Lemma shr_record_of_loc_m (m : Z) (l : location) : shr_m (shr_record_of_loc m l) = m.
Proof. destruct l as [|[| |]]; reflexivity. Qed.

(** [shr_fexp] moves the exponent up to the one the format assigns to the
    magnitude, and divides the mantissa accordingly. *)
Lemma shr_fexp_spec (m e : Z) (l : location) :
  0 <= m ->
  let e' := Z.max e (fexp B.prec B.emax (Zdigits2 m + e)) in
  snd (shr_fexp B.prec B.emax m e l) = e'
  /\ shr_m (fst (shr_fexp B.prec B.emax m e l)) = m / 2 ^ (e' - e).
Proof.
  intros Hm e'. unfold shr_fexp, shr. subst e'.
  destruct (fexp B.prec B.emax (Zdigits2 m + e) - e) as [|p|p] eqn:E; cbn [fst snd].
  - rewrite shr_record_of_loc_m.
    replace (Z.max e (fexp B.prec B.emax (Zdigits2 m + e)) - e) with 0 by lia.
    split; [lia|]. now rewrite Z.pow_0_r, Z.div_1_r.
  - rewrite iter_shr_1_m by (now rewrite shr_record_of_loc_m).
    rewrite shr_record_of_loc_m.
    replace (Z.max e (fexp B.prec B.emax (Zdigits2 m + e)) - e) with (Zpos p) by lia.
    split; [lia | reflexivity].
  - rewrite shr_record_of_loc_m.
    replace (Z.max e (fexp B.prec B.emax (Zdigits2 m + e)) - e) with 0 by lia.
    split; [lia|]. now rewrite Z.pow_0_r, Z.div_1_r.
Qed.

Lemma round_nearest_even_bounds (m : Z) (l : location) :
  m <= round_nearest_even m l <= m + 1.
Proof.
  destruct l as [|[| |]]; cbn; try lia. destruct (Z.even m); lia.
Qed.

(** *** The rounding step shared by all operations *)

Lemma finite_below_weaken (E E' : Z) (x : B.float) :
  E <= E' -> finite_below E x -> finite_below E' x.
Proof.
  intros HE [->|(m & e & -> & He)]; [now left|].
  right. exists m, e. split; [reflexivity | lia].
Qed.

Lemma finite_below_nonneg (E : Z) (x : B.float) :
  finite_below E x -> (0 <= B.to_Q x)%Q.
Proof.
  intros [->|(m & e & -> & _)]; cbn [B.to_Q]; [apply Qle_refl|].
  rewrite Qmult_1_l. apply Qmult_le_0_compat.
  - now apply (inject_Z_le 0).
  - apply Qlt_le_weak, bpow_pos.
Qed.

Lemma to_Q_finite (m : positive) (e : Z) :
  (B.to_Q (S754_finite false m e) == inject_Z (Zpos m) * bpow e)%Q.
Proof. cbn [B.to_Q]. unfold bpow. ring. Qed.

(** Rounding [mx * 2^ex] (with any location of the discarded part) yields a
    non-negative finite double that exceeds [mx * 2^ex] by at most one unit
    of the exponent [T] the format assigns to that magnitude. *)
Lemma binary_round_aux_upper (mx ex : Z) (lx : location) (T : Z) :
  0 <= mx ->
  Z.max ex (fexp B.prec B.emax (Zdigits2 mx + ex)) <= T ->
  T + 1 <= B.emax - B.prec ->
  finite_below (T + 1) (binary_round_aux B.prec B.emax false mx ex lx)
  /\ (B.to_Q (binary_round_aux B.prec B.emax false mx ex lx)
      <= inject_Z mx * bpow ex + bpow T)%Q.
Proof.
  intros Hmx HT Hover. unfold binary_round_aux.
  pose proof (shr_fexp_spec mx ex lx Hmx) as [He1 Hm1].
  destruct (shr_fexp B.prec B.emax mx ex lx) as [mrs1 e1]. cbn [fst snd] in He1, Hm1.
  rewrite <- He1 in Hm1.
  set (m1 := shr_m mrs1) in *.
  set (m2 := round_nearest_even m1 (loc_of_shr_record mrs1)).
  pose proof (round_nearest_even_bounds m1 (loc_of_shr_record mrs1)) as Hm2. fold m2 in Hm2.
  pose proof (Zdigits2_lt_pow mx Hmx) as Hdig.
  pose proof (Zdigits2_nonneg mx) as Hdig0.
  set (d := Zdigits2 mx) in *.
  assert (Hk : 0 <= e1 - ex /\ d - 53 <= e1 - ex).
  { unfold fexp, emin, B.prec, B.emax in He1. lia. }
  assert (Hpow : 0 < 2 ^ (e1 - ex)) by (apply Z.pow_pos_nonneg; lia).
  assert (Hm1pos : 0 <= m1) by (rewrite Hm1; apply Z.div_pos; lia).
  assert (Hm1lt : m1 < 2 ^ 53).
  { rewrite Hm1. apply Z.div_lt_upper_bound; [exact Hpow|].
    rewrite <- Z.pow_add_r by lia.
    apply Z.lt_le_trans with (1 := Hdig). apply Z.pow_le_mono_r; lia. }
  assert (Hm2pos : 0 <= m2) by lia.
  pose proof (shr_fexp_spec m2 e1 loc_Exact Hm2pos) as [He2 Hm3].
  destruct (shr_fexp B.prec B.emax m2 e1 loc_Exact) as [mrs2 e2]. cbn [fst snd] in He2, Hm3.
  rewrite <- He2 in Hm3.
  assert (Hd2 : Zdigits2 m2 <= 54).
  { apply Zdigits2_le; [|lia]. split; [lia|].
    change (2 ^ 54) with (2 * 2 ^ 53). lia. }
  pose proof (Zdigits2_nonneg m2) as Hd2'.
  assert (He2' : e1 <= e2 <= T + 1).
  { unfold fexp, emin, B.prec, B.emax in He2, HT, He1. fold d in HT. lia. }
  assert (Hval : (inject_Z (shr_m mrs2) * bpow e2 <= inject_Z mx * bpow ex + bpow T)%Q).
  { rewrite Hm3. replace e2 with (e1 + (e2 - e1)) at 2 by ring.
    eapply Qle_trans; [apply shift_right_le; lia|].
    apply Qle_trans with (inject_Z (m1 + 1) * bpow e1)%Q.
    - apply Qmult_le_compat_r; [apply inject_Z_le; lia | apply Qlt_le_weak, bpow_pos].
    - rewrite inject_Z_plus, Qmult_plus_distr_l, Qmult_1_l.
      apply Qplus_le_compat.
      + rewrite Hm1. replace e1 with (ex + (e1 - ex)) at 2 by ring.
        apply shift_right_le; lia.
      + apply bpow_le. unfold fexp, emin, B.prec, B.emax in He1, HT. fold d in HT. lia. }
  assert (Hm3pos : 0 <= shr_m mrs2).
  { rewrite Hm3. apply Z.div_pos; [lia|]. apply Z.pow_pos_nonneg; lia. }
  destruct (shr_m mrs2) as [|m|m] eqn:Em3.
  - split; [now left|]. cbn [B.to_Q].
    apply Qle_trans with (inject_Z 0 * bpow e2)%Q; [|exact Hval].
    rewrite Qmult_0_l. apply Qle_refl.
  - assert (Hle : (e2 <=? B.emax - B.prec) = true) by (apply Z.leb_le; lia).
    rewrite Hle. split.
    + right. exists m, e2. split; [reflexivity | lia].
    + rewrite to_Q_finite. exact Hval.
  - lia.
Qed.

(** A positive mantissa whose value is below [2^t] has its digits below [t]. *)
Lemma magnitude_digits (m : positive) (e t : Z) :
  (inject_Z (Zpos m) * bpow e < bpow t)%Q -> Zpos (digits2_pos m) + e <= t.
Proof.
  intros Hlt. pose proof (digits2_pos_bounds m) as [Hlo _].
  assert (H : (bpow (Zpos (digits2_pos m) - 1 + e) < bpow t)%Q).
  { eapply Qle_lt_trans; [|exact Hlt].
    rewrite bpow_add. apply Qmult_le_compat_r; [|apply Qlt_le_weak, bpow_pos].
    rewrite bpow_Z by lia. now apply inject_Z_le. }
  apply bpow_lt_inv in H. lia.
Qed.

(** The exponent the format assigns to a magnitude below [2^t]. *)
Lemma fexp_le (x t T : Z) :
  x <= t -> Z.max (t - 53) (-1074) <= T -> fexp B.prec B.emax x <= T.
Proof. unfold fexp, emin, B.prec, B.emax. lia. Qed.

Lemma round_upper (m : positive) (e t T : Z) (l : location) :
  (inject_Z (Zpos m) * bpow e < bpow t)%Q ->
  e <= T -> Z.max (t - 53) (-1074) <= T -> T + 1 <= 971 ->
  finite_below (T + 1) (binary_round_aux B.prec B.emax false (Zpos m) e l)
  /\ (B.to_Q (binary_round_aux B.prec B.emax false (Zpos m) e l)
      <= inject_Z (Zpos m) * bpow e + bpow T)%Q.
Proof.
  intros Hlt He HT Hover. apply binary_round_aux_upper; [lia| |exact Hover].
  apply Z.max_lub; [exact He|].
  apply fexp_le with t; [|exact HT]. now apply magnitude_digits.
Qed.

(** *** Multiplication *)

Lemma mul_upper (x y : B.float) (Ex Ey t T : Z) :
  finite_below Ex x -> finite_below Ey y ->
  (B.to_Q x * B.to_Q y < bpow t)%Q ->
  Ex + Ey <= T -> Z.max (t - 53) (-1074) <= T -> T + 1 <= 971 ->
  finite_below (T + 1) (B.mul x y)
  /\ (B.to_Q (B.mul x y) <= B.to_Q x * B.to_Q y + bpow T)%Q.
Proof.
  intros Hx Hy Hlt HE HT Hover.
  assert (Hzero : finite_below (T + 1) (S754_zero false)
                  /\ (B.to_Q (S754_zero false) <= B.to_Q x * B.to_Q y + bpow T)%Q).
  { split; [now left|]. cbn [B.to_Q].
    pose proof (finite_below_nonneg _ _ Hx). pose proof (finite_below_nonneg _ _ Hy).
    pose proof (bpow_pos T). pose proof (Qmult_le_0_compat _ _ H H0). lra. }
  destruct Hx as [->|(mx & ex & -> & Hex)], Hy as [->|(my & ey & -> & Hey)];
    try exact Hzero.
  unfold B.mul, SFmul. cbn [xorb].
  assert (Hval : (inject_Z (Zpos (mx * my)) * bpow (ex + ey)
                  == B.to_Q (S754_finite false mx ex) * B.to_Q (S754_finite false my ey))%Q).
  { rewrite !to_Q_finite, bpow_add, Pos2Z.inj_mul, inject_Z_mult. ring. }
  rewrite <- Hval in *. apply round_upper with t; auto. lia.
Qed.

(** *** Alignment and [binary_round] *)

Lemma iter_xO (p : positive) (k : positive) :
  Zpos (Pos.iter xO p k) = Zpos p * 2 ^ Zpos k.
Proof.
  induction k as [|k IH] using Pos.peano_ind.
  - cbn. lia.
  - rewrite Pos.iter_succ. change (Zpos (Pos.iter xO p k)~0) with (2 * Zpos (Pos.iter xO p k)).
    rewrite IH, Pos2Z.inj_succ, Z.pow_succ_r by lia. ring.
Qed.

Lemma shl_align_spec (m : positive) (e e' : Z) :
  snd (shl_align m e e') = Z.min e e'
  /\ Zpos (fst (shl_align m e e')) = Zpos m * 2 ^ (e - Z.min e e').
Proof.
  unfold shl_align. destruct (e' - e) as [|d|d] eqn:E; cbn [fst snd].
  - replace (Z.min e e') with e by lia. rewrite Z.sub_diag. split; lia.
  - replace (Z.min e e') with e by lia. rewrite Z.sub_diag. split; lia.
  - replace (Z.min e e') with e' by lia. rewrite iter_xO.
    replace (e - e') with (Zpos d) by lia. split; lia.
Qed.

Lemma shl_align_value (m : positive) (e e' : Z) :
  (inject_Z (Zpos (fst (shl_align m e e'))) * bpow (snd (shl_align m e e'))
   == inject_Z (Zpos m) * bpow e)%Q.
Proof.
  destruct (shl_align_spec m e e') as [-> ->].
  replace (Z.min e e') with (e - (e - Z.min e e')) at 2 by ring.
  apply shift_left_eq. lia.
Qed.

Lemma binary_round_upper (m : positive) (e t T : Z) :
  (inject_Z (Zpos m) * bpow e < bpow t)%Q ->
  Z.max (t - 53) (-1074) <= T -> T + 1 <= 971 ->
  finite_below (T + 1) (binary_round B.prec B.emax false m e)
  /\ (B.to_Q (binary_round B.prec B.emax false m e) <= inject_Z (Zpos m) * bpow e + bpow T)%Q.
Proof.
  intros Hlt HT Hover. unfold binary_round.
  pose proof (shl_align_value m e (fexp B.prec B.emax (Zpos (digits2_pos m) + e))) as Hval.
  pose proof (shl_align_spec m e (fexp B.prec B.emax (Zpos (digits2_pos m) + e))) as [He _].
  destruct (shl_align m e (fexp B.prec B.emax (Zpos (digits2_pos m) + e))) as [mz ez].
  cbn [fst snd] in *. rewrite <- Hval in *.
  apply round_upper with t; auto.
  pose proof (magnitude_digits m e t).
  assert (fexp B.prec B.emax (Zpos (digits2_pos m) + e) <= T).
  { apply fexp_le with t; auto. apply H. now rewrite <- Hval. }
  lia.
Qed.

(** *** Addition of non-negative doubles *)

Lemma add_upper (x y : B.float) (Ex Ey t T : Z) :
  finite_below Ex x -> finite_below Ey y ->
  (B.to_Q x + B.to_Q y < bpow t)%Q ->
  Z.max (t - 53) (-1074) <= T -> T + 1 <= 971 ->
  B.nonneg_finite (B.add x y)
  /\ (B.to_Q (B.add x y) <= B.to_Q x + B.to_Q y + bpow T)%Q.
Proof.
  intros Hx Hy Hlt HT Hover. pose proof (bpow_pos T) as HposT.
  destruct Hx as [->|(mx & ex & -> & Hex)], Hy as [->|(my & ey & -> & Hey)].
  - split; [now left|]. cbn. lra.
  - split; [right; now exists my, ey|]. unfold B.add. cbn [SFadd].
    change (B.to_Q (S754_zero false)) with 0%Q. lra.
  - split; [right; now exists mx, ex|]. unfold B.add. cbn [SFadd].
    change (B.to_Q (S754_zero false)) with 0%Q. lra.
  - unfold B.add, SFadd. cbn [cond_Zopp].
    pose proof (shl_align_value mx ex (Z.min ex ey)) as Vx.
    pose proof (shl_align_value my ey (Z.min ex ey)) as Vy.
    destruct (shl_align_spec mx ex (Z.min ex ey)) as [Sx _].
    destruct (shl_align_spec my ey (Z.min ex ey)) as [Sy _].
    rewrite Sx in Vx. rewrite Sy in Vy.
    replace (Z.min ex (Z.min ex ey)) with (Z.min ex ey) in Vx by lia.
    replace (Z.min ey (Z.min ex ey)) with (Z.min ex ey) in Vy by lia.
    set (ax := fst (shl_align mx ex (Z.min ex ey))) in *.
    set (ay := fst (shl_align my ey (Z.min ex ey))) in *.
    change (Zpos ax + Zpos ay) with (Zpos (ax + ay)). cbn [binary_normalize].
    assert (Hval : (inject_Z (Zpos (ax + ay)) * bpow (Z.min ex ey)
                    == B.to_Q (S754_finite false mx ex) + B.to_Q (S754_finite false my ey))%Q).
    { rewrite !to_Q_finite, <- Vx, <- Vy, Pos2Z.inj_add, inject_Z_plus. ring. }
    rewrite <- Hval in *.
    destruct (binary_round_upper (ax + ay) (Z.min ex ey) t T Hlt HT Hover) as [Hfin Hle].
    split; [|exact Hle].
    destruct Hfin as [->|(m & e & -> & _)]; [now left | right; now exists m, e].
Qed.

(** *** Draws from [random.random()] *)

Lemma unit_draw_spec (u : B.float) :
  B.unit_draw u = true -> finite_below 0 u /\ (B.to_Q u < 1)%Q.
Proof.
  unfold B.unit_draw. intros H.
  apply andb_prop in H as [H Hsign]. apply andb_prop in H as [Hvalid Hlt].
  destruct u as [[|]|[|]| |[|] m e]; try discriminate Hsign.
  - split; [now left | reflexivity].
  - unfold B.valid, valid_binary, bounded, canonical_mantissa in Hvalid.
    apply andb_prop in Hvalid as [Hcanon _]. apply Z.eqb_eq in Hcanon.
    assert (Hd : Zpos (digits2_pos m) <= 53).
    { unfold fexp, emin, B.prec, B.emax in Hcanon. lia. }
    pose proof (digits2_pos_bounds m) as [_ Hm].
    assert (Hm53 : Zpos m < 2 ^ 53).
    { eapply Z.lt_le_trans; [exact Hm|]. apply Z.pow_le_mono_r; lia. }
    unfold B.ltb, SFltb, SFcompare, B.one in Hlt.
    change (B.of_Z 1) with (S754_finite false 4503599627370496 (-52)) in Hlt.
    assert (Hcases : e < -52 \/ (e = -52 /\ Zpos m < 2 ^ 52)).
    { cbv beta iota in Hlt. destruct (e ?= -52) eqn:Ec; [|now left|discriminate].
      apply Z.compare_eq_iff in Ec. right. split; [exact Ec|].
      rewrite Pos.compare_cont_spec in Hlt.
      destruct (Pos.compare_spec m 4503599627370496) as [Em|Em|Em]; try discriminate Hlt.
      apply Pos2Z.pos_lt_pos in Em. exact Em. }
    split.
    + right. exists m, e. split; [reflexivity|lia].
    + rewrite to_Q_finite.
      destruct Hcases as [He|[-> Hm52]].
      * apply Qlt_le_trans with (inject_Z (2 ^ 53) * bpow e)%Q.
        -- apply Qmult_lt_compat_r; [apply bpow_pos|]. now rewrite <- Zlt_Qlt.
        -- rewrite <- bpow_Z, <- bpow_add by lia.
           change 1%Q with (bpow 0). apply bpow_le. lia.
      * apply Qlt_le_trans with (inject_Z (2 ^ 52) * bpow (-52))%Q.
        -- apply Qmult_lt_compat_r; [apply bpow_pos|]. now rewrite <- Zlt_Qlt.
        -- vm_compute. discriminate.
Qed.

(** *** [round(x, 4)] of a value in the unit interval *)

Lemma round_half_even_div_bounds (a b : Z) :
  a / b <= B.round_half_even_div a b <= a / b + 1.
Proof.
  unfold B.round_half_even_div. generalize (a / b) as q. intros q.
  destruct (2 * (a mod b) ?= b); [destruct (Z.even q)| |]; lia.
Qed.

Lemma all_upto_spec (P : positive -> bool) (n : positive) :
  all_upto P n = true -> forall k, (k <= n)%positive -> P k = true.
Proof.
  unfold all_upto. induction n as [|n IH] using Pos.peano_ind.
  - rewrite Pos.peano_rect_base. intros H k Hk.
    assert (k = 1%positive) as -> by lia. exact H.
  - rewrite Pos.peano_rect_succ. intros H k Hk.
    apply andb_prop in H as [H1 H2].
    destruct (Pos.eq_dec k (Pos.succ n)) as [->|Hne]; [exact H2|].
    apply IH; [exact H1 | lia].
Qed.

Lemma decimal4_table : all_upto decimal4_ok 10000 = true.
Proof. vm_compute. reflexivity. Qed.

Lemma decimal4_in01 (n : positive) :
  Zpos n <= 10000 ->
  B.in01 (B.div (S754_finite false n 0) (S754_finite false 10000 0)) = true.
Proof.
  intros Hn. apply (all_upto_spec decimal4_ok 10000 decimal4_table n). lia.
Qed.

Lemma py_round4_in01 (x : B.float) (N : Z) :
  B.nonneg_finite x ->
  (B.to_Q x * inject_Z 10000 <= inject_Z N)%Q -> N < 10000 ->
  B.in01 (B.py_round x 4) = true.
Proof.
  intros [->|(m & e & ->)] Hle HN; [reflexivity|].
  rewrite to_Q_finite in Hle. unfold B.py_round.
  destruct (0 <=? e) eqn:Ee.
  - exfalso. apply Z.leb_le in Ee.
    assert (H1 : (1 <= inject_Z (Zpos m) * bpow e)%Q).
    { rewrite bpow_Z, <- inject_Z_mult by exact Ee.
      apply (inject_Z_le 1). pose proof (Z.pow_pos_nonneg 2 e). nia. }
    assert (H2 : (inject_Z N < inject_Z 10000)%Q) by now rewrite <- Zlt_Qlt.
    change (inject_Z 10000) with (10000 # 1)%Q in *. lra.
  - apply Z.leb_gt in Ee.
    pose proof (round_half_even_div_bounds (Zpos m * 10 ^ 4) (2 ^ (- e))) as [_ Hhi].
    assert (Hpow : 0 < 2 ^ (- e)) by (apply Z.pow_pos_nonneg; lia).
    assert (Hq : Zpos m * 10 ^ 4 / 2 ^ (- e) <= N).
    { apply Z.div_le_upper_bound; [exact Hpow|].
      rewrite Zle_Qle, !inject_Z_mult, <- bpow_Z by lia.
      change (inject_Z (10 ^ 4)) with (inject_Z 10000).
      assert (Hinv : (bpow e * bpow (- e) == 1)%Q).
      { rewrite <- bpow_add. now replace (e + - e) with 0 by ring. }
      apply Qle_trans
        with (inject_Z (Zpos m) * bpow e * inject_Z 10000 * bpow (- e))%Q.
      - apply Qle_lteq. right.
        transitivity (inject_Z (Zpos m) * inject_Z 10000 * (bpow e * bpow (- e)))%Q;
          [rewrite Hinv; ring | ring].
      - rewrite (Qmult_comm (bpow (- e))).
        apply Qmult_le_compat_r; [exact Hle | apply Qlt_le_weak, bpow_pos]. }
    destruct (B.round_half_even_div (Zpos m * 10 ^ 4) (2 ^ (- e))) as [|n|n];
      [reflexivity| |reflexivity].
    change (Z.to_pos (10 ^ 4)) with 10000%positive.
    apply decimal4_in01. lia.
Qed.

(** *** The literals of the source *)

Lemma lit_3_10 : B.lit 3 10 = S754_finite false 5404319552844595 (-54).
Proof. vm_compute. reflexivity. Qed.

Lemma lit_4_10 : B.lit 4 10 = S754_finite false 7205759403792794 (-54).
Proof. vm_compute. reflexivity. Qed.

Lemma lit_1_100 : B.lit 1 100 = S754_finite false 5764607523034235 (-59).
Proof. vm_compute. reflexivity. Qed.

Lemma lit_99_minus_1_100 :
  B.sub (B.lit 99 100) (B.lit 1 100) = S754_finite false 8827055269646172 (-53).
Proof. vm_compute. reflexivity. Qed.

Ltac qconst := unfold Qeq, Qlt, Qle; vm_compute; first [reflexivity | discriminate].

(** *** The three sources of a probability *)

(** The simulator: [round(0.3 + 0.4 * base, 4)] for a draw [base]. *)
Lemma simulate_prob_in01 (base : B.float) :
  B.unit_draw base = true -> B.in01 (model.simulate_prob base) = true.
Proof.
  intros Hdraw. destruct (unit_draw_spec base Hdraw) as [Hfin Hlt1].
  pose proof (finite_below_nonneg 0 base Hfin) as Hb0.
  unfold model.simulate_prob. rewrite lit_3_10, lit_4_10.
  set (c03 := S754_finite false 5404319552844595 (-54)).
  set (c04 := S754_finite false 7205759403792794 (-54)).
  assert (Hc03 : finite_below (-54) c03) by (right; exists 5404319552844595%positive, (-54); split; [reflexivity|lia]).
  assert (Hc04 : finite_below (-54) c04) by (right; exists 7205759403792794%positive, (-54); split; [reflexivity|lia]).
  assert (Hq03 : (B.to_Q c03 == 5404319552844595 # 18014398509481984)%Q) by qconst.
  assert (Hq04 : (B.to_Q c04 == 7205759403792794 # 18014398509481984)%Q) by qconst.
  assert (Hp1 : (bpow (-1) == 1 # 2)%Q) by qconst.
  assert (Hp0 : (bpow 0 == 1)%Q) by qconst.
  assert (Hp54 : (bpow (-54) == 1 # 18014398509481984)%Q) by qconst.
  assert (Hp53 : (bpow (-53) == 1 # 9007199254740992)%Q) by qconst.
  destruct (mul_upper c04 base (-54) 0 (-1) (-54) Hc04 Hfin) as [Hy Hyle];
    try lia.
  { rewrite Hq04, Hp1. lra. }
  rewrite Hq04, Hp54 in Hyle.
  destruct (add_upper c03 (B.mul c04 base) (-54) (-54 + 1) 0 (-53) Hc03 Hy) as [Hx Hxle];
    try lia.
  { rewrite Hq03, Hp0. lra. }
  rewrite Hq03, Hp53 in Hxle.
  apply (py_round4_in01 _ 7001 Hx); [|lia].
  change (inject_Z 10000) with (10000 # 1)%Q. change (inject_Z 7001) with (7001 # 1)%Q.
  lra.
Qed.

(** The fallback: [round(random.uniform(0.01, 0.99), 4)] for a draw [u]. *)
Lemma fallback_prob_in01 (u : B.float) :
  B.unit_draw u = true -> B.in01 (main.fallback_prob u) = true.
Proof.
  intros Hdraw. destruct (unit_draw_spec u Hdraw) as [Hfin Hlt1].
  pose proof (finite_below_nonneg 0 u Hfin) as Hb0.
  unfold main.fallback_prob, B.uniform. rewrite lit_99_minus_1_100, lit_1_100.
  set (c001 := S754_finite false 5764607523034235 (-59)).
  set (c098 := S754_finite false 8827055269646172 (-53)).
  assert (Hc001 : finite_below (-59) c001) by (right; exists 5764607523034235%positive, (-59); split; [reflexivity|lia]).
  assert (Hc098 : finite_below (-53) c098) by (right; exists 8827055269646172%positive, (-53); split; [reflexivity|lia]).
  assert (Hq001 : (B.to_Q c001 == 5764607523034235 # 576460752303423488)%Q) by qconst.
  assert (Hq098 : (B.to_Q c098 == 8827055269646172 # 9007199254740992)%Q) by qconst.
  assert (Hp0 : (bpow 0 == 1)%Q) by qconst.
  assert (Hp53 : (bpow (-53) == 1 # 9007199254740992)%Q) by qconst.
  destruct (mul_upper c098 u (-53) 0 0 (-53) Hc098 Hfin) as [Hy Hyle]; try lia.
  { rewrite Hq098, Hp0. lra. }
  rewrite Hq098, Hp53 in Hyle.
  destruct (add_upper c001 (B.mul c098 u) (-59) (-53 + 1) 0 (-53) Hc001 Hy) as [Hx Hxle];
    try lia.
  { rewrite Hq001, Hp0. lra. }
  rewrite Hq001, Hp53 in Hxle.
  apply (py_round4_in01 _ 9901 Hx); [|lia].
  change (inject_Z 10000) with (10000 # 1)%Q. change (inject_Z 9901) with (9901 # 1)%Q.
  lra.
Qed.

Lemma ltb_leb (a b : B.float) : B.ltb a b = true -> B.leb a b = true.
Proof.
  unfold B.ltb, B.leb, SFltb, SFleb.
  destruct (SFcompare a b) as [[| |]|]; auto.
Qed.

(** The torch backend: [max(0.0, min(1.0, out))] for any output, NaN and
    the infinities included. *)
Lemma clamp_prob_in01 (out : B.float) : B.in01 (model.clamp_prob out) = true.
Proof.
  unfold model.clamp_prob, B.py_min, B.py_max.
  destruct (B.ltb out B.one) eqn:H1.
  - destruct (B.ltb B.zero out) eqn:H0; [|reflexivity].
    unfold B.in01. now rewrite (ltb_leb _ _ H0), (ltb_leb _ _ H1).
  - reflexivity.
Qed.

(** ** Predictions ([ModelService.predict] and [POST /predict]) *)

Lemma finding_of_threshold (prob : B.float) :
  (model.finding_of prob = "suspicious lesion" <-> B.leb (B.lit 1 2) prob = true)
  /\ (model.finding_of prob = "no acute findings" <-> B.leb (B.lit 1 2) prob = false).
Proof.
  unfold model.finding_of. destruct (B.leb (B.lit 1 2) prob); split; split;
    intros H; try reflexivity; discriminate H.
Qed.

(** C4: on the simulator backend, a loaded service returns the dictionary
    with a probability in [[0, 1]] and the finding "suspicious lesion" exactly
    when the probability is at least 0.5, "no acute findings" otherwise. *)
Theorem simulator_predict_range_and_finding (t : model.Torch)
  (self : model.ModelService) (image : model.Image) (base : B.float) :
  model.backend self <> "torch" ->
  model._loaded self = true ->
  B.unit_draw base = true ->
  exists prob finding,
    model.predict t self image base
    = Ok [("probability", model.PyFloat prob); ("primary_finding", model.PyStr finding)]
    /\ B.in01 prob = true
    /\ (finding = "suspicious lesion" <-> B.leb (B.lit 1 2) prob = true)
    /\ (finding = "no acute findings" <-> B.leb (B.lit 1 2) prob = false).
Proof.
  intros Hsim Hloaded Hdraw.
  exists (model.simulate_prob base), (model.finding_of (model.simulate_prob base)).
  split; [|split; [now apply simulate_prob_in01 | apply finding_of_threshold]].
  unfold model.predict. rewrite Hloaded. apply String.eqb_neq in Hsim.
  rewrite Hsim. reflexivity.
Qed.

Lemma simulator_predict_range_and_finding_witness :
  exists prob finding,
    model.predict Fixtures.no_torch Fixtures.simulator (model.mkImage "RGB" [])
                  Fixtures.half
    = Ok [("probability", model.PyFloat prob); ("primary_finding", model.PyStr finding)]
    /\ B.in01 prob = true
    /\ (finding = "suspicious lesion" <-> B.leb (B.lit 1 2) prob = true)
    /\ (finding = "no acute findings" <-> B.leb (B.lit 1 2) prob = false).
Proof.
  apply (simulator_predict_range_and_finding Fixtures.no_torch Fixtures.simulator
           (model.mkImage "RGB" []) Fixtures.half).
  - discriminate.
  - reflexivity.
  - vm_compute. reflexivity.
Defined.

(** Whatever backend produced it, the dictionary [predict] returns holds a
    probability in [[0, 1]] under the key the route reads. *)
Lemma predict_probability (t : model.Torch) (self : model.ModelService)
  (image : model.Image) (base : B.float) (pred : list (string * model.pyval)) :
  B.unit_draw base = true ->
  model.predict t self image base = Ok pred ->
  exists prob finding,
    pred = [("probability", model.PyFloat prob); ("primary_finding", model.PyStr finding)]
    /\ B.in01 prob = true.
Proof.
  intros Hdraw. unfold model.predict.
  destruct (negb (model._loaded self)); [discriminate|].
  destruct (String.eqb (model.backend self) "torch").
  - destruct (model._model self) as [[|h]|]; try discriminate.
    destruct (model.forward t h image) as [out|]; [|discriminate].
    cbn [bind]. intros [= <-]. eexists _, _. split; [reflexivity|].
    apply clamp_prob_in01.
  - cbn [bind]. intros [= <-]. eexists _, _. split; [reflexivity|].
    now apply simulate_prob_in01.
Qed.

Lemma prob_and_finding_in01 (t : model.Torch) (ms : model.ModelService)
  (img : option model.Image) (dr : main.Draws) (prob : B.float) (primary : string) :
  B.unit_draw (main.rand_predict dr) = true ->
  B.unit_draw (main.rand_fallback dr) = true ->
  main.prob_and_finding t ms img dr = Ok (prob, primary) ->
  B.in01 prob = true.
Proof.
  intros Hp Hf. unfold main.prob_and_finding. destruct img as [image|].
  - destruct (model.predict t ms image (main.rand_predict dr)) as [pred|e] eqn:E;
      [|discriminate].
    destruct (predict_probability t ms image _ pred Hp E) as (p & f & -> & Hin).
    cbn. intros [= <- _]. exact Hin.
  - intros [= <- _]. now apply fallback_prob_in01.
Qed.

(** C3: every successful [POST /predict] response carries a probability in
    [[0, 1]], whichever of the simulator, the torch backend or the
    decode-failure fallback produced it. *)
Theorem predict_scan_probability_in01 (os : main.OS) (d : utils_dicom.Decoders)
  (env : model.Environ) (t : model.Torch) (dr : main.Draws)
  (file_filename : option string) (contents : list Byte.byte)
  (current_user : auth.Identity) (w : main.World) (res : main.DiagnosisResult) :
  B.unit_draw (main.rand_predict dr) = true ->
  B.unit_draw (main.rand_fallback dr) = true ->
  snd (main.predict_scan os d env t dr file_filename contents current_user w) = Ok res ->
  B.in01 (main.probability_malignancy res) = true.
Proof.
  intros Hp Hf. unfold main.predict_scan.
  destruct (negb (main.can_open os _)); [discriminate|].
  cbv zeta.
  destruct (utils_dicom.load_image_from_bytes d contents _) as [[img modality]|e].
  - destruct (model.get_model_service env t _) as [holder [ms|e]]; [|discriminate].
    destruct (main.prob_and_finding t ms (Some img) dr) as [[prob primary]|e] eqn:E;
      [|discriminate].
    destruct (negb (main.can_open os _)); [discriminate|].
    cbn [snd]. intros [= <-]. cbn.
    exact (prob_and_finding_in01 t ms (Some img) dr prob primary Hp Hf E).
  - destruct (model.get_model_service env t _) as [holder [ms|e']]; [|discriminate].
    destruct (main.prob_and_finding t ms None dr) as [[prob primary]|e'] eqn:E;
      [|discriminate].
    destruct (negb (main.can_open os _)); [discriminate|].
    cbn [snd]. intros [= <-]. cbn.
    exact (prob_and_finding_in01 t ms None dr prob primary Hp Hf E).
Qed.

Lemma predict_scan_probability_in01_witness :
  B.in01 (main.probability_malignancy
            (main.mkDiagnosisResult "abcd" "doc_user" "Unknown" "scan.png"
               "no acute findings" (B.lit 1 2) (B.of_Z 1))) = true.
Proof.
  apply (predict_scan_probability_in01 Fixtures.os0 Fixtures.no_decoders
           Fixtures.environ0 Fixtures.no_torch Fixtures.draws0 (Some "scan.png") []
           Fixtures.doc_user_identity Fixtures.world0
           (main.mkDiagnosisResult "abcd" "doc_user" "Unknown" "scan.png"
              "no acute findings" (B.lit 1 2) (B.of_Z 1)));
    vm_compute; reflexivity.
Defined.

(** C2: when decoding the upload raises, and the two files can be opened
    and the model service exists or can be built, the request succeeds with
    the synthetic probability, the finding "no acute findings" and the
    modality "Unknown". *)
Theorem predict_scan_survives_decode_failure (os : main.OS)
  (d : utils_dicom.Decoders) (env : model.Environ) (t : model.Torch)
  (dr : main.Draws) (file_filename : option string) (contents : list Byte.byte)
  (current_user : auth.Identity) (w : main.World) (e : exn)
  (ms : model.ModelService) :
  utils_dicom.load_image_from_bytes d contents
    (str_or file_filename ("upload_" ++ main.uuid_upload dr)) = Raise e ->
  main.can_open os
    (main.saved_path_of os (str_or file_filename ("upload_" ++ main.uuid_upload dr)))
  = true ->
  main.can_open os (main.audit_csv_path os) = true ->
  snd (model.get_model_service env t (main._MODEL_SERVICE w)) = Ok ms ->
  exists res,
    snd (main.predict_scan os d env t dr file_filename contents current_user w) = Ok res
    /\ main.probability_malignancy res = main.fallback_prob (main.rand_fallback dr)
    /\ main.primary_finding res = "no acute findings"
    /\ main.scan_modality res = "Unknown".
Proof.
  intros Hdecode Hsave Haudit Hms. unfold main.predict_scan.
  rewrite Hsave, Hdecode. cbn [negb main._MODEL_SERVICE].
  destruct (model.get_model_service env t (main._MODEL_SERVICE w)) as [holder r].
  cbn [snd] in Hms. subst r. cbn [main.prob_and_finding].
  rewrite Haudit. cbn [negb snd]. eexists. repeat split.
Qed.

Lemma predict_scan_survives_decode_failure_witness :
  exists res,
    snd (main.predict_scan Fixtures.os0 Fixtures.no_decoders Fixtures.environ0
           Fixtures.no_torch Fixtures.draws0 (Some "scan.png") []
           Fixtures.doc_user_identity Fixtures.world0) = Ok res
    /\ main.probability_malignancy res
       = main.fallback_prob (main.rand_fallback Fixtures.draws0)
    /\ main.primary_finding res = "no acute findings"
    /\ main.scan_modality res = "Unknown".
Proof.
  apply (predict_scan_survives_decode_failure Fixtures.os0 Fixtures.no_decoders
           Fixtures.environ0 Fixtures.no_torch Fixtures.draws0 (Some "scan.png") []
           Fixtures.doc_user_identity Fixtures.world0
           (Exception "UnidentifiedImageError") Fixtures.simulator);
    reflexivity.
Defined.

(** *** Exact conversions of integers *)

Lemma Zdigits2_ge (m k : Z) : 2 ^ (k - 1) <= m -> 0 <= m -> k <= Zdigits2 m.
Proof.
  intros Hlo Hm. pose proof (Zdigits2_lt_pow m Hm) as Hhi.
  pose proof (Zdigits2_nonneg m) as Hd.
  destruct (Z.le_gt_cases k (Zdigits2 m)) as [H|H]; [exact H|].
  assert (2 ^ Zdigits2 m <= 2 ^ (k - 1)) by (apply Z.pow_le_mono_r; lia).
  lia.
Qed.

(** A mantissa that already fits the format is returned unchanged. *)
Lemma binary_round_aux_exact (m : positive) (e : Z) :
  fexp B.prec B.emax (Zpos (digits2_pos m) + e) <= e ->
  e <= B.emax - B.prec ->
  binary_round_aux B.prec B.emax false (Zpos m) e loc_Exact = S754_finite false m e.
Proof.
  intros Hfit He.
  assert (Hshr : shr_fexp B.prec B.emax (Zpos m) e loc_Exact
                 = (Build_shr_record (Zpos m) false false, e)).
  { unfold shr_fexp, shr. cbn [Zdigits2 shr_record_of_loc].
    destruct (fexp B.prec B.emax (Zpos (digits2_pos m) + e) - e) eqn:E;
      [reflexivity | lia | reflexivity]. }
  unfold binary_round_aux. rewrite Hshr. cbn [shr_m loc_of_shr_record round_nearest_even].
  rewrite Hshr. cbn [shr_m].
  apply Z.leb_le in He. now rewrite He.
Qed.

Lemma of_Z_exact (a : Z) :
  0 < a < 2 ^ 53 ->
  exists m e, B.of_Z a = S754_finite false m e
              /\ e = Zdigits2 a - 53
              /\ (inject_Z (Zpos m) * bpow e == inject_Z a)%Q.
Proof.
  intros [Hpos Hlt]. destruct a as [|p|p]; try lia.
  unfold B.of_Z. cbn [binary_normalize]. unfold binary_round.
  pose proof (digits2_pos_bounds p) as [Hlo Hhi].
  assert (Hd : 1 <= Zpos (digits2_pos p) <= 53).
  { split; [lia|]. apply (Zdigits2_le (Zpos p) 53); lia. }
  assert (Hf : fexp B.prec B.emax (Zpos (digits2_pos p) + 0) = Zpos (digits2_pos p) - 53).
  { unfold fexp, emin, B.prec, B.emax. lia. }
  rewrite Hf.
  pose proof (shl_align_value p 0 (Zpos (digits2_pos p) - 53)) as Hval.
  destruct (shl_align_spec p 0 (Zpos (digits2_pos p) - 53)) as [He Hm].
  destruct (shl_align p 0 (Zpos (digits2_pos p) - 53)) as [mz ez].
  cbn [fst snd] in *.
  replace (Z.min 0 (Zpos (digits2_pos p) - 53)) with (Zpos (digits2_pos p) - 53) in * by lia.
  subst ez. replace (0 - (Zpos (digits2_pos p) - 53)) with (53 - Zpos (digits2_pos p)) in Hm by ring.
  assert (Hmz : 2 ^ 52 <= Zpos mz < 2 ^ 53).
  { rewrite Hm.
    replace (2 ^ 52) with (2 ^ (Zpos (digits2_pos p) - 1) * 2 ^ (53 - Zpos (digits2_pos p)))
      by (rewrite <- Z.pow_add_r by lia; f_equal; lia).
    replace (2 ^ 53) with (2 ^ Zpos (digits2_pos p) * 2 ^ (53 - Zpos (digits2_pos p)))
      by (rewrite <- Z.pow_add_r by lia; f_equal; lia).
    assert (0 < 2 ^ (53 - Zpos (digits2_pos p))) by (apply Z.pow_pos_nonneg; lia).
    split; [apply Z.mul_le_mono_nonneg_r | apply Z.mul_lt_mono_pos_r]; lia. }
  assert (Hdz : Zpos (digits2_pos mz) = 53).
  { pose proof (Zdigits2_le (Zpos mz) 53). pose proof (Zdigits2_ge (Zpos mz) 53).
    cbn [Zdigits2] in *. change (53 - 1) with 52 in *. lia. }
  exists mz, (Zpos (digits2_pos p) - 53). split; [|split].
  - apply binary_round_aux_exact.
    + rewrite Hdz. unfold fexp, emin, B.prec, B.emax. lia.
    + unfold B.prec, B.emax. lia.
  - reflexivity.
  - rewrite Hval. change (bpow 0) with 1%Q. ring.
Qed.

(** *** Division of positive doubles *)

Lemma inject_Z_pos (p : positive) : (0 < inject_Z (Zpos p))%Q.
Proof. unfold Qlt. cbn. lia. Qed.

Lemma div_upper (x y : B.float) (mx my : positive) (ex ey tx ly T : Z) :
  x = S754_finite false mx ex -> y = S754_finite false my ey ->
  (B.to_Q x < bpow tx)%Q -> (bpow ly <= B.to_Q y)%Q ->
  Z.max (tx - ly - 53) (-1074) <= T -> T + 1 <= 971 ->
  finite_below (T + 1) (B.div x y)
  /\ (B.to_Q (B.div x y) * B.to_Q y <= B.to_Q x + bpow T * B.to_Q y)%Q.
Proof.
  intros -> -> Hx Hy HT Hover. rewrite !to_Q_finite in *.
  unfold B.div, SFdiv, SFdiv_core_binary. cbn [xorb Zdigits2].
  set (d1 := Zpos (digits2_pos mx)). set (d2 := Zpos (digits2_pos my)).
  set (e' := Z.min (fexp B.prec B.emax (d1 + ex - (d2 + ey))) (ex - ey)).
  set (s := ex - ey - e').
  assert (Hs : 0 <= s) by (unfold s, e'; lia).
  set (m' := match s with Z.pos _ => Z.shiftl (Zpos mx) s | 0 => Zpos mx | Z.neg _ => 0 end).
  assert (Hm' : m' = Zpos mx * 2 ^ s).
  { unfold m'. destruct s as [|p|p] eqn:Es.
    - rewrite Z.pow_0_r. ring.
    - apply Z.shiftl_mul_pow2. lia.
    - lia. }
  pose proof (Z_div_mod m' (Zpos my) ltac:(lia)) as Hdm.
  destruct (Z.div_eucl m' (Zpos my)) as [q r]. destruct Hdm as [Hq Hr].
  assert (Hm'pos : 0 < m').
  { rewrite Hm'. apply Z.mul_pos_pos; [lia|]. apply Z.pow_pos_nonneg; lia. }
  assert (Hq0 : 0 <= q) by nia.
  (* the quotient, scaled, is below the exact quotient *)
  assert (Hquot : (inject_Z q * bpow e' * (inject_Z (Zpos my) * bpow ey)
                   <= inject_Z (Zpos mx) * bpow ex)%Q).
  { apply Qle_trans with (inject_Z m' * bpow (e' + ey))%Q.
    - rewrite bpow_add.
      setoid_replace (inject_Z q * bpow e' * (inject_Z (Zpos my) * bpow ey))%Q
        with (inject_Z (q * Zpos my) * (bpow e' * bpow ey))%Q
        by (rewrite inject_Z_mult; ring).
      apply Qmult_le_compat_r.
      + apply inject_Z_le. lia.
      + apply Qlt_le_weak, Qmult_lt_0_compat; apply bpow_pos.
    - rewrite Hm'. replace (e' + ey) with (ex - s) by (unfold s; ring).
      apply Qle_lteq. right. apply shift_left_eq. exact Hs. }
  pose proof (bpow_pos ey) as Hpey. pose proof (bpow_pos e') as Hpe'.
  pose proof (bpow_pos ly) as Hply.
  assert (Hypos : (0 < inject_Z (Zpos my) * bpow ey)%Q).
  { apply Qmult_lt_0_compat; [apply inject_Z_pos | exact Hpey]. }
  (* magnitudes *)
  pose proof (magnitude_digits mx ex tx Hx) as Hd1. fold d1 in Hd1.
  assert (Hd2 : ly < d2 + ey).
  { pose proof (digits2_pos_bounds my) as [_ Hhi]. fold d2 in Hhi.
    apply bpow_lt_inv. eapply Qle_lt_trans; [exact Hy|].
    rewrite bpow_add, (bpow_Z d2) by (unfold d2; lia).
    apply Qmult_lt_compat_r; [exact Hpey|]. now rewrite <- Zlt_Qlt. }
  assert (He'T : e' <= T).
  { unfold e', fexp, emin, B.prec, B.emax. lia. }
  assert (Hmax : Z.max e' (fexp B.prec B.emax (Zdigits2 q + e')) <= T).
  { apply Z.max_lub; [exact He'T|]. destruct q as [|pq|pq]; [| |lia].
    - cbn [Zdigits2]. unfold fexp, emin, B.prec, B.emax. lia.
    - cbn [Zdigits2]. apply fexp_le with (tx - ly); [|lia].
      apply magnitude_digits.
      (* q * 2^e' * 2^ly <= q * 2^e' * y <= x < 2^tx *)
      apply Qmult_lt_r with (bpow ly); [exact Hply|].
      rewrite <- bpow_add. replace (tx - ly + ly) with tx by ring.
      eapply Qle_lt_trans; [|exact Hx].
      eapply Qle_trans; [|exact Hquot].
      apply Qmult_le_l; [|exact Hy].
      apply Qmult_lt_0_compat; [apply inject_Z_pos | exact Hpe']. }
  destruct (binary_round_aux_upper q e' (new_location (Zpos my) r) T Hq0 Hmax)
    as [Hfin Hle]; [unfold B.emax, B.prec; lia|].
  split; [exact Hfin|].
  eapply Qle_trans.
  - apply Qmult_le_compat_r; [exact Hle | apply Qlt_le_weak, Hypos].
  - rewrite Qmult_plus_distr_l. apply Qplus_le_compat; [exact Hquot | apply Qle_refl].
Qed.

(** *** How far rounding can fall below a result *)

(** Dropping [k] low bits of a mantissa loses less than one unit of the new
    exponent. *)
Lemma shift_right_ge (m e k : Z) :
  0 <= m -> 0 <= k ->
  (inject_Z m * bpow e - bpow (e + k) <= inject_Z (m / 2 ^ k) * bpow (e + k))%Q.
Proof.
  intros Hm Hk.
  assert (Hpow : 0 < 2 ^ k) by (apply Z.pow_pos_nonneg; lia).
  assert (Hz : m <= (m / 2 ^ k + 1) * 2 ^ k).
  { pose proof (Z.mul_succ_div_gt m (2 ^ k) Hpow). lia. }
  apply inject_Z_le in Hz. rewrite inject_Z_mult, inject_Z_plus in Hz.
  rewrite (Z.add_comm e k), bpow_add, (bpow_Z k Hk).
  pose proof (bpow_pos e) as Hpe.
  apply Qmult_le_compat_r with (z := bpow e) in Hz; [|now apply Qlt_le_weak].
  change (inject_Z 1) with 1%Q in Hz.
  apply Qle_minus_iff. apply Qle_minus_iff in Hz.
  eapply Qle_trans; [exact Hz|]. apply Qle_lteq. right. ring.
Qed.

Lemma Zdigits2_pow_le (m : Z) : 0 < m -> 2 ^ (Zdigits2 m - 1) <= m.
Proof.
  destruct m as [|p|p]; try lia. intros _. apply digits2_pos_bounds.
Qed.

(** Rounding [mx * 2^ex] yields a double that is less than one unit of the
    exponent [T] below [mx * 2^ex]. *)
Lemma binary_round_aux_lower (mx ex : Z) (lx : location) (T : Z) :
  0 <= mx ->
  Z.max ex (fexp B.prec B.emax (Zdigits2 mx + ex)) <= T ->
  T + 1 <= B.emax - B.prec ->
  (inject_Z mx * bpow ex - bpow T
   <= B.to_Q (binary_round_aux B.prec B.emax false mx ex lx))%Q.
Proof.
  intros Hmx HT Hover. unfold binary_round_aux.
  pose proof (shr_fexp_spec mx ex lx Hmx) as [He1 Hm1].
  destruct (shr_fexp B.prec B.emax mx ex lx) as [mrs1 e1]. cbn [fst snd] in He1, Hm1.
  rewrite <- He1 in Hm1.
  set (m1 := shr_m mrs1) in *.
  set (m2 := round_nearest_even m1 (loc_of_shr_record mrs1)).
  pose proof (round_nearest_even_bounds m1 (loc_of_shr_record mrs1)) as Hm2. fold m2 in Hm2.
  pose proof (Zdigits2_lt_pow mx Hmx) as Hdig.
  pose proof (Zdigits2_nonneg mx) as Hdig0.
  set (d := Zdigits2 mx) in *.
  assert (Hk : 0 <= e1 - ex /\ d - 53 <= e1 - ex /\ -1074 <= e1 /\ e1 <= T).
  { unfold fexp, emin, B.prec, B.emax in He1, HT. lia. }
  assert (Hpow : 0 < 2 ^ (e1 - ex)) by (apply Z.pow_pos_nonneg; lia).
  assert (Hm1pos : 0 <= m1) by (rewrite Hm1; apply Z.div_pos; lia).
  assert (Hm1lt : m1 < 2 ^ 53).
  { rewrite Hm1. apply Z.div_lt_upper_bound; [exact Hpow|].
    rewrite <- Z.pow_add_r by lia.
    apply Z.lt_le_trans with (1 := Hdig). apply Z.pow_le_mono_r; lia. }
  assert (Hm2pos : 0 <= m2) by lia.
  pose proof (shr_fexp_spec m2 e1 loc_Exact Hm2pos) as [He2 Hm3].
  destruct (shr_fexp B.prec B.emax m2 e1 loc_Exact) as [mrs2 e2]. cbn [fst snd] in He2, Hm3.
  rewrite <- He2 in Hm3.
  assert (Hd2 : Zdigits2 m2 <= 54).
  { apply Zdigits2_le; [|lia]. split; [lia|].
    change (2 ^ 54) with (2 * 2 ^ 53). lia. }
  pose proof (Zdigits2_nonneg m2) as Hd2'.
  (* the second shift is exact *)
  assert (Hexact : shr_m mrs2 * 2 ^ (e2 - e1) = m2 /\ 0 <= e2 - e1 /\ e2 <= T + 1).
  { unfold fexp, emin, B.prec, B.emax in He2.
    destruct (Z.eq_dec e2 e1) as [->|Hne].
    - rewrite Hm3, Z.sub_diag, Z.pow_0_r, Z.div_1_r. lia.
    - assert (Hd54 : Zdigits2 m2 = 54) by lia.
      assert (He21 : e2 = e1 + 1) by lia.
      assert (Hm2' : m2 = 2 ^ 53).
      { assert (0 < m2) by (destruct m2; cbn in Hd54; lia).
        pose proof (Zdigits2_pow_le m2 H) as Hlo. rewrite Hd54 in Hlo.
        change (2 ^ (54 - 1)) with (2 ^ 53) in Hlo. lia. }
      rewrite Hm3, He21, Hm2'. replace (e1 + 1 - e1) with 1 by ring.
      split; [reflexivity | lia]. }
  destruct Hexact as (Hexact & Hshift & He2T).
  assert (Hval : (inject_Z mx * bpow ex - bpow T <= inject_Z (shr_m mrs2) * bpow e2)%Q).
  { apply Qle_trans with (inject_Z m2 * bpow e1)%Q.
    - apply Qle_trans with (inject_Z m1 * bpow e1)%Q.
      + pose proof (shift_right_ge mx ex (e1 - ex) Hmx ltac:(lia)) as H.
        replace (ex + (e1 - ex)) with e1 in H by ring. rewrite <- Hm1 in H.
        pose proof (bpow_le e1 T ltac:(lia)). lra.
      + apply Qmult_le_compat_r; [apply inject_Z_le; lia | apply Qlt_le_weak, bpow_pos].
    - pose proof (shift_left_eq (shr_m mrs2) e2 (e2 - e1) Hshift) as H.
      replace (e2 - (e2 - e1)) with e1 in H by ring. rewrite Hexact in H.
      rewrite H. apply Qle_refl. }
  assert (Hm3pos : 0 <= shr_m mrs2).
  { rewrite Hm3. apply Z.div_pos; [lia|]. apply Z.pow_pos_nonneg; lia. }
  destruct (shr_m mrs2) as [|m|m] eqn:Em3.
  - cbn [B.to_Q]. rewrite Qmult_0_l in Hval. exact Hval.
  - assert (Hle : (e2 <=? B.emax - B.prec) = true) by (apply Z.leb_le; lia).
    rewrite Hle, to_Q_finite. exact Hval.
  - lia.
Qed.

Lemma mul_lower (x y : B.float) (Ex Ey t T : Z) :
  finite_below Ex x -> finite_below Ey y ->
  (B.to_Q x * B.to_Q y < bpow t)%Q ->
  Ex + Ey <= T -> Z.max (t - 53) (-1074) <= T -> T + 1 <= 971 ->
  (B.to_Q x * B.to_Q y - bpow T <= B.to_Q (B.mul x y))%Q.
Proof.
  intros Hx Hy Hlt HE HT Hover. pose proof (bpow_pos T) as HposT.
  destruct Hx as [->|(mx & ex & -> & Hex)], Hy as [->|(my & ey & -> & Hey)].
  - cbn. lra.
  - unfold B.mul. cbn [SFmul xorb]. change (B.to_Q (S754_zero false)) with 0%Q. lra.
  - unfold B.mul. cbn [SFmul xorb]. change (B.to_Q (S754_zero false)) with 0%Q. lra.
  - unfold B.mul, SFmul. cbn [xorb].
    assert (Hval : (inject_Z (Zpos (mx * my)) * bpow (ex + ey)
                    == B.to_Q (S754_finite false mx ex) * B.to_Q (S754_finite false my ey))%Q).
    { rewrite !to_Q_finite, bpow_add, Pos2Z.inj_mul, inject_Z_mult. ring. }
    rewrite <- Hval in *. apply binary_round_aux_lower; [lia| |unfold B.emax, B.prec; lia].
    apply Z.max_lub; [lia|].
    apply fexp_le with t; [|exact HT]. now apply magnitude_digits.
Qed.

Lemma div_lower (x y : B.float) (mx my : positive) (ex ey tx ly T : Z) :
  x = S754_finite false mx ex -> y = S754_finite false my ey ->
  (B.to_Q x < bpow tx)%Q -> (bpow ly <= B.to_Q y)%Q ->
  Z.max (tx - ly - 53) (-1074) <= T -> T + 1 <= 971 ->
  (B.to_Q x - (2 # 1) * bpow T * B.to_Q y <= B.to_Q (B.div x y) * B.to_Q y)%Q.
Proof.
  intros -> -> Hx Hy HT Hover. rewrite !to_Q_finite in *.
  unfold B.div, SFdiv, SFdiv_core_binary. cbn [xorb Zdigits2].
  set (d1 := Zpos (digits2_pos mx)). set (d2 := Zpos (digits2_pos my)).
  set (e' := Z.min (fexp B.prec B.emax (d1 + ex - (d2 + ey))) (ex - ey)).
  set (s := ex - ey - e').
  assert (Hs : 0 <= s) by (unfold s, e'; lia).
  set (m' := match s with Z.pos _ => Z.shiftl (Zpos mx) s | 0 => Zpos mx | Z.neg _ => 0 end).
  assert (Hm' : m' = Zpos mx * 2 ^ s).
  { unfold m'. destruct s as [|p|p] eqn:Es.
    - rewrite Z.pow_0_r. ring.
    - apply Z.shiftl_mul_pow2. lia.
    - lia. }
  pose proof (Z_div_mod m' (Zpos my) ltac:(lia)) as Hdm.
  destruct (Z.div_eucl m' (Zpos my)) as [q r]. destruct Hdm as [Hq Hr].
  assert (Hm'pos : 0 < m').
  { rewrite Hm'. apply Z.mul_pos_pos; [lia|]. apply Z.pow_pos_nonneg; lia. }
  assert (Hq0 : 0 <= q) by nia.
  pose proof (bpow_pos ey) as Hpey. pose proof (bpow_pos e') as Hpe'.
  pose proof (bpow_pos ly) as Hply.
  assert (Hypos : (0 < inject_Z (Zpos my) * bpow ey)%Q).
  { apply Qmult_lt_0_compat; [apply inject_Z_pos | exact Hpey]. }
  assert (Hscale : (inject_Z m' * bpow (e' + ey) == inject_Z (Zpos mx) * bpow ex)%Q).
  { rewrite Hm'. replace (e' + ey) with (ex - s) by (unfold s; ring).
    apply shift_left_eq. exact Hs. }
  (* the quotient brackets the exact quotient *)
  assert (Hquot : (inject_Z q * bpow e' * (inject_Z (Zpos my) * bpow ey)
                   <= inject_Z (Zpos mx) * bpow ex)%Q).
  { rewrite <- Hscale, bpow_add.
    setoid_replace (inject_Z q * bpow e' * (inject_Z (Zpos my) * bpow ey))%Q
      with (inject_Z (q * Zpos my) * (bpow e' * bpow ey))%Q
      by (rewrite inject_Z_mult; ring).
    apply Qmult_le_compat_r.
    - apply inject_Z_le. lia.
    - apply Qlt_le_weak, Qmult_lt_0_compat; apply bpow_pos. }
  assert (Hquot' : (inject_Z (Zpos mx) * bpow ex
                    <= (inject_Z q + 1) * bpow e' * (inject_Z (Zpos my) * bpow ey))%Q).
  { rewrite <- Hscale, bpow_add.
    setoid_replace ((inject_Z q + 1) * bpow e' * (inject_Z (Zpos my) * bpow ey))%Q
      with (inject_Z ((q + 1) * Zpos my) * (bpow e' * bpow ey))%Q
      by (rewrite inject_Z_mult, inject_Z_plus; ring).
    apply Qmult_le_compat_r.
    - apply inject_Z_le. lia.
    - apply Qlt_le_weak, Qmult_lt_0_compat; apply bpow_pos. }
  pose proof (magnitude_digits mx ex tx Hx) as Hd1. fold d1 in Hd1.
  assert (Hd2 : ly < d2 + ey).
  { pose proof (digits2_pos_bounds my) as [_ Hhi]. fold d2 in Hhi.
    apply bpow_lt_inv. eapply Qle_lt_trans; [exact Hy|].
    rewrite bpow_add, (bpow_Z d2) by (unfold d2; lia).
    apply Qmult_lt_compat_r; [exact Hpey|]. now rewrite <- Zlt_Qlt. }
  assert (He'T : e' <= T).
  { unfold e', fexp, emin, B.prec, B.emax. lia. }
  assert (Hmax : Z.max e' (fexp B.prec B.emax (Zdigits2 q + e')) <= T).
  { apply Z.max_lub; [exact He'T|]. destruct q as [|pq|pq]; [| |lia].
    - cbn [Zdigits2]. unfold fexp, emin, B.prec, B.emax. lia.
    - cbn [Zdigits2]. apply fexp_le with (tx - ly); [|lia].
      apply magnitude_digits.
      apply Qmult_lt_r with (bpow ly); [exact Hply|].
      rewrite <- bpow_add. replace (tx - ly + ly) with tx by ring.
      eapply Qle_lt_trans; [|exact Hx].
      eapply Qle_trans; [|exact Hquot].
      apply Qmult_le_l; [|exact Hy].
      apply Qmult_lt_0_compat; [apply inject_Z_pos | exact Hpe']. }
  pose proof (binary_round_aux_lower q e' (new_location (Zpos my) r) T Hq0 Hmax
                ltac:(unfold B.emax, B.prec; lia)) as Hlow.
  pose proof (bpow_le e' T He'T) as HeT.
  set (S := B.to_Q (binary_round_aux B.prec B.emax false q e' (new_location (Zpos my) r)))
    in *.
  set (Y := (inject_Z (Zpos my) * bpow ey)%Q) in *.
  (* S >= q 2^e' - 2^T and (q 2^e' + 2^e') Y >= x *)
  assert (H1 : ((inject_Z q * bpow e' - bpow T) * Y <= S * Y)%Q)
    by (apply Qmult_le_compat_r; [exact Hlow | now apply Qlt_le_weak]).
  assert (H2 : (bpow e' * Y <= bpow T * Y)%Q)
    by (apply Qmult_le_compat_r; [exact HeT | now apply Qlt_le_weak]).
  assert (H3 : ((inject_Z q + 1) * bpow e' * Y
                == inject_Z q * bpow e' * Y + bpow e' * Y)%Q) by ring.
  assert (H4 : ((inject_Z q * bpow e' - bpow T) * Y
                == inject_Z q * bpow e' * Y - bpow T * Y)%Q) by ring.
  rewrite H3 in Hquot'. rewrite H4 in H1.
  setoid_replace ((2 # 1) * bpow T * Y)%Q with (bpow T * Y + bpow T * Y)%Q by ring.
  lra.
Qed.

(** ** The DICOM path of the image loader *)

Lemma fold_min_le (l : list Z) (x : Z) :
  fold_left Z.min l x <= x /\ forall v, In v l -> fold_left Z.min l x <= v.
Proof.
  revert x. induction l as [|y l IH]; intros x; cbn [fold_left].
  - split; [lia | intros v []].
  - destruct (IH (Z.min x y)) as [H1 H2]. split; [lia|].
    intros v [<-|Hv]; [lia | now apply H2].
Qed.

Lemma fold_max_ge (l : list Z) (x : Z) :
  x <= fold_left Z.max l x /\ forall v, In v l -> v <= fold_left Z.max l x.
Proof.
  revert x. induction l as [|y l IH]; intros x; cbn [fold_left].
  - split; [lia | intros v []].
  - destruct (IH (Z.max x y)) as [H1 H2]. split; [lia|].
    intros v [<-|Hv]; [lia | now apply H2].
Qed.

Lemma arr_min_le (l : list Z) (lo : Z) :
  utils_dicom.arr_min l = Some lo -> forall v, In v l -> lo <= v.
Proof.
  destruct l as [|x l]; [discriminate|]. intros [= <-] v [<-|Hv].
  - apply (proj1 (fold_min_le l x)).
  - now apply (proj2 (fold_min_le l x)).
Qed.

Lemma arr_max_ge (l : list Z) (hi : Z) :
  utils_dicom.arr_max l = Some hi -> forall v, In v l -> v <= hi.
Proof.
  destruct l as [|x l]; [discriminate|]. intros [= <-] v [<-|Hv].
  - apply (proj1 (fold_max_ge l x)).
  - now apply (proj2 (fold_max_ge l x)).
Qed.

Lemma fold_max_bound (l : list Z) (x b : Z) :
  x < b -> (forall v, In v l -> v < b) -> fold_left Z.max l x < b.
Proof.
  revert x. induction l as [|y l IH]; intros x Hx Hl; cbn [fold_left]; [exact Hx|].
  apply IH; [|intros v Hv; apply Hl; now right].
  pose proof (Hl y (or_introl eq_refl)). lia.
Qed.

Lemma arr_max_bound (l : list Z) (hi b : Z) :
  utils_dicom.arr_max l = Some hi -> (forall v, In v l -> v < b) -> hi < b.
Proof.
  destruct l as [|x l]; [discriminate|]. intros [= <-] Hl.
  apply fold_max_bound; [apply Hl; now left | intros v Hv; apply Hl; now right].
Qed.

(** The conversion to [uint8] of a non-negative double below 256. *)
Lemma astype_uint8_spec (E : Z) (x : B.float) :
  finite_below E x -> (B.to_Q x < inject_Z 256)%Q ->
  exists z, utils_dicom.astype_uint8 x = Some z
            /\ 0 <= z <= 255 /\ (inject_Z z <= B.to_Q x)%Q.
Proof.
  intros [->|(m & e & -> & _)] Hlt.
  - exists 0. repeat split; try lia. apply Qle_refl.
  - rewrite to_Q_finite in *. unfold utils_dicom.astype_uint8, B.trunc. cbn [cond_Zopp].
    set (z := if 0 <=? e then Zpos m * 2 ^ e else Zpos m / 2 ^ (- e)).
    assert (Hz : 0 <= z /\ (inject_Z z <= inject_Z (Zpos m) * bpow e)%Q).
    { unfold z. destruct (0 <=? e) eqn:Ee.
      - apply Z.leb_le in Ee. split.
        + apply Z.mul_nonneg_nonneg; [lia|]. apply Z.pow_nonneg. lia.
        + rewrite inject_Z_mult, <- bpow_Z by exact Ee. apply Qle_refl.
      - apply Z.leb_gt in Ee. split.
        + apply Z.div_pos; [lia|]. apply Z.pow_pos_nonneg; lia.
        + pose proof (shift_right_le (Zpos m) e (- e) ltac:(lia) ltac:(lia)) as H.
          replace (e + - e) with 0 in H by ring. change (bpow 0) with 1%Q in H.
          now rewrite Qmult_1_r in H. }
    destruct Hz as [Hz0 Hzle].
    assert (Hz255 : z <= 255).
    { assert (H : (inject_Z z < inject_Z 256)%Q) by (eapply Qle_lt_trans; eassumption).
      rewrite <- Zlt_Qlt in H. lia. }
    exists z. split; [|now repeat split].
    assert (H1 : (0 <=? z) = true) by now apply Z.leb_le.
    assert (H2 : (z <=? 255) = true) by now apply Z.leb_le.
    now rewrite H1, H2.
Qed.

Lemma of_Z_255 : B.of_Z 255 = S754_finite false 8972014882652160 (-45).
Proof. vm_compute. reflexivity. Qed.

(** One rescaled element of an unsigned array of at most 32 bits: the
    product is a non-negative double below 256, at most [2^-12] above the
    exact value of the linear map, and [+0.0] at the minimum. *)
Lemma rescale_spec (bits lo hi v : Z) :
  0 < bits <= 32 -> 0 <= lo -> lo <= v <= hi -> hi < 2 ^ bits -> lo < hi ->
  finite_below (-44) (utils_dicom.rescale false bits lo hi v)
  /\ (B.to_Q (utils_dicom.rescale false bits lo hi v) < inject_Z 256)%Q
  /\ (B.to_Q (utils_dicom.rescale false bits lo hi v)
      <= inject_Z 255 * inject_Z (v - lo) / inject_Z (hi - lo) + (1 # 4096))%Q
  /\ (v = lo -> utils_dicom.rescale false bits lo hi v = S754_zero false).
Proof.
  intros Hbits Hlo Hv Hhi Hlt.
  assert (Hpow : 2 ^ bits <= 2 ^ 32) by (apply Z.pow_le_mono_r; lia).
  unfold utils_dicom.rescale, utils_dicom.wrap.
  rewrite !Z.mod_small by lia.
  set (a := v - lo). set (dd := hi - lo).
  assert (Ha : 0 <= a <= dd) by (unfold a, dd; lia).
  assert (Hdd : 0 < dd < 2 ^ 32) by (unfold dd; lia).
  assert (Hdd53 : 0 < dd < 2 ^ 53).
  { split; [lia|]. apply Z.lt_trans with (2 ^ 32); [lia|]. apply Z.pow_lt_mono_r; lia. }
  destruct (of_Z_exact dd Hdd53) as (md & ed & HD & _ & HDval).
  rewrite of_Z_255, HD.
  set (c255 := S754_finite false 8972014882652160 (-45)).
  set (D := S754_finite false md ed).
  assert (Hq255 : (B.to_Q c255 == inject_Z 255)%Q) by (unfold Qeq; vm_compute; reflexivity).
  assert (HqD : (B.to_Q D == inject_Z dd)%Q) by (unfold D; now rewrite to_Q_finite).
  assert (Hddq : (1 <= inject_Z dd)%Q) by (apply (inject_Z_le 1); lia).
  assert (Hdd32 : (inject_Z dd <= inject_Z (2 ^ 32))%Q) by (apply inject_Z_le; lia).
  assert (Hp8 : (bpow 8 == inject_Z 256)%Q) by (unfold Qeq; vm_compute; reflexivity).
  assert (Hp45 : (bpow (-45) == 1 # 35184372088832)%Q) by (unfold Qeq; vm_compute; reflexivity).
  destruct (div_upper c255 D 8972014882652160 md (-45) ed 8 0 (-45) eq_refl eq_refl)
    as [HS HSle]; try lia.
  { rewrite Hq255, Hp8. now rewrite <- Zlt_Qlt. }
  { rewrite HqD. exact Hddq. }
  set (S := B.div c255 D) in *.
  rewrite Hq255, HqD, Hp45 in HSle.
  pose proof (finite_below_nonneg _ _ HS) as HS0.
  change (inject_Z (2 ^ 32)) with (4294967296 # 1)%Q in Hdd32.
  change (inject_Z 255) with (255 # 1)%Q in *. change (inject_Z 256) with (256 # 1)%Q in *.
  destruct (Z.eq_dec a 0) as [Ha0|Ha0].
  - (* the minimum *)
    rewrite Ha0. change (B.of_Z 0) with (S754_zero false).
    assert (HF : B.mul (S754_zero false) S = S754_zero false).
    { destruct HS as [->|(m & e & -> & _)]; reflexivity. }
    rewrite HF. split; [now left|]. split; [reflexivity|]. split; [|reflexivity].
    cbn [B.to_Q]. change (inject_Z 0) with 0%Q.
    setoid_replace ((255 # 1) * 0 / inject_Z dd)%Q with 0%Q by (unfold Qdiv; ring).
    lra.
  - assert (Ha53 : 0 < a < 2 ^ 53) by lia.
    destruct (of_Z_exact a Ha53) as (ma & ea & HA & Hea & HAval).
    rewrite HA. set (A := S754_finite false ma ea).
    assert (HAfin : finite_below (-21) A).
    { right. exists ma, ea. split; [reflexivity|].
      pose proof (Zdigits2_le a 32). lia. }
    assert (HqA : (B.to_Q A == inject_Z a)%Q) by (unfold A; now rewrite to_Q_finite).
    assert (Haq : (0 <= inject_Z a <= inject_Z dd)%Q)
      by (split; [apply (inject_Z_le 0) | apply inject_Z_le]; lia).
    (* a * S <= dd * S <= 255 + dd * 2^-45 *)
    assert (HaS : (inject_Z a * B.to_Q S <= inject_Z dd * B.to_Q S)%Q)
      by (apply Qmult_le_compat_r; [apply Haq | exact HS0]).
    destruct (mul_upper A S (-21) (-44) 8 (-45) HAfin HS) as [HF HFle]; try lia.
    { rewrite HqA, Hp8. lra. }
    rewrite HqA, Hp45 in HFle.
    split; [exact HF|].
    split; [lra|]. split; [|unfold a in Ha0; lia].
    (* S <= 255 / dd + 2^-45, hence a * S <= 255 * a / dd + a * 2^-45 *)
    set (r := ((255 # 1) / inject_Z dd)%Q).
    assert (Hr : (r * inject_Z dd == 255 # 1)%Q).
    { unfold r. field. intros H0. rewrite H0 in Hddq. lra. }
    assert (HSdiv : (B.to_Q S <= r + (1 # 35184372088832))%Q).
    { apply Qmult_le_r with (inject_Z dd); [lra|].
      rewrite Qmult_plus_distr_l, Hr. lra. }
    assert (HaS' : (B.to_Q S * inject_Z a <= (r + (1 # 35184372088832)) * inject_Z a)%Q)
      by (apply Qmult_le_compat_r; [exact HSdiv | apply Haq]).
    rewrite Qmult_plus_distr_l in HaS'.
    setoid_replace ((255 # 1) * inject_Z a / inject_Z dd)%Q
      with (r * inject_Z a)%Q by (unfold r, Qdiv; ring).
    lra.
Qed.


(** One rescaled element is at most [2^-11] below the exact value of the
    linear map. *)
Lemma rescale_lower (bits lo hi v : Z) :
  0 < bits <= 32 -> 0 <= lo -> lo <= v <= hi -> hi < 2 ^ bits -> lo < hi ->
  (inject_Z 255 * inject_Z (v - lo) / inject_Z (hi - lo) - (1 # 2048)
   <= B.to_Q (utils_dicom.rescale false bits lo hi v))%Q.
Proof.
  intros Hbits Hlo Hv Hhi Hlt.
  assert (Hpow : 2 ^ bits <= 2 ^ 32) by (apply Z.pow_le_mono_r; lia).
  unfold utils_dicom.rescale, utils_dicom.wrap.
  rewrite !Z.mod_small by lia.
  set (a := v - lo). set (dd := hi - lo).
  assert (Ha : 0 <= a <= dd) by (unfold a, dd; lia).
  assert (Hdd : 0 < dd < 2 ^ 32) by (unfold dd; lia).
  assert (Hdd53 : 0 < dd < 2 ^ 53).
  { split; [lia|]. apply Z.lt_trans with (2 ^ 32); [lia|]. apply Z.pow_lt_mono_r; lia. }
  destruct (of_Z_exact dd Hdd53) as (md & ed & HD & _ & HDval).
  rewrite of_Z_255, HD.
  set (c255 := S754_finite false 8972014882652160 (-45)).
  set (D := S754_finite false md ed).
  assert (Hq255 : (B.to_Q c255 == inject_Z 255)%Q) by (unfold Qeq; vm_compute; reflexivity).
  assert (HqD : (B.to_Q D == inject_Z dd)%Q) by (unfold D; now rewrite to_Q_finite).
  assert (Hddq : (1 <= inject_Z dd)%Q) by (apply (inject_Z_le 1); lia).
  assert (Hdd32 : (inject_Z dd <= inject_Z (2 ^ 32))%Q) by (apply inject_Z_le; lia).
  assert (Hp8 : (bpow 8 == inject_Z 256)%Q) by (unfold Qeq; vm_compute; reflexivity).
  assert (Hp45 : (bpow (-45) == 1 # 35184372088832)%Q) by (unfold Qeq; vm_compute; reflexivity).
  assert (Hx : (B.to_Q c255 < bpow 8)%Q) by (rewrite Hq255, Hp8; now rewrite <- Zlt_Qlt).
  assert (Hy : (bpow 0 <= B.to_Q D)%Q) by (rewrite HqD; exact Hddq).
  destruct (div_upper c255 D 8972014882652160 md (-45) ed 8 0 (-45) eq_refl eq_refl Hx Hy)
    as [HS HSle]; try lia.
  pose proof (div_lower c255 D 8972014882652160 md (-45) ed 8 0 (-45) eq_refl eq_refl Hx Hy
                ltac:(lia) ltac:(lia)) as HSlow.
  set (S := B.div c255 D) in *.
  rewrite Hq255, HqD, Hp45 in HSle, HSlow.
  pose proof (finite_below_nonneg _ _ HS) as HS0.
  change (inject_Z (2 ^ 32)) with (4294967296 # 1)%Q in Hdd32.
  change (inject_Z 255) with (255 # 1)%Q in *. change (inject_Z 256) with (256 # 1)%Q in *.
  set (r := ((255 # 1) / inject_Z dd)%Q).
  assert (Hr : (r * inject_Z dd == 255 # 1)%Q).
  { unfold r. field. intros H0. rewrite H0 in Hddq. lra. }
  setoid_replace ((255 # 1) * inject_Z a / inject_Z dd)%Q
    with (r * inject_Z a)%Q by (unfold r, Qdiv; ring).
  destruct (Z.eq_dec a 0) as [Ha0|Ha0].
  - rewrite Ha0. change (B.of_Z 0) with (S754_zero false).
    assert (HF : B.mul (S754_zero false) S = S754_zero false).
    { destruct HS as [->|(m & e & -> & _)]; reflexivity. }
    rewrite HF. cbn [B.to_Q]. change (inject_Z 0) with 0%Q. lra.
  - assert (Ha53 : 0 < a < 2 ^ 53) by lia.
    destruct (of_Z_exact a Ha53) as (ma & ea & HA & Hea & HAval).
    rewrite HA. set (A := S754_finite false ma ea).
    assert (HAfin : finite_below (-21) A).
    { right. exists ma, ea. split; [reflexivity|].
      pose proof (Zdigits2_le a 32). lia. }
    assert (HqA : (B.to_Q A == inject_Z a)%Q) by (unfold A; now rewrite to_Q_finite).
    assert (Haq : (0 <= inject_Z a <= inject_Z dd)%Q)
      by (split; [apply (inject_Z_le 0) | apply inject_Z_le]; lia).
    assert (HaS : (inject_Z a * B.to_Q S <= inject_Z dd * B.to_Q S)%Q)
      by (apply Qmult_le_compat_r; [apply Haq | exact HS0]).
    assert (Hprod : (B.to_Q A * B.to_Q S < bpow 8)%Q) by (rewrite HqA, Hp8; lra).
    pose proof (mul_lower A S (-21) (-44) 8 (-45) HAfin HS Hprod
                  ltac:(lia) ltac:(lia) ltac:(lia)) as HFlow.
    rewrite HqA, Hp45 in HFlow.
    (* S >= 255 / dd - 2^-44, hence a * S >= 255 * a / dd - a * 2^-44 *)
    assert (HSdiv : (r - (2 # 35184372088832) <= B.to_Q S)%Q).
    { apply Qmult_le_r with (inject_Z dd); [lra|].
      setoid_replace ((r - (2 # 35184372088832)) * inject_Z dd)%Q
        with (r * inject_Z dd - (2 # 35184372088832) * inject_Z dd)%Q by ring.
      rewrite Hr. lra. }
    assert (HaS' : ((r - (2 # 35184372088832)) * inject_Z a <= B.to_Q S * inject_Z a)%Q)
      by (apply Qmult_le_compat_r; [exact HSdiv | apply Haq]).
    setoid_replace ((r - (2 # 35184372088832)) * inject_Z a)%Q
      with (r * inject_Z a - (2 # 35184372088832) * inject_Z a)%Q in HaS' by ring.
    lra.
Qed.

(** The extremes of an array are among its elements. *)
Lemma fold_min_in (l : list Z) (x : Z) : In (fold_left Z.min l x) (x :: l).
Proof.
  revert x. induction l as [|y l IH]; intros x; cbn [fold_left]; [now left|].
  destruct (IH (Z.min x y)) as [H|H].
  - destruct (Z.min_spec x y) as [[_ E]|[_ E]].
    + left. now transitivity (Z.min x y).
    + right. left. now transitivity (Z.min x y).
  - right. right. exact H.
Qed.

Lemma fold_max_in (l : list Z) (x : Z) : In (fold_left Z.max l x) (x :: l).
Proof.
  revert x. induction l as [|y l IH]; intros x; cbn [fold_left]; [now left|].
  destruct (IH (Z.max x y)) as [H|H].
  - destruct (Z.max_spec x y) as [[_ E]|[_ E]].
    + right. left. now transitivity (Z.max x y).
    + left. now transitivity (Z.max x y).
  - right. right. exact H.
Qed.

Lemma arr_min_in (l : list Z) (lo : Z) : utils_dicom.arr_min l = Some lo -> In lo l.
Proof. destruct l as [|x l]; [discriminate|]. intros [= <-]. apply fold_min_in. Qed.

Lemma arr_max_in (l : list Z) (hi : Z) : utils_dicom.arr_max l = Some hi -> In hi l.
Proof. destruct l as [|x l]; [discriminate|]. intros [= <-]. apply fold_max_in. Qed.

(** Arithmetic of a dtype is exact on the values of the dtype. *)
Lemma wrap_in_range (signed : bool) (bits z : Z) :
  0 < bits -> dtype_range signed bits z -> utils_dicom.wrap signed bits z = z.
Proof.
  intros Hbits Hz. unfold utils_dicom.wrap, dtype_range in *.
  destruct signed.
  - assert (Hpow : 2 ^ bits = 2 * 2 ^ (bits - 1)).
    { rewrite <- Z.pow_succ_r by lia. f_equal. lia. }
    remember (2 ^ (bits - 1)) as h. rewrite Hpow.
    rewrite Z.mod_small by lia. lia.
  - apply Z.mod_small. exact Hz.
Qed.

(** One element [v] of an array whose range fits its dtype: neither
    subtraction wraps, so the product is the one of the offsets [v - min] and
    [max - min], both below [2^32]. *)
Lemma rescale_offsets (arr : utils_dicom.ndarray) (lo hi v : Z) :
  integer_array arr ->
  utils_dicom.arr_min (utils_dicom.data arr) = Some lo ->
  utils_dicom.arr_max (utils_dicom.data arr) = Some hi ->
  (utils_dicom.signed arr = true -> hi - lo < 2 ^ (utils_dicom.bits arr - 1)) ->
  In v (utils_dicom.data arr) ->
  utils_dicom.rescale (utils_dicom.signed arr) (utils_dicom.bits arr) lo hi v
  = utils_dicom.rescale false 32 0 (hi - lo) (v - lo)
  /\ 0 <= v - lo <= hi - lo /\ hi - lo < 2 ^ 32.
Proof.
  intros [Hbits Hrange] Hmin Hmax Hfits Hv.
  pose proof (arr_min_le _ _ Hmin v Hv) as Hlo.
  pose proof (arr_max_ge _ _ Hmax v Hv) as Hhi.
  pose proof (Hrange lo (arr_min_in _ _ Hmin)) as Hlor.
  pose proof (Hrange hi (arr_max_in _ _ Hmax)) as Hhir.
  assert (Hpow : 2 ^ utils_dicom.bits arr <= 2 ^ 32) by (apply Z.pow_le_mono_r; lia).
  assert (Hhalf : 2 ^ utils_dicom.bits arr = 2 * 2 ^ (utils_dicom.bits arr - 1)).
  { rewrite <- Z.pow_succ_r by lia. f_equal. lia. }
  assert (Hd : dtype_range (utils_dicom.signed arr) (utils_dicom.bits arr) (hi - lo)
               /\ hi - lo < 2 ^ 32).
  { unfold dtype_range in *. destruct (utils_dicom.signed arr).
    - specialize (Hfits eq_refl). remember (2 ^ (utils_dicom.bits arr - 1)) as h. lia.
    - lia. }
  destruct Hd as [Hd Hd32].
  assert (Ha : dtype_range (utils_dicom.signed arr) (utils_dicom.bits arr) (v - lo)).
  { unfold dtype_range in *. destruct (utils_dicom.signed arr).
    - remember (2 ^ (utils_dicom.bits arr - 1)) as h. lia.
    - lia. }
  split; [|lia].
  unfold utils_dicom.rescale.
  rewrite (wrap_in_range _ _ (v - lo)), (wrap_in_range _ _ (hi - lo)) by (lia || assumption).
  unfold utils_dicom.wrap. rewrite !Z.sub_0_r, !Z.mod_small by lia. reflexivity.
Qed.

(** The DICOM path up to [Image.fromarray]. *)
Lemma dicom_path (d : utils_dicom.Decoders) (bytes : list Byte.byte)
  (filename : string) (ds : utils_dicom.Dataset) (px : list (option Z)) :
  endswith (lower filename) ".dcm" = true ->
  utils_dicom._HAVE_PYDICOM d = true ->
  utils_dicom.dcmread d bytes = Some ds ->
  utils_dicom.normalize (utils_dicom.pixel_array ds) = Some px ->
  utils_dicom.load_image_from_bytes d bytes filename = dicom_result d ds px.
Proof.
  intros Hname Hdicom Hread Hpx.
  unfold utils_dicom.load_image_from_bytes, dicom_result.
  now rewrite Hname, Hdicom, Hread, Hpx.
Qed.

(** The array that is converted when the maximum exceeds the minimum. *)
Lemma normalize_rescaled (arr : utils_dicom.ndarray) (lo hi : Z) :
  utils_dicom.arr_min (utils_dicom.data arr) = Some lo ->
  utils_dicom.arr_max (utils_dicom.data arr) = Some hi ->
  lo < hi ->
  utils_dicom.normalize arr
  = Some (map (fun v => utils_dicom.astype_uint8
                          (utils_dicom.rescale (utils_dicom.signed arr)
                                               (utils_dicom.bits arr) lo hi v))
              (utils_dicom.data arr)).
Proof.
  intros Hmin Hmax Hlt. unfold utils_dicom.normalize.
  rewrite Hmin, Hmax. apply Z.ltb_lt in Hlt. now rewrite Hlt.
Qed.


(** Two slips of the rescaling, on which the amended claim is silent. The
    conversion to [uint8] cuts the fraction off: with min 0 and max 25 the
    maximum is stored as 254, because [25 * (255.0 / 25)] is just below 255
    in binary64. *)
Lemma maximum_can_land_on_254 :
  utils_dicom.load_image_from_bytes Fixtures.dicom_decoders [] "scan.dcm"
  = Ok (model.mkImage "L" [Some 0; Some 254; Some 102], "MR").
Proof. vm_compute. reflexivity. Qed.

(** And the subtractions are done in the dtype of the array: for the 16-bit
    signed elements -20000, 0, 20000 the difference [max - min] wraps to
    -25536, the factor is negative, and the middle element is sent to about
    -199.7, which has no [uint8] value. *)
Lemma signed_range_wraps :
  utils_dicom.wrap true 16 (20000 - (-20000)) = -25536
  /\ utils_dicom.normalize (utils_dicom.pixel_array Fixtures.wide_signed_dataset)
     = Some [Some 0; None; Some 255].
Proof. vm_compute. split; reflexivity. Qed.



(* ================================================================== *)
(** * Further properties of the code *)
(* ================================================================== *)

(** ** Rows and lookups ([crud.py]) *)

Lemma find_username (l : list User.t) (username : string) (row : User.t) :
  find (fun u => String.eqb (User.username u) username) l = Some row ->
  User.username row = username.
Proof.
  intros H. apply find_some in H as [_ H]. now apply String.eqb_eq in H.
Qed.

Lemma find_snoc {A : Type} (p : A -> bool) (l : list A) (x : A) :
  find p (l ++ [x]) = match find p l with
                      | Some y => Some y
                      | None => if p x then Some x else None
                      end.
Proof.
  induction l as [|y l IH]; cbn; [reflexivity|].
  destruct (p y); [reflexivity | exact IH].
Qed.

Lemma find_update_first_same {A : Type} (p : A -> bool) (f : A -> A) (l : list A) (x : A) :
  (forall y, p (f y) = p y) ->
  find p l = Some x -> find p (crud.update_first p f l) = Some (f x).
Proof.
  intros Hf. induction l as [|y l IH]; cbn; [discriminate|].
  destruct (p y) eqn:E.
  - intros [= <-]. cbn. now rewrite Hf, E.
  - intros H. cbn. rewrite E. now apply IH.
Qed.

Lemma find_update_first_other {A : Type} (p q : A -> bool) (f : A -> A) (l : list A) :
  (forall y, q (f y) = q y) ->
  (forall y, p y = true -> q y = false) ->
  find q (crud.update_first p f l) = find q l.
Proof.
  intros Hf Hpq. induction l as [|y l IH]; cbn; [reflexivity|].
  destruct (p y) eqn:E.
  - cbn. rewrite Hf, (Hpq y E). reflexivity.
  - cbn. now rewrite IH.
Qed.

Lemma map_update_first {A B : Type} (g : A -> B) (p : A -> bool) (f : A -> A) (l : list A) :
  (forall y, g (f y) = g y) ->
  map g (crud.update_first p f l) = map g l.
Proof.
  intros Hf. induction l as [|y l IH]; cbn; [reflexivity|].
  destruct (p y); cbn; [now rewrite Hf | now rewrite IH].
Qed.


Lemma lookup_appended_row (session : Session) (user : User.t) (a b : Z) :
  crud.get_user_by_username session (User.username user) = None ->
  crud.get_user_by_username
    (mkSession (users session ++ [user]) (companies session) a b) (User.username user)
  = Some user.
Proof.
  unfold crud.get_user_by_username. cbn [users]. intros H.
  rewrite find_snoc, H. now rewrite String.eqb_refl.
Qed.

Lemma set_user_role_found (session : Session) (username role : string) (row : User.t) :
  crud.get_user_by_username session username = Some row ->
  crud.set_user_role session username role
  = (mkSession
       (crud.update_first (fun u => String.eqb (User.username u) username)
                          (fun u => User.set_role u role) (users session))
       (companies session) (next_user_id session) (next_company_id session),
     Some (User.set_role row role))
  /\ crud.get_user_by_username (fst (crud.set_user_role session username role)) username
     = Some (User.set_role row role).
Proof.
  intros Hrow. unfold crud.set_user_role. rewrite Hrow. split; [reflexivity|].
  unfold crud.get_user_by_username in *. cbn [fst users].
  now apply (find_update_first_same
               (fun u => String.eqb (User.username u) username)
               (fun u => User.set_role u role)).
Qed.

(** X1: a user created under a fresh name is stored at the end of the table
    with the next primary key, and is what a lookup of that name returns
    afterwards; lookups of other names are unchanged. *)
Theorem create_user_then_lookup (session : Session)
  (username password_hash full_name role : string) (utcnow : Z) :
  crud.get_user_by_username session username = None ->
  exists session' user,
    crud.create_user session username password_hash full_name role utcnow
    = (session', Ok user)
    /\ user = User.mk (Some (next_user_id session)) username (Some full_name) role
                      false password_hash utcnow
    /\ users session' = users session ++ [user]
    /\ next_user_id session' = next_user_id session + 1
    /\ crud.get_user_by_username session' username = Some user
    /\ (forall other, other <> username ->
          crud.get_user_by_username session' other
          = crud.get_user_by_username session other).
Proof.
  intros Hnone. unfold crud.create_user. rewrite Hnone.
  eexists _, _. split; [reflexivity|]. split; [reflexivity|].
  split; [reflexivity|]. split; [reflexivity|].
  unfold crud.get_user_by_username in *. cbn [users]. split.
  - rewrite find_snoc, Hnone. cbn. now rewrite String.eqb_refl.
  - intros other Hne. rewrite find_snoc. clear Hnone.
    destruct (find _ (users session)); [reflexivity|].
    cbn. apply String.eqb_neq in Hne. rewrite String.eqb_sym in Hne. now rewrite Hne.
Qed.

Lemma create_user_then_lookup_witness :
  exists session' user,
    crud.create_user Fixtures.session0 "bob" "h" "Bob" "doctor" 7 = (session', Ok user)
    /\ user = User.mk (Some (next_user_id Fixtures.session0)) "bob" (Some "Bob") "doctor"
                      false "h" 7
    /\ users session' = users Fixtures.session0 ++ [user]
    /\ next_user_id session' = next_user_id Fixtures.session0 + 1
    /\ crud.get_user_by_username session' "bob" = Some user
    /\ (forall other, other <> "bob" ->
          crud.get_user_by_username session' other
          = crud.get_user_by_username Fixtures.session0 other).
Proof.
  apply (create_user_then_lookup Fixtures.session0 "bob" "h" "Bob" "doctor" 7).
  reflexivity.
Defined.

(** X2: a role update of an existing user changes the role of that row and
    nothing else: the lookup of the name returns the row with the new role,
    every other lookup, the number of rows and the company table are as
    before. *)
Theorem set_user_role_then_lookup (session : Session) (username role : string)
  (row : User.t) :
  crud.get_user_by_username session username = Some row ->
  exists session',
    crud.set_user_role session username role = (session', Some (User.set_role row role))
    /\ crud.get_user_by_username session' username = Some (User.set_role row role)
    /\ (forall other, other <> username ->
          crud.get_user_by_username session' other
          = crud.get_user_by_username session other)
    /\ map User.username (users session') = map User.username (users session)
    /\ map User.password_hash (users session') = map User.password_hash (users session)
    /\ map User.disabled (users session') = map User.disabled (users session)
    /\ companies session' = companies session.
Proof.
  intros Hrow. unfold crud.set_user_role. rewrite Hrow.
  eexists. split; [reflexivity|].
  unfold crud.get_user_by_username in *. cbn [users companies].
  split; [|split; [|split; [|split; [|split]]]].
  - now apply (find_update_first_same
                 (fun u => String.eqb (User.username u) username)
                 (fun u => User.set_role u role)).
  - intros other Hne. apply find_update_first_other; [reflexivity|].
    intros y Hy. apply String.eqb_eq in Hy. apply String.eqb_neq. congruence.
  - now apply map_update_first.
  - now apply map_update_first.
  - now apply map_update_first.
  - reflexivity.
Qed.

Lemma set_user_role_then_lookup_witness :
  exists session',
    crud.set_user_role Fixtures.session0 "alice" "admin"
    = (session', Some (User.set_role Fixtures.alice_disabled "admin"))
    /\ crud.get_user_by_username session' "alice"
       = Some (User.set_role Fixtures.alice_disabled "admin")
    /\ (forall other, other <> "alice" ->
          crud.get_user_by_username session' other
          = crud.get_user_by_username Fixtures.session0 other)
    /\ map User.username (users session') = map User.username (users Fixtures.session0)
    /\ map User.password_hash (users session')
       = map User.password_hash (users Fixtures.session0)
    /\ map User.disabled (users session') = map User.disabled (users Fixtures.session0)
    /\ companies session' = companies Fixtures.session0.
Proof.
  apply (set_user_role_then_lookup Fixtures.session0 "alice" "admin"
           Fixtures.alice_disabled).
  reflexivity.
Defined.

Lemma NoDup_snoc {A : Type} (l : list A) (x : A) :
  NoDup l -> ~ In x l -> NoDup (l ++ [x]).
Proof.
  intros Hl Hx. induction Hl as [|y l Hy Hl IH]; cbn.
  - constructor; [intros [] | constructor].
  - constructor.
    + rewrite in_app_iff. intros [H|[H|[]]]; [contradiction|].
      apply Hx. now left.
    + apply IH. intros H. apply Hx. now right.
Qed.

Lemma unique_usernames_snoc (session : Session) (user : User.t) :
  unique_usernames session ->
  crud.get_user_by_username session (User.username user) = None ->
  NoDup (map User.username (users session ++ [user])).
Proof.
  intros Huniq Hnone. rewrite map_app. cbn [map]. apply NoDup_snoc; [exact Huniq|].
  rewrite in_map_iff. intros (u & Hu & Hin).
  apply (proj1 (get_user_by_username_none session (User.username user)) Hnone u Hin Hu).
Qed.

(** X3: the user table never gets two rows with the same username: every
    operation of the repository that writes to it ([create_user],
    [set_user_role], the two admin routes built on them and the
    admin-creation script) keeps the usernames distinct, whether it succeeds
    or fails. *)
Theorem usernames_stay_unique (session : Session) :
  unique_usernames session ->
  (forall username password_hash full_name role utcnow,
     unique_usernames
       (fst (crud.create_user session username password_hash full_name role utcnow)))
  /\ (forall username role,
        unique_usernames (fst (crud.set_user_role session username role)))
  /\ (forall c payload who utcnow,
        unique_usernames (fst (admin_api.admin_create_user c payload who session utcnow)))
  /\ (forall username role who,
        unique_usernames (fst (admin_api.admin_set_role username role who session)))
  /\ (forall ctx_hash username password full_name utcnow,
        unique_usernames
          (fst (scripts_create_admin.main ctx_hash session username password
                  full_name utcnow))).
Proof.
  intros Huniq.
  assert (Hcreate : forall username password_hash full_name role utcnow,
    unique_usernames
      (fst (crud.create_user session username password_hash full_name role utcnow))).
  { intros username password_hash full_name role utcnow. unfold crud.create_user.
    destruct (crud.get_user_by_username session username) eqn:E; [exact Huniq|].
    unfold unique_usernames. cbn [fst users].
    now apply unique_usernames_snoc. }
  assert (Hrole : forall username role,
    unique_usernames (fst (crud.set_user_role session username role))).
  { intros username role. unfold crud.set_user_role.
    destruct (crud.get_user_by_username session username); [|exact Huniq].
    unfold unique_usernames. cbn [fst users].
    rewrite map_update_first by reflexivity. exact Huniq. }
  split; [exact Hcreate|]. split; [exact Hrole|]. split; [|split].
  - intros c payload who utcnow. unfold admin_api.admin_create_user.
    destruct (admin_api.require_admin who); [|exact Huniq].
    destruct (auth.pwd_hash c (admin_api.in_password payload));
      [apply Hcreate | exact Huniq].
  - intros username role who. unfold admin_api.admin_set_role.
    destruct (admin_api.require_admin who); [|exact Huniq].
    specialize (Hrole username role).
    destruct (crud.set_user_role session username role) as [session' [u|]]; exact Hrole.
  - intros ctx_hash username password full_name utcnow.
    unfold scripts_create_admin.main.
    destruct (find _ (users session)) eqn:E; [exact Huniq|].
    unfold unique_usernames. cbn [fst users].
    now apply unique_usernames_snoc.
Qed.

Lemma usernames_stay_unique_witness :
  (forall username password_hash full_name role utcnow,
     unique_usernames
       (fst (crud.create_user Fixtures.session0 username password_hash full_name role
               utcnow)))
  /\ (forall username role,
        unique_usernames (fst (crud.set_user_role Fixtures.session0 username role)))
  /\ (forall c payload who utcnow,
        unique_usernames
          (fst (admin_api.admin_create_user c payload who Fixtures.session0 utcnow)))
  /\ (forall username role who,
        unique_usernames
          (fst (admin_api.admin_set_role username role who Fixtures.session0)))
  /\ (forall ctx_hash username password full_name utcnow,
        unique_usernames
          (fst (scripts_create_admin.main ctx_hash Fixtures.session0 username password
                  full_name utcnow))).
Proof.
  apply (usernames_stay_unique Fixtures.session0).
  unfold unique_usernames. cbn.
  constructor; [intros [H|[]]; discriminate H|].
  constructor; [intros []|]. constructor.
Defined.

(** ** The company profile: what is written is what is read *)

(** X4: after [POST /admin/company] by an admin, on any state of the table,
    [GET /admin/company] returns a profile with exactly the posted name and
    the posted address, e-mail and logo (an absent or empty field being
    stored as the empty string); its id is the [company_id] of the [POST]
    response; an existing first row keeps its id and creation time, and the
    user table is untouched. *)
Theorem company_upsert_then_get (payload : admin_api.CompanyIn) (who : auth.Identity)
  (session : Session) (utcnow : Z) :
  auth.role who = "admin" ->
  exists session' prof,
    admin_api.admin_upsert_company payload who session utcnow
    = (session', Ok ("ok", CompanyProfile.id prof))
    /\ admin_api.admin_get_company who session' = Ok (Some prof)
    /\ CompanyProfile.name prof = admin_api.in_name payload
    /\ CompanyProfile.address prof = Some (str_or (admin_api.in_address payload) "")
    /\ CompanyProfile.contact_email prof
       = Some (str_or (admin_api.in_contact_email payload) "")
    /\ CompanyProfile.logo_url prof = Some (str_or (admin_api.in_logo_url payload) "")
    /\ (CompanyProfile.id prof, CompanyProfile.created_at prof)
       = match companies session with
         | [] => (Some (next_company_id session), utcnow)
         | old :: _ => (CompanyProfile.id old, CompanyProfile.created_at old)
         end
    /\ tl (companies session') = tl (companies session)
    /\ users session' = users session.
Proof.
  intros Hadmin.
  unfold admin_api.admin_upsert_company, admin_api.admin_get_company,
    admin_api.require_admin, crud.upsert_company_profile, crud.get_company_profile.
  rewrite Hadmin. cbn [String.eqb Ascii.eqb Bool.eqb negb bind].
  destruct (companies session) as [|old rest];
    eexists _, _; repeat split.
Qed.

Lemma company_upsert_then_get_witness :
  exists session' prof,
    admin_api.admin_upsert_company (Fixtures.company "Acme") Fixtures.admin_identity
      Fixtures.session0 5
    = (session', Ok ("ok", CompanyProfile.id prof))
    /\ admin_api.admin_get_company Fixtures.admin_identity session' = Ok (Some prof)
    /\ CompanyProfile.name prof = admin_api.in_name (Fixtures.company "Acme")
    /\ CompanyProfile.address prof
       = Some (str_or (admin_api.in_address (Fixtures.company "Acme")) "")
    /\ CompanyProfile.contact_email prof
       = Some (str_or (admin_api.in_contact_email (Fixtures.company "Acme")) "")
    /\ CompanyProfile.logo_url prof
       = Some (str_or (admin_api.in_logo_url (Fixtures.company "Acme")) "")
    /\ (CompanyProfile.id prof, CompanyProfile.created_at prof)
       = match companies Fixtures.session0 with
         | [] => (Some (next_company_id Fixtures.session0), 5)
         | old :: _ => (CompanyProfile.id old, CompanyProfile.created_at old)
         end
    /\ tl (companies session') = tl (companies Fixtures.session0)
    /\ users session' = users Fixtures.session0.
Proof.
  apply (company_upsert_then_get (Fixtures.company "Acme") Fixtures.admin_identity
           Fixtures.session0 5).
  reflexivity.
Defined.

(** ** Token resolution ([get_current_user]) *)

(** The in-memory table holds the single user [doc_user], who is enabled. *)
Lemma fallback_identity_cases (c : auth.Crypto) (uid : string) :
  (uid = "doc_user"
   /\ auth.fallback_identity c uid = Ok Fixtures.doc_user_identity)
  \/ (uid <> "doc_user"
      /\ auth.fallback_identity c uid = Raise auth.credentials_exception).
Proof.
  unfold auth.fallback_identity, auth.FAKE_USERS_DB. cbn [dict_get].
  destruct (String.eqb "doc_user" uid) eqn:E.
  - apply String.eqb_eq in E. subst uid. left. split; reflexivity.
  - apply String.eqb_neq in E. right. split; [congruence | reflexivity].
Qed.

Lemma get_current_user_subject (c : auth.Crypto) (db : option Session)
  (token uid : string) :
  token_subject c token = Some uid ->
  auth.get_current_user c db token
  = match try_except (auth.db_identity db uid) (fun _ => Ok None) with
    | Ok (Some found) => Ok found
    | _ => auth.fallback_identity c uid
    end.
Proof.
  unfold token_subject, auth.get_current_user.
  destruct (auth.jwt_decode c token) as [payload|]; [|discriminate].
  now intros ->.
Qed.

(** X5: [get_current_user] never answers with a status other than 401. The
    two places that raise 400 "Inactive user" cannot be observed: the one in
    the database block is caught by its own [except Exception: pass], and the
    only entry of the in-memory table is enabled. *)
Theorem get_current_user_raises_only_401 (c : auth.Crypto) (db : option Session)
  (token : string) :
  (exists who, auth.get_current_user c db token = Ok who)
  \/ auth.get_current_user c db token = Raise (HTTPException 401 "Could not validate credentials").
Proof.
  destruct (token_subject c token) as [uid|] eqn:Hsub.
  - rewrite (get_current_user_subject c db token uid Hsub).
    destruct (try_except (auth.db_identity db uid) (fun _ => Ok None)) as [[found|]|e].
    + left. now exists found.
    + destruct (fallback_identity_cases c uid) as [[_ ->]|[_ ->]];
        [left; eauto | now right].
    + destruct (fallback_identity_cases c uid) as [[_ ->]|[_ ->]];
        [left; eauto | now right].
  - right. unfold token_subject in Hsub. unfold auth.get_current_user.
    destruct (auth.jwt_decode c token) as [payload|]; [|reflexivity].
    now rewrite Hsub.
Qed.

Lemma get_current_user_enabled_row (c : auth.Crypto) (session : Session)
  (token uid : string) (row : User.t) :
  token_subject c token = Some uid ->
  crud.get_user_by_username session uid = Some row ->
  User.disabled row = false ->
  auth.get_current_user c (Some session) token = Ok (stored_identity row).
Proof.
  intros Hsub Hrow Hen.
  rewrite (get_current_user_subject c (Some session) token uid Hsub).
  unfold auth.db_identity. now rewrite Hrow, Hen.
Qed.

(** X6: the stored row of the token's subject decides. An enabled row gives
    the identity built from that row (its role, and its full name or, when
    that is empty, its username), also for [doc_user]; a disabled row locks
    the subject out with 401, except that a disabled row named [doc_user]
    still resolves to the in-memory demo identity. *)
Theorem get_current_user_stored_row (c : auth.Crypto) (session : Session)
  (token uid : string) (row : User.t) :
  token_subject c token = Some uid ->
  crud.get_user_by_username session uid = Some row ->
  User.username row = uid
  /\ (User.disabled row = false ->
      auth.get_current_user c (Some session) token = Ok (stored_identity row))
  /\ (User.disabled row = true -> uid <> "doc_user" ->
      auth.get_current_user c (Some session) token
      = Raise (HTTPException 401 "Could not validate credentials"))
  /\ (User.disabled row = true -> uid = "doc_user" ->
      auth.get_current_user c (Some session) token
      = Ok (auth.mkIdentity "doc_user" "Dr. Alice Onco" "doctor")).
Proof.
  intros Hsub Hrow.
  split; [exact (find_username _ _ _ Hrow)|].
  split; [|split].
  - exact (get_current_user_enabled_row c session token uid row Hsub Hrow).
  - intros Hdis Hne.
    rewrite (get_current_user_subject c (Some session) token uid Hsub).
    unfold auth.db_identity. rewrite Hrow, Hdis. cbn [try_except].
    destruct (fallback_identity_cases c uid) as [[? _]|[_ ->]]; [contradiction|reflexivity].
  - intros Hdis Heq.
    rewrite (get_current_user_subject c (Some session) token uid Hsub).
    unfold auth.db_identity. rewrite Hrow, Hdis. cbn [try_except].
    destruct (fallback_identity_cases c uid) as [[_ ->]|[? _]]; [reflexivity|contradiction].
Qed.

Lemma get_current_user_stored_row_witness :
  User.username Fixtures.root_admin = "root"
  /\ (User.disabled Fixtures.root_admin = false ->
      auth.get_current_user Fixtures.crypto (Some Fixtures.session0) "root"
      = Ok (stored_identity Fixtures.root_admin))
  /\ (User.disabled Fixtures.root_admin = true -> "root" <> "doc_user" ->
      auth.get_current_user Fixtures.crypto (Some Fixtures.session0) "root"
      = Raise (HTTPException 401 "Could not validate credentials"))
  /\ (User.disabled Fixtures.root_admin = true -> "root" = "doc_user" ->
      auth.get_current_user Fixtures.crypto (Some Fixtures.session0) "root"
      = Ok (auth.mkIdentity "doc_user" "Dr. Alice Onco" "doctor")).
Proof.
  apply (get_current_user_stored_row Fixtures.crypto Fixtures.session0 "root" "root"
           Fixtures.root_admin); reflexivity.
Defined.

(** An identity that is returned carries the token's subject as [user_id]. *)
Lemma get_current_user_user_id (c : auth.Crypto) (db : option Session)
  (token uid : string) (who : auth.Identity) :
  token_subject c token = Some uid ->
  auth.get_current_user c db token = Ok who ->
  auth.user_id who = uid.
Proof.
  intros Hsub. rewrite (get_current_user_subject c db token uid Hsub).
  assert (Hfb : auth.fallback_identity c uid = Ok who -> auth.user_id who = uid).
  { destruct (fallback_identity_cases c uid) as [[-> ->]|[_ ->]];
      [now intros [= <-] | discriminate]. }
  unfold auth.db_identity. destruct db as [session|]; [|exact Hfb].
  destruct (crud.get_user_by_username session uid) as [row|] eqn:Hrow; [|exact Hfb].
  destruct (User.disabled row); [exact Hfb|].
  cbn [try_except]. intros [= <-]. exact (find_username _ _ _ Hrow).
Qed.

(** ** Login ([POST /token]), continued *)

Lemma truthy_str_some (s : string) : truthy_str (Some s) = negb (String.eqb s "").
Proof. destruct s; reflexivity. Qed.

Lemma str_or_some (s : string) : str_or (Some s) "" = s.
Proof. destruct s; reflexivity. Qed.


(** The body of [login_for_access_token] once both credentials are present. *)
Lemma login_with_credentials (c : auth.Crypto) (db : option Session)
  (username password : string) (utcnow : Z) :
  username <> "" -> password <> "" ->
  main.login_for_access_token c db (Some username) (Some password) utcnow
  = match try_except (main.db_login c db username password utcnow) (fun _ => Ok None) with
    | Ok (Some token) => Ok token
    | _ =>
        match dict_get (auth.FAKE_USERS_DB c) username with
        | None => Raise (HTTPException 401 "Incorrect username or password")
        | Some user =>
            ok <- auth.verify_password c password (auth.hashed_password user) ;;
            if negb ok
            then Raise (HTTPException 401 "Incorrect username or password")
            else Ok (token_for c username utcnow)
        end
    end.
Proof.
  intros Hu Hp. unfold main.login_for_access_token.
  rewrite !truthy_str_some, !str_or_some.
  apply String.eqb_neq in Hu, Hp. rewrite Hu, Hp. reflexivity.
Qed.

Lemma db_login_cases (c : auth.Crypto) (db : option Session)
  (username password : string) (utcnow : Z) :
  (exists row, db_lookup db username = Some row
               /\ auth.pwd_verify c password (User.password_hash row) = Some true
               /\ try_except (main.db_login c db username password utcnow)
                    (fun _ => Ok None) = Ok (Some (token_for c username utcnow)))
  \/ ((forall row, db_lookup db username = Some row ->
                   auth.pwd_verify c password (User.password_hash row) <> Some true)
      /\ try_except (main.db_login c db username password utcnow) (fun _ => Ok None)
         = Ok None).
Proof.
  unfold main.db_login, db_lookup. destruct db as [session|].
  - destruct (crud.get_user_by_username session username) as [row|] eqn:Hrow.
    + unfold auth.verify_password.
      destruct (auth.pwd_verify c password (User.password_hash row)) as [[|]|] eqn:Hv.
      * left. exists row. split; [reflexivity|]. split; [exact Hv|].
        cbn. unfold token_for. now rewrite (find_username _ _ _ Hrow).
      * right. split; [|reflexivity]. intros r [= <-]. congruence.
      * right. split; [|reflexivity]. intros r [= <-]. congruence.
    + right. split; [|reflexivity]. intros r H. discriminate H.
  - right. split; [|reflexivity]. intros r H. discriminate H.
Qed.

Lemma login_stored_row_verifies (c : auth.Crypto) (db : option Session)
  (username password : string) (utcnow : Z) (row : User.t) :
  username <> "" -> password <> "" ->
  db_lookup db username = Some row ->
  auth.pwd_verify c password (User.password_hash row) = Some true ->
  main.login_for_access_token c db (Some username) (Some password) utcnow
  = Ok (token_for c username utcnow).
Proof.
  intros Hu Hp Hrow Hok.
  rewrite (login_with_credentials c db username password utcnow Hu Hp).
  destruct (db_login_cases c db username password utcnow)
    as [(row' & _ & _ & ->)|[Hno _]]; [reflexivity|].
  now apply Hno in Hok.
Qed.




(** X9: [POST /token] followed by any authenticated request. When the issued
    token decodes back to its subject, the identity [get_current_user]
    resolves it to, from whichever state of the database, carries the
    username submitted at login as [user_id]. *)
Theorem login_token_names_login_user (c : auth.Crypto) (db db' : option Session)
  (username password : string) (utcnow : Z) (tok : main.TokenResponse)
  (who : auth.Identity) :
  token_subject c (auth.create_access_token c username None utcnow) = Some username ->
  main.login_for_access_token c db (Some username) (Some password) utcnow = Ok tok ->
  auth.get_current_user c db' (main.access_token tok) = Ok who ->
  auth.user_id who = username
  /\ main.token_type tok = "bearer".
Proof.
  intros Hdec Hlogin Hres.
  assert (Hu : username <> "").
  { intros ->. discriminate Hlogin. }
  assert (Hp : password <> "").
  { intros ->. unfold main.login_for_access_token in Hlogin.
    rewrite truthy_str_some in Hlogin. cbn in Hlogin.
    rewrite orb_true_r in Hlogin. discriminate Hlogin. }
  assert (Htok : tok = token_for c username utcnow).
  { rewrite (login_with_credentials c db username password utcnow Hu Hp) in Hlogin.
    destruct (db_login_cases c db username password utcnow)
      as [(row & _ & _ & E)|[_ E]]; rewrite E in Hlogin.
    - now injection Hlogin as <-.
    - destruct (dict_get (auth.FAKE_USERS_DB c) username) as [user|]; [|discriminate].
      destruct (auth.verify_password c password (auth.hashed_password user)) as [[|]|e];
        cbn in Hlogin; try discriminate.
      now injection Hlogin as <-. }
  subst tok. split; [|reflexivity].
  exact (get_current_user_user_id c db' _ username who Hdec Hres).
Qed.

Lemma login_token_names_login_user_witness :
  auth.user_id (stored_identity Fixtures.root_admin) = "root"
  /\ main.token_type (token_for Fixtures.crypto "root" 0) = "bearer".
Proof.
  apply (login_token_names_login_user Fixtures.crypto (Some Fixtures.session0)
           (Some Fixtures.session0) "root" "toor" 0 (token_for Fixtures.crypto "root" 0)
           (stored_identity Fixtures.root_admin)); reflexivity.
Defined.

(** ** Administration and authentication together *)

Lemma require_admin_iff (who : auth.Identity) :
  (auth.role who = "admin" -> admin_api.require_admin who = Ok who)
  /\ (auth.role who <> "admin" -> admin_api.require_admin who = Raise forbidden).
Proof.
  unfold admin_api.require_admin. split; intros H.
  - now rewrite H.
  - apply String.eqb_neq in H. now rewrite H.
Qed.

(** X10: a role change takes effect on the tokens already issued. After an
    admin's [POST /admin/users/{username}/role] for an enabled stored user,
    a token of that user resolves to the new role at once: it passes the
    admin gate when the new role is "admin" and is refused by it otherwise. *)
Theorem role_change_takes_effect (c : auth.Crypto) (session : Session)
  (admin : auth.Identity) (username role token : string) (row : User.t) :
  auth.role admin = "admin" ->
  crud.get_user_by_username session username = Some row ->
  User.disabled row = false ->
  token_subject c token = Some username ->
  exists session' who,
    admin_api.admin_set_role username role admin session
    = (session', Ok (User.set_role row role))
    /\ auth.get_current_user c (Some session') token = Ok who
    /\ who = auth.mkIdentity username (str_or (User.full_name row) username) role
    /\ (role = "admin" -> admin_api.require_admin who = Ok who)
    /\ (role <> "admin" -> admin_api.require_admin who = Raise forbidden).
Proof.
  intros Hadmin Hrow Hen Hsub.
  destruct (set_user_role_found session username role row Hrow) as [Hset Hget].
  rewrite Hset in Hget. cbn [fst] in Hget.
  eexists _, (auth.mkIdentity username (str_or (User.full_name row) username) role).
  split; [|split; [|split; [reflexivity|]]].
  - unfold admin_api.admin_set_role, admin_api.require_admin.
    rewrite Hadmin, Hset. reflexivity.
  - rewrite (get_current_user_enabled_row c _ token username _ Hsub Hget Hen).
    unfold stored_identity. cbn. now rewrite (find_username _ _ _ Hrow).
  - exact (require_admin_iff
             (auth.mkIdentity username (str_or (User.full_name row) username) role)).
Qed.

Lemma role_change_takes_effect_witness :
  exists session' who,
    admin_api.admin_set_role "root" "doctor" Fixtures.admin_identity Fixtures.session0
    = (session', Ok (User.set_role Fixtures.root_admin "doctor"))
    /\ auth.get_current_user Fixtures.crypto (Some session') "root" = Ok who
    /\ who = auth.mkIdentity "root" (str_or (User.full_name Fixtures.root_admin) "root")
                             "doctor"
    /\ ("doctor" = "admin" -> admin_api.require_admin who = Ok who)
    /\ ("doctor" <> "admin" -> admin_api.require_admin who = Raise forbidden).
Proof.
  apply (role_change_takes_effect Fixtures.crypto Fixtures.session0
           Fixtures.admin_identity "root" "doctor" "root" Fixtures.root_admin);
    reflexivity.
Defined.



(** ** The admin-creation script ([scripts_create_admin.py]) *)

Lemma create_admin_fresh (ctx_hash : string -> string) (session : Session)
  (username password full_name : string) (utcnow : Z) :
  crud.get_user_by_username session username = None ->
  scripts_create_admin.main ctx_hash session username password full_name utcnow
  = (let user := User.mk (Some (next_user_id session)) username (Some full_name)
                         "admin" false (ctx_hash password) utcnow in
     (mkSession (users session ++ [user]) (companies session)
                (next_user_id session + 1) (next_company_id session),
      "Admin user created")).
Proof.
  unfold crud.get_user_by_username, scripts_create_admin.main. now intros ->.
Qed.


(** X13: the admin made by the script passes the admin gate, provided the
    username and the password given to the script are not empty. After a run
    for a fresh username with such credentials, when the application's
    password context verifies the script's hash and the issued token decodes
    back to its subject, a login with the same credentials succeeds and its
    token resolves to an identity that [require_admin] lets through. *)
Theorem script_admin_passes_admin_gate (c : auth.Crypto) (ctx_hash : string -> string)
  (session : Session) (username password full_name : string) (utcnow later : Z) :
  crud.get_user_by_username session username = None ->
  username <> "" -> password <> "" ->
  auth.pwd_verify c password (ctx_hash password) = Some true ->
  token_subject c (auth.create_access_token c username None later) = Some username ->
  let session' :=
    fst (scripts_create_admin.main ctx_hash session username password full_name utcnow) in
  exists tok who,
    main.login_for_access_token c (Some session') (Some username) (Some password) later
    = Ok tok
    /\ auth.get_current_user c (Some session') (main.access_token tok) = Ok who
    /\ auth.user_id who = username
    /\ auth.role who = "admin"
    /\ admin_api.require_admin who = Ok who.
Proof.
  intros Hnone Hu Hp Hverify Hdec session'.
  unfold session'. rewrite (create_admin_fresh ctx_hash session _ _ _ _ Hnone).
  cbv zeta. cbn [fst].
  set (user := User.mk (Some (next_user_id session)) username (Some full_name)
                       "admin" false (ctx_hash password) utcnow).
  set (s1 := mkSession (users session ++ [user]) (companies session)
                       (next_user_id session + 1) (next_company_id session)).
  assert (Hget : crud.get_user_by_username s1 username = Some user).
  { apply (lookup_appended_row session user). exact Hnone. }
  exists (token_for c username later), (stored_identity user).
  split; [|split; [|split; [|split]]]; try reflexivity.
  - exact (login_stored_row_verifies c (Some s1) username password later user Hu Hp Hget
             Hverify).
  - exact (get_current_user_enabled_row c s1 _ username user Hdec Hget eq_refl).
Qed.

Lemma script_admin_passes_admin_gate_witness :
  let session' :=
    fst (scripts_create_admin.main Fixtures.toy_hash Fixtures.empty_session "root"
           "toor" "" 3) in
  exists tok who,
    main.login_for_access_token Fixtures.crypto (Some session') (Some "root")
      (Some "toor") 4
    = Ok tok
    /\ auth.get_current_user Fixtures.crypto (Some session') (main.access_token tok)
       = Ok who
    /\ auth.user_id who = "root"
    /\ auth.role who = "admin"
    /\ admin_api.require_admin who = Ok who.
Proof.
  apply (script_admin_passes_admin_gate Fixtures.crypto Fixtures.toy_hash
           Fixtures.empty_session "root" "toor" "" 3 4);
    first [reflexivity | discriminate].
Defined.

(** ** The audit log, continued *)

Lemma slice_from_nonneg {A : Type} (l : list A) (start : Z) :
  0 <= start -> slice_from l start = skipn (Z.to_nat start) l.
Proof.
  intros H. unfold slice_from.
  assert (E : (start <? 0) = false) by (apply Z.ltb_ge; lia). rewrite E.
  destruct (Z_le_gt_dec start (Z.of_nat (List.length l))) as [Hle|Hgt].
  - now rewrite Z.min_l by lia.
  - rewrite Z.min_r by lia. rewrite Nat2Z.id, skipn_all.
    symmetry. apply skipn_all2. lia.
Qed.

Lemma slice_from_suffix {A : Type} (l : list A) (start : Z) :
  exists skipped, l = skipped ++ slice_from l start.
Proof.
  unfold slice_from. eexists. symmetry. apply firstn_skipn.
Qed.

Lemma last_records_one_snoc {A : Type} (l : list A) (x : A) :
  last_records 1 (l ++ [x]) = [x].
Proof.
  unfold last_records. rewrite length_app. cbn [List.length].
  replace (List.length l + 1 - 1)%nat with (List.length l) by lia.
  rewrite skipn_app, skipn_all, Nat.sub_diag. reflexivity.
Qed.

(** X14: what [GET /admin/audits] returns for each [limit]. The answer is
    always a suffix of the file, in file order, and the empty list when the
    file does not exist. A positive [limit] gives the last [min(limit, n)]
    rows; zero or a negative [limit] is not refused: the first [-limit] rows
    are dropped and all the others returned. *)
Theorem admin_list_audits_by_limit (who : auth.Identity) (limit : Z)
  (audit_csv : option (list AuditRow)) :
  auth.role who = "admin" ->
  exists rows,
    admin_api.admin_list_audits limit who audit_csv = Ok rows
    /\ (exists skipped, audit_rows audit_csv = skipped ++ rows)
    /\ (0 < limit ->
        List.length rows = Nat.min (Z.to_nat limit) (List.length (audit_rows audit_csv)))
    /\ (limit <= 0 -> rows = skipn (Z.to_nat (- limit)) (audit_rows audit_csv)).
Proof.
  intros Hadmin. unfold admin_api.admin_list_audits, admin_api.require_admin.
  rewrite Hadmin. cbn [String.eqb Ascii.eqb Bool.eqb negb bind].
  destruct audit_csv as [all_rows|]; cbn [audit_rows].
  - exists (slice_from all_rows (- limit)). split; [reflexivity|].
    split; [apply slice_from_suffix|]. split.
    + intros Hpos. rewrite slice_from_neg by exact Hpos. apply last_records_length.
    + intros Hneg. apply slice_from_nonneg. lia.
  - exists []. split; [reflexivity|]. split; [now exists []|].
    split; intros _; [now rewrite Nat.min_0_r | now rewrite skipn_nil].
Qed.

Lemma admin_list_audits_by_limit_witness :
  exists rows,
    admin_api.admin_list_audits (-1) Fixtures.admin_identity
      (Some [Fixtures.row "a"; Fixtures.row "b"; Fixtures.row "c"]) = Ok rows
    /\ (exists skipped,
          audit_rows (Some [Fixtures.row "a"; Fixtures.row "b"; Fixtures.row "c"])
          = skipped ++ rows)
    /\ (0 < -1 ->
        List.length rows
        = Nat.min (Z.to_nat (-1))
            (List.length
               (audit_rows (Some [Fixtures.row "a"; Fixtures.row "b"; Fixtures.row "c"]))))
    /\ (-1 <= 0 ->
        rows = skipn (Z.to_nat (- -1))
                 (audit_rows (Some [Fixtures.row "a"; Fixtures.row "b"; Fixtures.row "c"]))).
Proof.
  apply (admin_list_audits_by_limit Fixtures.admin_identity (-1)
           (Some [Fixtures.row "a"; Fixtures.row "b"; Fixtures.row "c"])).
  reflexivity.
Defined.

(** ** [POST /predict]: what a request leaves behind *)

(** The steps of [predict_scan] after the upload has been written. *)
Lemma predict_scan_saved (os : main.OS) (d : utils_dicom.Decoders) (env : model.Environ)
  (t : model.Torch) (dr : main.Draws) (file_filename : option string)
  (contents : list Byte.byte) (current_user : auth.Identity) (w : main.World) :
  let filename := str_or file_filename ("upload_" ++ main.uuid_upload dr) in
  let saved_path := main.saved_path_of os filename in
  let uploads' := (saved_path, contents) :: main.uploads w in
  let img := match utils_dicom.load_image_from_bytes d contents filename with
             | Ok (img, _) => Some img
             | Raise _ => None
             end in
  let modality := match utils_dicom.load_image_from_bytes d contents filename with
                  | Ok (_, modality) => modality
                  | Raise _ => "Unknown"
                  end in
  main.can_open os saved_path = true ->
  main.predict_scan os d env t dr file_filename contents current_user w
  = match model.get_model_service env t (main._MODEL_SERVICE w) with
    | (holder, Raise e) => (main.mkWorld holder uploads' (main.audit_log w), Raise e)
    | (holder, Ok ms) =>
        match main.prob_and_finding t ms img dr with
        | Raise e => (main.mkWorld holder uploads' (main.audit_log w), Raise e)
        | Ok (prob, primary) =>
            if negb (main.can_open os (main.audit_csv_path os))
            then (main.mkWorld holder uploads' (main.audit_log w), Raise (Exception "OSError"))
            else
              let time := B.py_round (B.sub (main.time_end dr) (main.time_start dr)) 3 in
              let row := mkAuditRow (main.uuid_audit dr) (auth.user_id current_user)
                                    filename saved_path time in
              (main.mkWorld holder uploads' (Some (audit_rows (main.audit_log w) ++ [row])),
               Ok (main.mkDiagnosisResult (main.uuid_audit dr) (auth.user_id current_user)
                     modality filename primary prob time))
        end
    end.
Proof.
  intros filename saved_path uploads' img modality Hopen.
  unfold main.predict_scan. fold filename. fold saved_path. rewrite Hopen.
  cbn [negb main._MODEL_SERVICE main.uploads main.audit_log].
  subst img modality.
  destruct (utils_dicom.load_image_from_bytes d contents filename) as [[im mo]|e];
    destruct (model.get_model_service env t (main._MODEL_SERVICE w)) as [holder [ms|e']];
    try reflexivity;
    cbn [main._MODEL_SERVICE main.uploads main.audit_log];
    destruct (main.prob_and_finding t ms _ dr) as [[prob primary]|e'']; try reflexivity;
    destruct (negb (main.can_open os (main.audit_csv_path os))); try reflexivity;
    destruct (main.audit_log w); reflexivity.
Qed.

(** X15: on an audit file as this route leaves it (absent, or the header line
    followed by at least one row), a successful [POST /predict] appends
    exactly one row, leaving the earlier rows as they were, and the file is
    again of that kind. The row carries the [audit_id], [user_id], file name
    and processing time of the response and the path the upload was written
    to, and it is what [GET /admin/audits?limit=1] returns right afterwards.
    The uploaded bytes are stored under that path. *)
Theorem predict_scan_appends_one_audit_row (os : main.OS) (d : utils_dicom.Decoders)
  (env : model.Environ) (t : model.Torch) (dr : main.Draws)
  (file_filename : option string) (contents : list Byte.byte)
  (current_user : auth.Identity) (w w' : main.World) (res : main.DiagnosisResult) :
  main.audit_log w <> Some [] ->
  main.predict_scan os d env t dr file_filename contents current_user w = (w', Ok res) ->
  exists row,
    main.audit_log w' = Some (audit_rows (main.audit_log w) ++ [row])
    /\ main.audit_log w' <> Some []
    /\ row = mkAuditRow (main.audit_id res) (main.user_id res) (main.filename res)
                        (main.saved_path_of os (main.filename res))
                        (main.processing_time_seconds res)
    /\ main.user_id res = auth.user_id current_user
    /\ main.audit_id res = main.uuid_audit dr
    /\ main.uploads w'
       = (main.saved_path_of os (main.filename res), contents) :: main.uploads w
    /\ (forall admin, auth.role admin = "admin" ->
          admin_api.admin_list_audits 1 admin (main.audit_log w') = Ok [row]).
Proof.
  intros _ Hrun.
  destruct (main.can_open os
              (main.saved_path_of os (str_or file_filename ("upload_" ++ main.uuid_upload dr))))
    eqn:Hopen.
  - rewrite (predict_scan_saved os d env t dr file_filename contents current_user w Hopen)
      in Hrun.
    destruct (model.get_model_service env t (main._MODEL_SERVICE w)) as [holder [ms|e]];
      [|discriminate Hrun].
    destruct (main.prob_and_finding t ms _ dr) as [[prob primary]|e]; [|discriminate Hrun].
    destruct (negb (main.can_open os (main.audit_csv_path os))); [discriminate Hrun|].
    cbv zeta in Hrun. injection Hrun as <- <-. cbn.
    eexists. split; [reflexivity|].
    split; [destruct (audit_rows (main.audit_log w)); discriminate|].
    split; [reflexivity|].
    split; [reflexivity|]. split; [reflexivity|]. split; [reflexivity|].
    intros admin Hadmin. unfold admin_api.admin_list_audits, admin_api.require_admin.
    rewrite Hadmin. cbn [String.eqb Ascii.eqb Bool.eqb negb bind]. f_equal.
    rewrite slice_from_neg by lia. change (Z.to_nat 1) with 1%nat.
    apply last_records_one_snoc.
  - unfold main.predict_scan in Hrun. rewrite Hopen in Hrun. discriminate Hrun.
Qed.

Lemma predict_scan_appends_one_audit_row_witness :
  exists row,
    main.audit_log
      (fst (main.predict_scan Fixtures.os0 Fixtures.no_decoders Fixtures.environ0
              Fixtures.no_torch Fixtures.draws0 (Some "scan.png") []
              Fixtures.doc_user_identity Fixtures.world0))
    = Some (audit_rows (main.audit_log Fixtures.world0) ++ [row])
    /\ main.audit_log
         (fst (main.predict_scan Fixtures.os0 Fixtures.no_decoders Fixtures.environ0
                 Fixtures.no_torch Fixtures.draws0 (Some "scan.png") []
                 Fixtures.doc_user_identity Fixtures.world0))
       <> Some []
    /\ row = mkAuditRow "abcd" "doc_user" "scan.png"
                        (main.saved_path_of Fixtures.os0 "scan.png")
                        (B.py_round (B.sub (B.of_Z 11) (B.of_Z 10)) 3)
    /\ "doc_user" = auth.user_id Fixtures.doc_user_identity
    /\ "abcd" = main.uuid_audit Fixtures.draws0
    /\ main.uploads
         (fst (main.predict_scan Fixtures.os0 Fixtures.no_decoders Fixtures.environ0
                 Fixtures.no_torch Fixtures.draws0 (Some "scan.png") []
                 Fixtures.doc_user_identity Fixtures.world0))
       = (main.saved_path_of Fixtures.os0 "scan.png", []) :: main.uploads Fixtures.world0
    /\ (forall admin, auth.role admin = "admin" ->
          admin_api.admin_list_audits 1 admin
            (main.audit_log
               (fst (main.predict_scan Fixtures.os0 Fixtures.no_decoders Fixtures.environ0
                       Fixtures.no_torch Fixtures.draws0 (Some "scan.png") []
                       Fixtures.doc_user_identity Fixtures.world0)))
          = Ok [row]).
Proof.
  apply (predict_scan_appends_one_audit_row Fixtures.os0 Fixtures.no_decoders
           Fixtures.environ0 Fixtures.no_torch Fixtures.draws0 (Some "scan.png") []
           Fixtures.doc_user_identity Fixtures.world0 _
           (main.mkDiagnosisResult "abcd" "doc_user" "Unknown" "scan.png"
              "no acute findings" (main.fallback_prob Fixtures.half)
              (B.py_round (B.sub (B.of_Z 11) (B.of_Z 10)) 3))).
  - discriminate.
  - reflexivity.
Defined.



(** ** The model service ([model.py]) *)

Lemma init_unfold (env : model.Environ) (t : model.Torch) :
  model.init env t
  = (let (self', r) :=
       model._load t (model.mkModelService (backend_of env) (model.ONCOSCAN_MODEL_PATH env)
                        (device_of env) None false) in
     _ <- r ;; Ok self').
Proof. reflexivity. Qed.

(** X17: every backend name other than "torch" selects the simulator. When
    [ONCOSCAN_MODEL_BACKEND] is unset or holds ASCII text ("simulate", or a
    misspelt name) whose lower-case form is not "torch", the service is
    built without consulting torch, the model path or the device; it is
    loaded under that lower-case name, reports no device, is returned
    unchanged by every later [get_model_service()] and survives a reload
    unchanged; [GET /status] reports it as loaded. Whatever [predict]
    returns on it is the dictionary of the simulator; whether the call
    returns depends on the simulated delay, which is not modelled. *)
Theorem non_torch_backend_simulates (env : model.Environ) (t : model.Torch) :
  (forall b, model.ONCOSCAN_MODEL_BACKEND env = Some b -> is_ascii b = true) ->
  backend_of env <> "torch" ->
  exists ms,
    model.get_model_service env t None = (Some ms, Ok ms)
    /\ ms = model.mkModelService (backend_of env) (model.ONCOSCAN_MODEL_PATH env)
                                 (device_of env) (Some model.SimulateTag) true
    /\ model.status ms
       = model.mkStatus (backend_of env) true (model.ONCOSCAN_MODEL_PATH env) None
    /\ main.status_endpoint env t None = (Some ms, Ok ("oncoscan", model.status ms))
    /\ (forall image base pred,
          model.predict t ms image base = Ok pred ->
          pred = [("probability", model.PyFloat (model.simulate_prob base));
                  ("primary_finding",
                   model.PyStr (model.finding_of (model.simulate_prob base)))])
    /\ (forall env' t', model.get_model_service env' t' (Some ms) = (Some ms, Ok ms))
    /\ (forall t', model.reload t' ms = (ms, Ok (model.status ms))).
Proof.
  intros _ Hsim. apply String.eqb_neq in Hsim.
  eexists. split.
  - unfold model.get_model_service. rewrite init_unfold. unfold model._load.
    cbn [model.backend]. rewrite Hsim. cbn. reflexivity.
  - split; [reflexivity|]. split.
    + unfold model.status. cbn. now rewrite Hsim.
    + split.
      * unfold main.status_endpoint, model.get_model_service. rewrite init_unfold.
        unfold model._load. cbn [model.backend]. rewrite Hsim. cbn. reflexivity.
      * split; [|split].
        -- intros image base pred. unfold model.predict. cbn. rewrite Hsim.
           now intros [= <-].
        -- reflexivity.
        -- intros t'. unfold model.reload, model._load. cbn. rewrite Hsim. reflexivity.
Qed.

Lemma non_torch_backend_simulates_witness :
  exists ms,
    model.get_model_service (model.mkEnviron (Some "Tensorflow") None None)
      Fixtures.no_torch None = (Some ms, Ok ms)
    /\ ms = model.mkModelService "tensorflow" None "cpu" (Some model.SimulateTag) true
    /\ model.status ms = model.mkStatus "tensorflow" true None None
    /\ main.status_endpoint (model.mkEnviron (Some "Tensorflow") None None)
         Fixtures.no_torch None = (Some ms, Ok ("oncoscan", model.status ms))
    /\ (forall image base pred,
          model.predict Fixtures.no_torch ms image base = Ok pred ->
          pred = [("probability", model.PyFloat (model.simulate_prob base));
                  ("primary_finding",
                   model.PyStr (model.finding_of (model.simulate_prob base)))])
    /\ (forall env' t', model.get_model_service env' t' (Some ms) = (Some ms, Ok ms))
    /\ (forall t', model.reload t' ms = (ms, Ok (model.status ms))).
Proof.
  apply (non_torch_backend_simulates (model.mkEnviron (Some "Tensorflow") None None)
           Fixtures.no_torch).
  - intros b [= <-]. reflexivity.
  - discriminate.
Defined.

(** X18: when the torch backend comes up. With the backend set to "torch" (in
    any letter case), [ModelService()] succeeds exactly when torch can be
    imported, [ONCOSCAN_MODEL_PATH] is set to a non-empty path that exists,
    and [torch.jit.load] of that path on the configured device (default
    "cpu") succeeds; the service then holds the loaded module and is marked
    loaded. In every other case the constructor raises. *)
Theorem torch_backend_loads_iff (env : model.Environ) (t : model.Torch)
  (ms : model.ModelService) :
  backend_of env = "torch" ->
  model.init env t = Ok ms
  <->
  model.import_ok t = true
  /\ exists path h,
       model.ONCOSCAN_MODEL_PATH env = Some path
       /\ path <> ""
       /\ model.path_exists t path = true
       /\ model.jit_load t path (device_of env) = Some h
       /\ ms = model.mkModelService "torch" (Some path) (device_of env)
                                    (Some (model.TorchScript h)) true.
Proof.
  intros Htorch. rewrite init_unfold, Htorch. unfold model._load.
  cbn [model.backend model.model_path model.device String.eqb Ascii.eqb Bool.eqb].
  destruct (model.import_ok t); cbn [negb].
  - destruct (model.ONCOSCAN_MODEL_PATH env) as [[|a p]|] eqn:Hpath.
    + cbn. split; [discriminate|]. intros [_ (path & h & [= <-] & Hne & _)]. congruence.
    + destruct (model.path_exists t (String a p)) eqn:Hex; cbn [negb].
      * assert (Hload :
          (if endswith (String a p) ".pt" || endswith (String a p) ".pth"
           then match model.jit_load t (String a p) (device_of env) with
                | Some h => Some h
                | None => model.jit_load t (String a p) (device_of env)
                end
           else model.jit_load t (String a p) (device_of env))
          = model.jit_load t (String a p) (device_of env)).
        { destruct (endswith (String a p) ".pt" || endswith (String a p) ".pth");
            [|reflexivity].
          destruct (model.jit_load t (String a p) (device_of env)); reflexivity. }
        rewrite Hload.
        destruct (model.jit_load t (String a p) (device_of env)) as [h|] eqn:Hjit.
        -- cbn. split.
           ++ intros [= <-]. split; [reflexivity|].
              exists (String a p), h.
              split; [reflexivity|]. split; [discriminate|].
              split; [exact Hex|]. split; [exact Hjit | reflexivity].
           ++ intros [_ (path & h' & [= <-] & _ & _ & Hh & ->)].
              rewrite Hjit in Hh. now injection Hh as <-.
        -- cbn. split; [discriminate|].
           intros [_ (path & h' & [= <-] & _ & _ & Hh & _)]. congruence.
      * cbn. split; [discriminate|].
        intros [_ (path & h' & [= <-] & _ & Hp & _)]. congruence.
    + cbn. split; [discriminate|]. intros [_ (path & h & H & _)]. discriminate H.
  - cbn. split; [discriminate|]. intros [H _]. discriminate H.
Qed.

Lemma torch_backend_loads_iff_witness :
  model.init (model.mkEnviron (Some "TORCH") (Some "m.pt") None)
    (model.mkTorch true (fun _ => true) (fun _ _ => Some 7) (fun _ _ => None))
  = Ok (model.mkModelService "torch" (Some "m.pt") "cpu" (Some (model.TorchScript 7)) true)
  <->
  model.import_ok (model.mkTorch true (fun _ => true) (fun _ _ => Some 7) (fun _ _ => None))
  = true
  /\ exists path h,
       model.ONCOSCAN_MODEL_PATH (model.mkEnviron (Some "TORCH") (Some "m.pt") None)
       = Some path
       /\ path <> ""
       /\ model.path_exists
            (model.mkTorch true (fun _ => true) (fun _ _ => Some 7) (fun _ _ => None)) path
          = true
       /\ model.jit_load
            (model.mkTorch true (fun _ => true) (fun _ _ => Some 7) (fun _ _ => None)) path
            (device_of (model.mkEnviron (Some "TORCH") (Some "m.pt") None)) = Some h
       /\ model.mkModelService "torch" (Some "m.pt") "cpu" (Some (model.TorchScript 7)) true
          = model.mkModelService "torch" (Some path)
              (device_of (model.mkEnviron (Some "TORCH") (Some "m.pt") None))
              (Some (model.TorchScript h)) true.
Proof.
  apply (torch_backend_loads_iff (model.mkEnviron (Some "TORCH") (Some "m.pt") None)
           (model.mkTorch true (fun _ => true) (fun _ _ => Some 7) (fun _ _ => None))).
  reflexivity.
Defined.

Lemma load_failure_keeps_flag (t : model.Torch) (self self' : model.ModelService) (e : exn) :
  model._load t self = (self', Raise e) -> self' = self.
Proof.
  unfold model._load.
  destruct (String.eqb (model.backend self) "torch"); [|discriminate].
  destruct (negb (model.import_ok t)); [now intros [= <-]|].
  destruct (model.model_path self) as [[|a p]|]; try now intros [= <-].
  destruct (negb (model.path_exists t (String a p))); [now intros [= <-]|].
  match goal with |- context [match ?x with Some _ => _ | None => _ end = (self', Raise e)] =>
    destruct x end; [discriminate | now intros [= <-]].
Qed.

(** X19: a reload that fails switches predictions off. When [reload()]
    raises, the service stays in the holder marked as not loaded: [GET
    /status] reports [loaded: false], [get_model_service()] keeps returning
    that same object, every [predict] raises "Model not loaded", and so does
    every [POST /predict] whose upload decodes, although its upload has been
    stored. *)
Theorem failed_reload_disables_predictions (t : model.Torch)
  (ms ms' : model.ModelService) (e : exn) :
  model.reload t ms = (ms', Raise e) ->
  model._loaded ms' = false
  /\ (forall env admin,
        auth.role admin = "admin" ->
        main.reload_model env t admin (Some ms) = (Some ms', Raise e))
  /\ (forall env t',
        main.status_endpoint env t' (Some ms')
        = (Some ms', Ok ("oncoscan", model.status ms'))
        /\ model.st_loaded (model.status ms') = false)
  /\ (forall t' image base,
        model.predict t' ms' image base
        = Raise (Exception "RuntimeError: Model not loaded"))
  /\ (forall os d env t' dr file_filename contents current_user w img modality,
        main._MODEL_SERVICE w = Some ms' ->
        main.can_open os
          (main.saved_path_of os (str_or file_filename ("upload_" ++ main.uuid_upload dr)))
        = true ->
        utils_dicom.load_image_from_bytes d contents
          (str_or file_filename ("upload_" ++ main.uuid_upload dr)) = Ok (img, modality) ->
        snd (main.predict_scan os d env t' dr file_filename contents current_user w)
        = Raise (Exception "RuntimeError: Model not loaded")).
Proof.
  intros Hreload.
  assert (Hflag : model._loaded ms' = false).
  { unfold model.reload in Hreload.
    destruct (model._load t _) as [self' r] eqn:Hload.
    destruct r as [[]|e']; [discriminate Hreload|].
    injection Hreload as <- _.
    now rewrite (load_failure_keeps_flag t _ _ _ Hload). }
  assert (Hpredict : forall t' image base,
    model.predict t' ms' image base = Raise (Exception "RuntimeError: Model not loaded")).
  { intros t' image base. unfold model.predict. now rewrite Hflag. }
  split; [exact Hflag|]. split; [|split; [|split; [exact Hpredict|]]].
  - intros env admin Hadmin. unfold main.reload_model. rewrite Hadmin.
    cbn [String.eqb Ascii.eqb Bool.eqb negb model.get_model_service].
    now rewrite Hreload.
  - intros env t'. split; [reflexivity|]. exact Hflag.
  - intros os d env t' dr file_filename contents current_user w img modality Hw Hopen Hdec.
    rewrite (predict_scan_saved os d env t' dr file_filename contents current_user w Hopen).
    rewrite Hw, Hdec. cbn [model.get_model_service main.prob_and_finding].
    rewrite Hpredict. reflexivity.
Qed.

Lemma failed_reload_disables_predictions_witness :
  let ms := model.mkModelService "torch" (Some "m.pt") "cpu" (Some (model.TorchScript 7))
              true in
  let ms' := model.mkModelService "torch" (Some "m.pt") "cpu" None false in
  model._loaded ms' = false
  /\ (forall env admin,
        auth.role admin = "admin" ->
        main.reload_model env Fixtures.no_torch admin (Some ms)
        = (Some ms', Raise (Exception "RuntimeError: PyTorch not available")))
  /\ (forall env t',
        main.status_endpoint env t' (Some ms')
        = (Some ms', Ok ("oncoscan", model.status ms'))
        /\ model.st_loaded (model.status ms') = false)
  /\ (forall t' image base,
        model.predict t' ms' image base
        = Raise (Exception "RuntimeError: Model not loaded"))
  /\ (forall os d env t' dr file_filename contents current_user w img modality,
        main._MODEL_SERVICE w = Some ms' ->
        main.can_open os
          (main.saved_path_of os (str_or file_filename ("upload_" ++ main.uuid_upload dr)))
        = true ->
        utils_dicom.load_image_from_bytes d contents
          (str_or file_filename ("upload_" ++ main.uuid_upload dr)) = Ok (img, modality) ->
        snd (main.predict_scan os d env t' dr file_filename contents current_user w)
        = Raise (Exception "RuntimeError: Model not loaded")).
Proof.
  intros ms ms'.
  apply (failed_reload_disables_predictions Fixtures.no_torch ms ms'
           (Exception "RuntimeError: PyTorch not available")).
  reflexivity.
Defined.

(** X20: how the torch backend clamps. When the model's output [out] is
    strictly between 0.0 and 1.0 the probability is [out] itself; when [out]
    does not compare below 1.0 (it is 1.0 or more, or infinite, or NaN) the
    probability is 1.0, so that a NaN output is reported as a "suspicious
    lesion"; when it is below 1.0 but not above 0.0 the probability is 0.0. *)
Theorem torch_predict_clamps (t : model.Torch) (self : model.ModelService)
  (image : model.Image) (base : B.float) (h : Z) (out : B.float) :
  model.backend self = "torch" ->
  model._loaded self = true ->
  model._model self = Some (model.TorchScript h) ->
  model.forward t h image = Some out ->
  exists prob,
    model.predict t self image base
    = Ok [("probability", model.PyFloat prob);
          ("primary_finding", model.PyStr (model.finding_of prob))]
    /\ (B.ltb B.zero out = true -> B.ltb out B.one = true -> prob = out)
    /\ (B.ltb out B.one = false -> prob = B.one)
    /\ (out = S754_nan -> prob = B.one /\ model.finding_of prob = "suspicious lesion")
    /\ (B.ltb out B.one = true -> B.ltb B.zero out = false -> prob = B.zero).
Proof.
  intros Hb Hl Hm Hf. exists (model.clamp_prob out). split.
  - unfold model.predict. rewrite Hl, Hb, Hm, Hf. reflexivity.
  - unfold model.clamp_prob, B.py_min, B.py_max. split; [|split; [|split]].
    + intros H0 H1. now rewrite H1, H0.
    + intros H1. rewrite H1. reflexivity.
    + intros ->. split; reflexivity.
    + intros H1 H0. now rewrite H1, H0.
Qed.

Lemma torch_predict_clamps_witness :
  exists prob,
    model.predict
      (model.mkTorch true (fun _ => true) (fun _ _ => Some 7) (fun _ _ => Some S754_nan))
      (model.mkModelService "torch" (Some "m.pt") "cpu" (Some (model.TorchScript 7)) true)
      (model.mkImage "RGB" []) Fixtures.half
    = Ok [("probability", model.PyFloat prob);
          ("primary_finding", model.PyStr (model.finding_of prob))]
    /\ (B.ltb B.zero S754_nan = true -> B.ltb S754_nan B.one = true -> prob = S754_nan)
    /\ (B.ltb S754_nan B.one = false -> prob = B.one)
    /\ (S754_nan = S754_nan -> prob = B.one /\ model.finding_of prob = "suspicious lesion")
    /\ (B.ltb S754_nan B.one = true -> B.ltb B.zero S754_nan = false -> prob = B.zero).
Proof.
  apply (torch_predict_clamps
           (model.mkTorch true (fun _ => true) (fun _ _ => Some 7) (fun _ _ => Some S754_nan))
           (model.mkModelService "torch" (Some "m.pt") "cpu" (Some (model.TorchScript 7)) true)
           (model.mkImage "RGB" []) Fixtures.half 7 S754_nan); reflexivity.
Defined.

(** The dictionary [predict] returns always holds both keys. *)
Lemma predict_shape (t : model.Torch) (self : model.ModelService)
  (image : model.Image) (base : B.float) (pred : list (string * model.pyval)) :
  model.predict t self image base = Ok pred ->
  exists prob,
    pred = [("probability", model.PyFloat prob);
            ("primary_finding", model.PyStr (model.finding_of prob))].
Proof.
  unfold model.predict.
  destruct (negb (model._loaded self)); [discriminate|].
  destruct (String.eqb (model.backend self) "torch").
  - destruct (model._model self) as [[|h]|]; try discriminate.
    destruct (model.forward t h image) as [out|]; [|discriminate].
    cbn [bind]. intros [= <-]. now eexists.
  - cbn [bind]. intros [= <-]. now eexists.
Qed.

(** X21: the defaults of [predict_scan] for a prediction without a
    "probability" or "primary_finding" key are never used: [predict] always
    returns both keys, so the response of [POST /predict] does not depend on
    the random number that branch would draw, and for a decoded image the
    probability and the finding are those of the model service. *)
Theorem predict_scan_never_uses_missing_key_defaults (os : main.OS)
  (d : utils_dicom.Decoders) (env : model.Environ) (t : model.Torch) (dr : main.Draws)
  (x : B.float) (file_filename : option string) (contents : list Byte.byte)
  (current_user : auth.Identity) (w : main.World) :
  main.predict_scan os d env t (with_rand_missing dr x) file_filename contents
    current_user w
  = main.predict_scan os d env t dr file_filename contents current_user w
  /\ (forall ms image prob primary,
        main.prob_and_finding t ms (Some image) dr = Ok (prob, primary) ->
        model.predict t ms image (main.rand_predict dr)
        = Ok [("probability", model.PyFloat prob); ("primary_finding", model.PyStr primary)]
        /\ primary = model.finding_of prob).
Proof.
  assert (Hpf : forall ms img,
    main.prob_and_finding t ms img (with_rand_missing dr x)
    = main.prob_and_finding t ms img dr).
  { intros ms [image|]; [|reflexivity]. unfold main.prob_and_finding.
    cbn [with_rand_missing main.rand_predict].
    destruct (model.predict t ms image (main.rand_predict dr)) as [pred|e] eqn:E;
      [|reflexivity].
    destruct (predict_shape t ms image _ pred E) as [prob ->]. reflexivity. }
  split.
  - unfold main.predict_scan.
    cbn [with_rand_missing main.uuid_upload main.uuid_audit main.time_start main.time_end].
    destruct (negb (main.can_open os _)); [reflexivity|]. cbv zeta.
    destruct (utils_dicom.load_image_from_bytes d contents _) as [[img modality]|e];
      destruct (model.get_model_service env t _) as [holder [ms|e']]; try reflexivity;
      now rewrite Hpf.
  - intros ms image prob primary. unfold main.prob_and_finding.
    destruct (model.predict t ms image (main.rand_predict dr)) as [pred|e] eqn:E;
      [|discriminate].
    destruct (predict_shape t ms image _ pred E) as [p ->].
    cbn. intros [= <- <-]. split; reflexivity.
Qed.

(** ** File names: suffixes and sanitising *)

Lemma substring_all (s : string) : String.substring 0 (String.length s) s = s.
Proof. induction s as [|c s IH]; cbn; [reflexivity | now rewrite IH]. Qed.

Lemma eqb_length (s p : string) :
  String.eqb s p = true -> String.length s = String.length p.
Proof. intros H. apply String.eqb_eq in H. now subst. Qed.

(** [endswith] by recursion on the string: the whole string is the suffix, or
    the suffix is found after the first character. *)
Lemma endswith_cons (c : ascii) (s p : string) :
  endswith (String c s) p = String.eqb (String c s) p || endswith s p.
Proof.
  unfold endswith. cbn [String.length].
  destruct (Nat.leb_spec (String.length p) (String.length s)) as [Hle|Hgt].
  - assert (E1 : (String.length p <=? S (String.length s))%nat = true)
      by (apply Nat.leb_le; lia).
    rewrite E1. cbn [andb].
    replace (S (String.length s) - String.length p)%nat
      with (S (String.length s - String.length p)) by lia.
    cbn [String.substring].
    destruct (String.eqb (String c s) p) eqn:E; [|reflexivity].
    apply eqb_length in E. cbn in E. lia.
  - cbn [andb]. rewrite orb_false_r.
    destruct (Nat.eq_dec (String.length p) (S (String.length s))) as [Heq|Hne].
    + rewrite Heq, Nat.leb_refl, Nat.sub_diag. cbn [andb].
      change (S (String.length s)) with (String.length (String c s)).
      now rewrite substring_all.
    + assert (E1 : (String.length p <=? S (String.length s))%nat = false)
        by (apply Nat.leb_gt; lia).
      rewrite E1. cbn [andb]. symmetry. apply String.eqb_neq. intros E.
      subst p. cbn in Hne. lia.
Qed.

(** A name that ends in [.dcm] ends in none of the image extensions the
    loader tests. *)
Lemma endswith_dcm_not_image (s : string) :
  endswith s ".dcm" = true ->
  endswith s ".png" = false /\ endswith s ".jpg" = false /\ endswith s ".jpeg" = false.
Proof.
  induction s as [|c s IH]; [discriminate|].
  rewrite !endswith_cons. intros H. apply orb_prop in H as [H|H].
  - apply String.eqb_eq in H. injection H as -> ->. repeat split; reflexivity.
  - destruct (IH H) as (H1 & H2 & H3). rewrite H1, H2, H3, !orb_false_r.
    repeat split; apply String.eqb_neq; intros E;
      injection E as _ E; rewrite E in H; discriminate H.
Qed.

(** X22: a [.dcm] upload on a server without pydicom. The extension test is
    made on the lower-case name, so [.DCM] counts; when pydicom could not be
    imported the bytes are handed to PIL, and an image PIL can open is
    returned with modality "Unknown" (never "CT" or "DICOM"), whereas bytes
    PIL cannot open make the loader raise. *)
Theorem dcm_without_pydicom_is_unknown (d : utils_dicom.Decoders)
  (data : list Byte.byte) (filename : string) :
  utils_dicom._HAVE_PYDICOM d = false ->
  endswith (lower filename) ".dcm" = true ->
  utils_dicom.load_image_from_bytes d data filename
  = match utils_dicom.pil_open d data with
    | Some img => Ok (img, "Unknown")
    | None => Raise (Exception "UnidentifiedImageError")
    end.
Proof.
  intros Hno Hdcm. unfold utils_dicom.load_image_from_bytes.
  destruct (endswith_dcm_not_image _ Hdcm) as (H1 & H2 & H3).
  rewrite Hno, Hdcm, H1, H2, H3. reflexivity.
Qed.

Lemma dcm_without_pydicom_is_unknown_witness :
  utils_dicom.load_image_from_bytes
    (utils_dicom.mkDecoders false (fun _ => None)
       (fun _ => Some (model.mkImage "RGB" [Some 1])) Fixtures.pil_fromarray)
    [] "Scan.DCM"
  = match utils_dicom.pil_open
            (utils_dicom.mkDecoders false (fun _ => None)
               (fun _ => Some (model.mkImage "RGB" [Some 1]))
               Fixtures.pil_fromarray) [] with
    | Some img => Ok (img, "Unknown")
    | None => Raise (Exception "UnidentifiedImageError")
    end.
Proof.
  apply (dcm_without_pydicom_is_unknown
           (utils_dicom.mkDecoders false (fun _ => None)
              (fun _ => Some (model.mkImage "RGB" [Some 1])) Fixtures.pil_fromarray)
           [] "Scan.DCM"); reflexivity.
Defined.

(** *** Sanitising twice *)

Lemma replace_dots_id (s : string) :
  contains ".." s = false -> replace s ".." "" = s.
Proof.
  induction s as [|c s IH]; [reflexivity|].
  cbn [contains]. intros H. apply orb_false_elim in H as [Hp Hs].
  rewrite replace_dots_other by exact Hp. now rewrite IH.
Qed.

Lemma replace_slash_id (s : string) :
  contains "/" s = false -> replace s "/" "_" = s.
Proof.
  induction s as [|c s IH]; [reflexivity|].
  cbn [contains]. rewrite prefix_cons, prefix_empty, andb_true_r.
  intros H. apply orb_false_elim in H as [Hc Hs].
  rewrite replace_slash_cons, IH by exact Hs.
  rewrite Ascii.eqb_sym in Hc. now rewrite Hc.
Qed.

Lemma safe_name_of_clean (filename : string) :
  contains "/" filename = false -> contains ".." filename = false ->
  main.safe_name_of filename = filename.
Proof.
  intros Hs Hd. unfold main.safe_name_of.
  rewrite (replace_dots_id filename Hd). now apply replace_slash_id.
Qed.

(** X23: sanitising is idempotent. A name without ['/'] and without [".."] is
    kept as it is; sanitising a sanitized name changes nothing; hence an
    upload named [f] and an upload named like the sanitized form of [f] are
    written to the same path, the later one replacing the earlier. *)
Theorem safe_name_of_idempotent (os : main.OS) (filename : string) :
  (contains "/" filename = false -> contains ".." filename = false ->
   main.safe_name_of filename = filename)
  /\ main.safe_name_of (main.safe_name_of filename) = main.safe_name_of filename
  /\ main.saved_path_of os (main.safe_name_of filename) = main.saved_path_of os filename.
Proof.
  assert (Hidem : main.safe_name_of (main.safe_name_of filename)
                  = main.safe_name_of filename).
  { apply safe_name_of_clean.
    - apply replace_slash_clean.
    - unfold main.safe_name_of. rewrite contains_dots_replace_slash.
      apply replace_dots_clean. }
  split; [apply safe_name_of_clean|]. split; [exact Hidem|].
  unfold main.saved_path_of. now rewrite Hidem.
Qed.

(** ** Sharper ranges of the simulated probabilities *)

Lemma binary_round_lower (m : positive) (e t T : Z) :
  (inject_Z (Zpos m) * bpow e < bpow t)%Q ->
  Z.max (t - 53) (-1074) <= T -> T + 1 <= 971 ->
  (inject_Z (Zpos m) * bpow e - bpow T
   <= B.to_Q (binary_round B.prec B.emax false m e))%Q.
Proof.
  intros Hlt HT Hover. unfold binary_round.
  pose proof (shl_align_value m e (fexp B.prec B.emax (Zpos (digits2_pos m) + e))) as Hval.
  pose proof (shl_align_spec m e (fexp B.prec B.emax (Zpos (digits2_pos m) + e))) as [He _].
  destruct (shl_align m e (fexp B.prec B.emax (Zpos (digits2_pos m) + e))) as [mz ez].
  cbn [fst snd] in *. rewrite <- Hval in *.
  assert (Hf : fexp B.prec B.emax (Zpos (digits2_pos m) + e) <= T).
  { apply fexp_le with t; [|exact HT]. apply magnitude_digits. now rewrite <- Hval. }
  apply binary_round_aux_lower; [lia| |unfold B.emax, B.prec; lia].
  apply Z.max_lub; [lia|].
  apply fexp_le with t; [|exact HT]. cbn [Zdigits2]. now apply magnitude_digits.
Qed.

Lemma add_lower (x y : B.float) (Ex Ey t T : Z) :
  finite_below Ex x -> finite_below Ey y ->
  (B.to_Q x + B.to_Q y < bpow t)%Q ->
  Z.max (t - 53) (-1074) <= T -> T + 1 <= 971 ->
  (B.to_Q x + B.to_Q y - bpow T <= B.to_Q (B.add x y))%Q.
Proof.
  intros Hx Hy Hlt HT Hover. pose proof (bpow_pos T) as HposT.
  destruct Hx as [->|(mx & ex & -> & Hex)], Hy as [->|(my & ey & -> & Hey)].
  - cbn. lra.
  - unfold B.add. cbn [SFadd]. change (B.to_Q (S754_zero false)) with 0%Q. lra.
  - unfold B.add. cbn [SFadd]. change (B.to_Q (S754_zero false)) with 0%Q. lra.
  - unfold B.add, SFadd. cbn [cond_Zopp].
    pose proof (shl_align_value mx ex (Z.min ex ey)) as Vx.
    pose proof (shl_align_value my ey (Z.min ex ey)) as Vy.
    destruct (shl_align_spec mx ex (Z.min ex ey)) as [Sx _].
    destruct (shl_align_spec my ey (Z.min ex ey)) as [Sy _].
    rewrite Sx in Vx. rewrite Sy in Vy.
    replace (Z.min ex (Z.min ex ey)) with (Z.min ex ey) in Vx by lia.
    replace (Z.min ey (Z.min ex ey)) with (Z.min ex ey) in Vy by lia.
    set (ax := fst (shl_align mx ex (Z.min ex ey))) in *.
    set (ay := fst (shl_align my ey (Z.min ex ey))) in *.
    change (Zpos ax + Zpos ay) with (Zpos (ax + ay)). cbn [binary_normalize].
    assert (Hval : (inject_Z (Zpos (ax + ay)) * bpow (Z.min ex ey)
                    == B.to_Q (S754_finite false mx ex) + B.to_Q (S754_finite false my ey))%Q).
    { rewrite !to_Q_finite, <- Vx, <- Vy, Pos2Z.inj_add, inject_Z_plus. ring. }
    rewrite <- Hval in *.
    exact (binary_round_lower (ax + ay) (Z.min ex ey) t T Hlt HT Hover).
Qed.

(** [round_half_even_div a b] is the integer nearest to [a / b]. *)
Lemma round_half_even_div_nearest (a b lo hi : Z) :
  0 < b -> (2 * lo - 1) * b < 2 * a -> 2 * a < (2 * hi + 1) * b ->
  lo <= B.round_half_even_div a b <= hi.
Proof.
  intros Hb Hlo Hhi. unfold B.round_half_even_div.
  pose proof (Z.div_mod a b ltac:(lia)) as Hdm.
  pose proof (Z.mod_pos_bound a b Hb) as Hr.
  set (q := a / b) in *. set (r := a mod b) in *.
  destruct (Z.compare_spec (2 * r) b) as [E|E|E]; [destruct (Z.even q)| |]; nia.
Qed.

(** [round(x, 4)] of a positive double whose value, in units of [1/10000],
    is within one half of the integers from [lo] to [hi]. *)
Lemma py_round4_decimal (x : B.float) (lo hi : Z) :
  B.nonneg_finite x -> 0 < lo -> hi < 10000 ->
  (inject_Z (2 * lo - 1) < (2 # 1) * (B.to_Q x * inject_Z 10000))%Q ->
  ((2 # 1) * (B.to_Q x * inject_Z 10000) < inject_Z (2 * hi + 1))%Q ->
  exists n, lo <= Zpos n <= hi /\ B.py_round x 4 = decimal4 n.
Proof.
  intros [->|(m & e & ->)] Hlo Hhi Hlow Hup.
  - exfalso. cbn [B.to_Q] in Hlow.
    assert (H : (inject_Z 1 <= inject_Z (2 * lo - 1))%Q) by (apply inject_Z_le; lia).
    change (inject_Z 1) with 1%Q in H. lra.
  - rewrite to_Q_finite in *. unfold B.py_round.
    destruct (0 <=? e) eqn:Ee.
    + exfalso. apply Z.leb_le in Ee.
      assert (H1 : (1 <= inject_Z (Zpos m) * bpow e)%Q).
      { rewrite bpow_Z, <- inject_Z_mult by exact Ee.
        apply (inject_Z_le 1). pose proof (Z.pow_pos_nonneg 2 e). nia. }
      assert (H2 : (inject_Z (2 * hi + 1) <= inject_Z 19999)%Q) by (apply inject_Z_le; lia).
      change (inject_Z 10000) with (10000 # 1)%Q in *.
      change (inject_Z 19999) with (19999 # 1)%Q in *. lra.
    + apply Z.leb_gt in Ee.
      assert (Hpow : 0 < 2 ^ (- e)) by (apply Z.pow_pos_nonneg; lia).
      assert (Hinv : (bpow e * bpow (- e) == 1)%Q).
      { rewrite <- bpow_add. now replace (e + - e) with 0 by ring. }
      pose proof (bpow_pos (- e)) as Hpe.
      assert (Hscale : ((2 # 1) * (inject_Z (Zpos m) * bpow e * inject_Z 10000) * bpow (- e)
                        == inject_Z (2 * (Zpos m * 10 ^ 4)))%Q).
      { rewrite !inject_Z_mult. change (inject_Z (10 ^ 4)) with (inject_Z 10000).
        change (inject_Z 2) with (2 # 1)%Q.
        transitivity ((2 # 1) * (inject_Z (Zpos m) * inject_Z 10000) * (bpow e * bpow (- e)))%Q;
          [ring | rewrite Hinv; ring]. }
      assert (Hb : (bpow (- e) == inject_Z (2 ^ (- e)))%Q) by (apply bpow_Z; lia).
      assert (H1 : (2 * lo - 1) * 2 ^ (- e) < 2 * (Zpos m * 10 ^ 4)).
      { rewrite Zlt_Qlt, (inject_Z_mult (2 * lo - 1)), <- Hb, <- Hscale.
        apply Qmult_lt_compat_r; [exact Hpe | exact Hlow]. }
      assert (H2 : 2 * (Zpos m * 10 ^ 4) < (2 * hi + 1) * 2 ^ (- e)).
      { rewrite Zlt_Qlt, (inject_Z_mult (2 * hi + 1)), <- Hb, <- Hscale.
        apply Qmult_lt_compat_r; [exact Hpe | exact Hup]. }
      pose proof (round_half_even_div_nearest (Zpos m * 10 ^ 4) (2 ^ (- e)) lo hi
                    Hpow H1 H2) as Hr.
      destruct (B.round_half_even_div (Zpos m * 10 ^ 4) (2 ^ (- e))) as [|n|n]; try lia.
      exists n. split; [exact Hr|]. reflexivity.
Qed.

Lemma simulator_decimal_table : all_upto simulator_decimal_ok 7000 = true.
Proof. vm_compute. reflexivity. Qed.

Lemma fallback_decimal_table : all_upto fallback_decimal_ok 9900 = true.
Proof. vm_compute. reflexivity. Qed.

Lemma simulator_decimal_between (n : positive) :
  3000 <= Zpos n <= 7000 -> in_range (B.lit 3 10) (B.lit 7 10) (decimal4 n) = true.
Proof.
  intros Hn.
  pose proof (all_upto_spec simulator_decimal_ok 7000 simulator_decimal_table n
                ltac:(lia)) as H.
  unfold simulator_decimal_ok in H.
  assert (E1 : (n <? 3000)%positive = false) by (apply Pos.ltb_ge; lia).
  assert (E2 : (7000 <? n)%positive = false) by (apply Pos.ltb_ge; lia).
  now rewrite E1, E2 in H.
Qed.

Lemma fallback_decimal_between (n : positive) :
  100 <= Zpos n <= 9900 -> in_range (B.lit 1 100) (B.lit 99 100) (decimal4 n) = true.
Proof.
  intros Hn.
  pose proof (all_upto_spec fallback_decimal_ok 9900 fallback_decimal_table n
                ltac:(lia)) as H.
  unfold fallback_decimal_ok in H.
  assert (E1 : (n <? 100)%positive = false) by (apply Pos.ltb_ge; lia).
  assert (E2 : (9900 <? n)%positive = false) by (apply Pos.ltb_ge; lia).
  now rewrite E1, E2 in H.
Qed.

Lemma simulate_prob_decimal (base : B.float) :
  B.unit_draw base = true ->
  exists n, 3000 <= Zpos n <= 7000 /\ model.simulate_prob base = decimal4 n.
Proof.
  intros Hdraw. destruct (unit_draw_spec base Hdraw) as [Hfin Hlt1].
  pose proof (finite_below_nonneg 0 base Hfin) as Hb0.
  unfold model.simulate_prob. rewrite lit_3_10, lit_4_10.
  set (c03 := S754_finite false 5404319552844595 (-54)).
  set (c04 := S754_finite false 7205759403792794 (-54)).
  assert (Hc03 : finite_below (-54) c03) by (right; exists 5404319552844595%positive, (-54); split; [reflexivity|lia]).
  assert (Hc04 : finite_below (-54) c04) by (right; exists 7205759403792794%positive, (-54); split; [reflexivity|lia]).
  assert (Hq03 : (B.to_Q c03 == 5404319552844595 # 18014398509481984)%Q) by qconst.
  assert (Hq04 : (B.to_Q c04 == 7205759403792794 # 18014398509481984)%Q) by qconst.
  assert (Hp1 : (bpow (-1) == 1 # 2)%Q) by qconst.
  assert (Hp0 : (bpow 0 == 1)%Q) by qconst.
  assert (Hp54 : (bpow (-54) == 1 # 18014398509481984)%Q) by qconst.
  assert (Hp53 : (bpow (-53) == 1 # 9007199254740992)%Q) by qconst.
  destruct (mul_upper c04 base (-54) 0 (-1) (-54) Hc04 Hfin) as [Hy Hyle];
    try lia.
  { rewrite Hq04, Hp1. lra. }
  rewrite Hq04, Hp54 in Hyle.
  pose proof (finite_below_nonneg _ _ Hy) as Hy0.
  assert (Hsum : (B.to_Q c03 + B.to_Q (B.mul c04 base) < bpow 0)%Q)
    by (rewrite Hq03, Hp0; lra).
  destruct (add_upper c03 (B.mul c04 base) (-54) (-54 + 1) 0 (-53) Hc03 Hy Hsum)
    as [Hx Hxle]; try lia.
  pose proof (add_lower c03 (B.mul c04 base) (-54) (-54 + 1) 0 (-53) Hc03 Hy Hsum
                ltac:(lia) ltac:(lia)) as Hxlow.
  rewrite Hq03, Hp53 in Hxle, Hxlow.
  apply (py_round4_decimal _ 3000 7000 Hx); try lia.
  - change (inject_Z 10000) with (10000 # 1)%Q.
    change (inject_Z (2 * 3000 - 1)) with (5999 # 1)%Q. lra.
  - change (inject_Z 10000) with (10000 # 1)%Q.
    change (inject_Z (2 * 7000 + 1)) with (14001 # 1)%Q. lra.
Qed.

Lemma fallback_prob_decimal (u : B.float) :
  B.unit_draw u = true ->
  exists n, 100 <= Zpos n <= 9900 /\ main.fallback_prob u = decimal4 n.
Proof.
  intros Hdraw. destruct (unit_draw_spec u Hdraw) as [Hfin Hlt1].
  pose proof (finite_below_nonneg 0 u Hfin) as Hb0.
  unfold main.fallback_prob, B.uniform. rewrite lit_99_minus_1_100, lit_1_100.
  set (c001 := S754_finite false 5764607523034235 (-59)).
  set (c098 := S754_finite false 8827055269646172 (-53)).
  assert (Hc001 : finite_below (-59) c001) by (right; exists 5764607523034235%positive, (-59); split; [reflexivity|lia]).
  assert (Hc098 : finite_below (-53) c098) by (right; exists 8827055269646172%positive, (-53); split; [reflexivity|lia]).
  assert (Hq001 : (B.to_Q c001 == 5764607523034235 # 576460752303423488)%Q) by qconst.
  assert (Hq098 : (B.to_Q c098 == 8827055269646172 # 9007199254740992)%Q) by qconst.
  assert (Hp0 : (bpow 0 == 1)%Q) by qconst.
  assert (Hp53 : (bpow (-53) == 1 # 9007199254740992)%Q) by qconst.
  destruct (mul_upper c098 u (-53) 0 0 (-53) Hc098 Hfin) as [Hy Hyle]; try lia.
  { rewrite Hq098, Hp0. lra. }
  rewrite Hq098, Hp53 in Hyle.
  pose proof (finite_below_nonneg _ _ Hy) as Hy0.
  assert (Hsum : (B.to_Q c001 + B.to_Q (B.mul c098 u) < bpow 0)%Q)
    by (rewrite Hq001, Hp0; lra).
  destruct (add_upper c001 (B.mul c098 u) (-59) (-53 + 1) 0 (-53) Hc001 Hy Hsum)
    as [Hx Hxle]; try lia.
  pose proof (add_lower c001 (B.mul c098 u) (-59) (-53 + 1) 0 (-53) Hc001 Hy Hsum
                ltac:(lia) ltac:(lia)) as Hxlow.
  rewrite Hq001, Hp53 in Hxle, Hxlow.
  apply (py_round4_decimal _ 100 9900 Hx); try lia.
  - change (inject_Z 10000) with (10000 # 1)%Q.
    change (inject_Z (2 * 100 - 1)) with (199 # 1)%Q. lra.
  - change (inject_Z 10000) with (10000 # 1)%Q.
    change (inject_Z (2 * 9900 + 1)) with (19801 # 1)%Q. lra.
Qed.

(** X24: the simulator never leaves [[0.3, 0.7]]. On a loaded service with
    any backend other than torch, the probability [predict] returns is the
    double nearest to [k / 10000] for an integer [k] from 3000 to 7000, and
    it compares at least 0.3 and at most 0.7. *)
Theorem simulator_probability_between_03_and_07 (t : model.Torch)
  (self : model.ModelService) (image : model.Image) (base : B.float) :
  model.backend self <> "torch" ->
  model._loaded self = true ->
  B.unit_draw base = true ->
  exists prob k,
    model.predict t self image base
    = Ok [("probability", model.PyFloat prob);
          ("primary_finding", model.PyStr (model.finding_of prob))]
    /\ 3000 <= Zpos k <= 7000
    /\ prob = decimal4 k
    /\ B.leb (B.lit 3 10) prob = true
    /\ B.leb prob (B.lit 7 10) = true.
Proof.
  intros Hsim Hloaded Hdraw.
  destruct (simulate_prob_decimal base Hdraw) as (k & Hk & Hprob).
  exists (model.simulate_prob base), k. split.
  - unfold model.predict. rewrite Hloaded. apply String.eqb_neq in Hsim.
    rewrite Hsim. reflexivity.
  - split; [exact Hk|]. split; [exact Hprob|].
    pose proof (simulator_decimal_between k Hk) as Hb. rewrite <- Hprob in Hb.
    apply andb_prop in Hb as [Hb1 Hb2]. split; assumption.
Qed.

Lemma simulator_probability_between_03_and_07_witness :
  exists prob k,
    model.predict Fixtures.no_torch Fixtures.simulator (model.mkImage "RGB" [])
      Fixtures.half
    = Ok [("probability", model.PyFloat prob);
          ("primary_finding", model.PyStr (model.finding_of prob))]
    /\ 3000 <= Zpos k <= 7000
    /\ prob = decimal4 k
    /\ B.leb (B.lit 3 10) prob = true
    /\ B.leb prob (B.lit 7 10) = true.
Proof.
  apply (simulator_probability_between_03_and_07 Fixtures.no_torch Fixtures.simulator
           (model.mkImage "RGB" []) Fixtures.half).
  - discriminate.
  - reflexivity.
  - vm_compute. reflexivity.
Defined.

(** X25: the fallback never leaves [[0.01, 0.99]]. When the upload cannot be
    decoded and the request succeeds, the probability of the response is the
    double nearest to [k / 10000] for an integer [k] from 100 to 9900, and it
    compares at least 0.01 and at most 0.99. *)
Theorem fallback_probability_between_001_and_099 (os : main.OS)
  (d : utils_dicom.Decoders) (env : model.Environ) (t : model.Torch) (dr : main.Draws)
  (file_filename : option string) (contents : list Byte.byte)
  (current_user : auth.Identity) (w : main.World) (e : exn)
  (res : main.DiagnosisResult) :
  B.unit_draw (main.rand_fallback dr) = true ->
  utils_dicom.load_image_from_bytes d contents
    (str_or file_filename ("upload_" ++ main.uuid_upload dr)) = Raise e ->
  snd (main.predict_scan os d env t dr file_filename contents current_user w) = Ok res ->
  exists k,
    100 <= Zpos k <= 9900
    /\ main.probability_malignancy res = decimal4 k
    /\ B.leb (B.lit 1 100) (main.probability_malignancy res) = true
    /\ B.leb (main.probability_malignancy res) (B.lit 99 100) = true.
Proof.
  intros Hdraw Hdec Hrun.
  destruct (fallback_prob_decimal _ Hdraw) as (k & Hk & Hprob).
  assert (Hres : main.probability_malignancy res
                 = main.fallback_prob (main.rand_fallback dr)).
  { destruct (main.can_open os
                (main.saved_path_of os
                   (str_or file_filename ("upload_" ++ main.uuid_upload dr)))) eqn:Hopen.
    - rewrite (predict_scan_saved os d env t dr file_filename contents current_user w
                 Hopen) in Hrun.
      rewrite Hdec in Hrun. cbn [main.prob_and_finding] in Hrun.
      destruct (model.get_model_service env t (main._MODEL_SERVICE w))
        as [holder [ms|e1]]; [|discriminate Hrun].
      destruct (negb (main.can_open os (main.audit_csv_path os))); [discriminate Hrun|].
      cbn [snd] in Hrun. now injection Hrun as <-.
    - unfold main.predict_scan in Hrun. rewrite Hopen in Hrun. discriminate Hrun. }
  exists k. split; [exact Hk|]. rewrite Hres. split; [exact Hprob|].
  pose proof (fallback_decimal_between k Hk) as Hb. rewrite <- Hprob in Hb.
  apply andb_prop in Hb as [Hb1 Hb2]. split; assumption.
Qed.

Lemma fallback_probability_between_001_and_099_witness :
  exists k,
    100 <= Zpos k <= 9900
    /\ main.probability_malignancy
         (main.mkDiagnosisResult "abcd" "doc_user" "Unknown" "scan.png"
            "no acute findings" (main.fallback_prob Fixtures.half)
            (B.py_round (B.sub (B.of_Z 11) (B.of_Z 10)) 3))
       = decimal4 k
    /\ B.leb (B.lit 1 100)
         (main.probability_malignancy
            (main.mkDiagnosisResult "abcd" "doc_user" "Unknown" "scan.png"
               "no acute findings" (main.fallback_prob Fixtures.half)
               (B.py_round (B.sub (B.of_Z 11) (B.of_Z 10)) 3))) = true
    /\ B.leb
         (main.probability_malignancy
            (main.mkDiagnosisResult "abcd" "doc_user" "Unknown" "scan.png"
               "no acute findings" (main.fallback_prob Fixtures.half)
               (B.py_round (B.sub (B.of_Z 11) (B.of_Z 10)) 3)))
         (B.lit 99 100) = true.
Proof.
  apply (fallback_probability_between_001_and_099 Fixtures.os0 Fixtures.no_decoders
           Fixtures.environ0 Fixtures.no_torch Fixtures.draws0 (Some "scan.png") []
           Fixtures.doc_user_identity Fixtures.world0
           (Exception "UnidentifiedImageError")).
  - vm_compute. reflexivity.
  - reflexivity.
  - vm_compute. reflexivity.
Defined.

(** ** The DICOM path, continued: extremes and order *)

(** The conversion to [uint8] is the floor of a non-negative double. *)
Lemma astype_uint8_floor (E : Z) (x : B.float) (z : Z) :
  finite_below E x -> utils_dicom.astype_uint8 x = Some z ->
  (inject_Z z <= B.to_Q x)%Q /\ (B.to_Q x < inject_Z z + 1)%Q.
Proof.
  intros [->|(m & e & -> & _)].
  - intros [= <-]. change (B.to_Q (S754_zero false)) with 0%Q.
    change (inject_Z 0) with 0%Q. split; lra.
  - unfold utils_dicom.astype_uint8, B.trunc. cbn [cond_Zopp].
    set (z0 := if 0 <=? e then Zpos m * 2 ^ e else Zpos m / 2 ^ (- e)).
    assert (Hz0 : (inject_Z z0 <= B.to_Q (S754_finite false m e))%Q
                  /\ (B.to_Q (S754_finite false m e) < inject_Z z0 + 1)%Q).
    { rewrite to_Q_finite. unfold z0. destruct (0 <=? e) eqn:Ee.
      - apply Z.leb_le in Ee. rewrite inject_Z_mult, <- bpow_Z by exact Ee. split; lra.
      - apply Z.leb_gt in Ee.
        assert (Hpow : 0 < 2 ^ (- e)) by (apply Z.pow_pos_nonneg; lia).
        pose proof (bpow_pos (- e)) as Hpe.
        assert (Hinv : (bpow e * bpow (- e) == 1)%Q).
        { rewrite <- bpow_add. now replace (e + - e) with 0 by ring. }
        assert (Hb : (bpow (- e) == inject_Z (2 ^ (- e)))%Q) by (apply bpow_Z; lia).
        assert (Hm : (inject_Z (Zpos m) * bpow e * bpow (- e) == inject_Z (Zpos m))%Q).
        { transitivity (inject_Z (Zpos m) * (bpow e * bpow (- e)))%Q;
            [ring | rewrite Hinv; ring]. }
        split.
        + apply Qmult_le_r with (bpow (- e)); [exact Hpe|].
          rewrite Hm, Hb, <- inject_Z_mult. apply inject_Z_le.
          pose proof (Z.mul_div_le (Zpos m) (2 ^ (- e)) Hpow). lia.
        + apply Qmult_lt_r with (bpow (- e)); [exact Hpe|].
          rewrite Hm, Hb.
          change 1%Q with (inject_Z 1). rewrite <- inject_Z_plus, <- inject_Z_mult.
          rewrite <- Zlt_Qlt.
          pose proof (Z.mul_succ_div_gt (Zpos m) (2 ^ (- e)) Hpow). lia. }
    destruct ((0 <=? z0) && (z0 <=? 255)); [|discriminate].
    intros [= <-]. exact Hz0.
Qed.

Lemma astype_uint8_monotone (E E' : Z) (x y : B.float) (z z' : Z) :
  finite_below E x -> finite_below E' y ->
  utils_dicom.astype_uint8 x = Some z -> utils_dicom.astype_uint8 y = Some z' ->
  (B.to_Q x <= B.to_Q y)%Q -> z <= z'.
Proof.
  intros Hx Hy Hz Hz' Hle.
  destruct (astype_uint8_floor E x z Hx Hz) as [H1 _].
  destruct (astype_uint8_floor E' y z' Hy Hz') as [_ H2].
  assert (H : (inject_Z z < inject_Z (z' + 1))%Q).
  { rewrite inject_Z_plus. change (inject_Z 1) with 1%Q. lra. }
  rewrite <- Zlt_Qlt in H. lia.
Qed.

(** The rescaling is increasing: a larger element has a larger product. *)
Lemma rescale_monotone (bits lo hi v v' : Z) :
  0 < bits <= 32 -> 0 <= lo -> lo <= v -> v <= v' -> v' <= hi -> hi < 2 ^ bits ->
  lo < hi ->
  (B.to_Q (utils_dicom.rescale false bits lo hi v)
   <= B.to_Q (utils_dicom.rescale false bits lo hi v'))%Q.
Proof.
  intros Hbits Hlo Hv Hvv Hv' Hhi Hlt.
  assert (Hpow : 2 ^ bits <= 2 ^ 32) by (apply Z.pow_le_mono_r; lia).
  unfold utils_dicom.rescale, utils_dicom.wrap.
  rewrite !Z.mod_small by lia.
  set (a := v - lo). set (a' := v' - lo). set (dd := hi - lo).
  assert (Ha : 0 <= a <= a') by (unfold a, a'; lia).
  assert (Ha' : a' <= dd) by (unfold a', dd; lia).
  assert (Hdd : 0 < dd < 2 ^ 32) by (unfold dd; lia).
  assert (H3253 : 2 ^ 32 < 2 ^ 53) by (apply Z.pow_lt_mono_r; lia).
  assert (Hdd53 : 0 < dd < 2 ^ 53) by lia.
  destruct (of_Z_exact dd Hdd53) as (md & ed & HD & _ & HDval).
  rewrite of_Z_255, HD.
  set (c255 := S754_finite false 8972014882652160 (-45)).
  set (D := S754_finite false md ed).
  assert (Hq255 : (B.to_Q c255 == inject_Z 255)%Q) by (unfold Qeq; vm_compute; reflexivity).
  assert (HqD : (B.to_Q D == inject_Z dd)%Q) by (unfold D; now rewrite to_Q_finite).
  assert (Hddq : (1 <= inject_Z dd)%Q) by (apply (inject_Z_le 1); lia).
  assert (Hdd32 : (inject_Z dd <= inject_Z (2 ^ 32))%Q) by (apply inject_Z_le; lia).
  assert (Hp8 : (bpow 8 == inject_Z 256)%Q) by (unfold Qeq; vm_compute; reflexivity).
  assert (Hp45 : (bpow (-45) == 1 # 35184372088832)%Q) by (unfold Qeq; vm_compute; reflexivity).
  assert (Hx : (B.to_Q c255 < bpow 8)%Q) by (rewrite Hq255, Hp8; now rewrite <- Zlt_Qlt).
  assert (Hy : (bpow 0 <= B.to_Q D)%Q) by (rewrite HqD; exact Hddq).
  destruct (div_upper c255 D 8972014882652160 md (-45) ed 8 0 (-45) eq_refl eq_refl Hx Hy)
    as [HS HSle]; try lia.
  pose proof (div_lower c255 D 8972014882652160 md (-45) ed 8 0 (-45) eq_refl eq_refl Hx Hy
                ltac:(lia) ltac:(lia)) as HSlow.
  set (S := B.div c255 D) in *.
  rewrite Hq255, HqD, Hp45 in HSle, HSlow.
  pose proof (finite_below_nonneg _ _ HS) as HS0.
  change (inject_Z (2 ^ 32)) with (4294967296 # 1)%Q in Hdd32.
  change (inject_Z 255) with (255 # 1)%Q in *. change (inject_Z 256) with (256 # 1)%Q in *.
  (* S * dd >= 255 - 2^-44 * dd, hence S >= 2^-44 *)
  assert (HSbig : ((2 # 35184372088832) <= B.to_Q S)%Q).
  { apply Qmult_le_r with (inject_Z dd); [lra|].
    apply Qle_trans with ((255 # 1) - (2 # 1) * (1 # 35184372088832) * inject_Z dd)%Q;
      [|exact HSlow].
    lra. }
  destruct (Z.eq_dec a a') as [Heq|Hne]; [rewrite Heq; apply Qle_refl|].
  assert (Ha'53 : 0 < a' < 2 ^ 53) by lia.
  destruct (of_Z_exact a' Ha'53) as (ma' & ea' & HA' & Hea' & HA'val).
  rewrite HA'. set (A' := S754_finite false ma' ea').
  assert (HA'fin : finite_below (-21) A').
  { right. exists ma', ea'. split; [reflexivity|].
    pose proof (Zdigits2_le a' 32). lia. }
  assert (HqA' : (B.to_Q A' == inject_Z a')%Q) by (unfold A'; now rewrite to_Q_finite).
  assert (Ha'q : (0 <= inject_Z a' <= inject_Z dd)%Q)
    by (split; [apply (inject_Z_le 0) | apply inject_Z_le]; lia).
  assert (Ha'S : (inject_Z a' * B.to_Q S <= inject_Z dd * B.to_Q S)%Q)
    by (apply Qmult_le_compat_r; [apply Ha'q | exact HS0]).
  assert (Hprod' : (B.to_Q A' * B.to_Q S < bpow 8)%Q) by (rewrite HqA', Hp8; lra).
  pose proof (mul_lower A' S (-21) (-44) 8 (-45) HA'fin HS Hprod'
                ltac:(lia) ltac:(lia) ltac:(lia)) as HF'low.
  rewrite HqA', Hp45 in HF'low.
  destruct (Z.eq_dec a 0) as [Ha0|Ha0].
  - rewrite Ha0. change (B.of_Z 0) with (S754_zero false).
    assert (HF : B.mul (S754_zero false) S = S754_zero false).
    { destruct HS as [->|(m & e & -> & _)]; reflexivity. }
    rewrite HF. change (B.to_Q (S754_zero false)) with 0%Q.
    destruct (mul_upper A' S (-21) (-44) 8 (-45) HA'fin HS Hprod') as [HF' _]; try lia.
    exact (finite_below_nonneg _ _ HF').
  - assert (Ha53 : 0 < a < 2 ^ 53) by lia.
    destruct (of_Z_exact a Ha53) as (ma & ea & HA & Hea & HAval).
    rewrite HA. set (A := S754_finite false ma ea).
    assert (HAfin : finite_below (-21) A).
    { right. exists ma, ea. split; [reflexivity|].
      pose proof (Zdigits2_le a 32). lia. }
    assert (HqA : (B.to_Q A == inject_Z a)%Q) by (unfold A; now rewrite to_Q_finite).
    assert (Haq : (0 <= inject_Z a)%Q) by (apply (inject_Z_le 0); lia).
    assert (Hstep : (inject_Z a + 1 <= inject_Z a')%Q).
    { change 1%Q with (inject_Z 1). rewrite <- inject_Z_plus. apply inject_Z_le. lia. }
    assert (HaS : ((inject_Z a + 1) * B.to_Q S <= inject_Z a' * B.to_Q S)%Q)
      by (apply Qmult_le_compat_r; [exact Hstep | exact HS0]).
    assert (Hprod : (B.to_Q A * B.to_Q S < bpow 8)%Q).
    { rewrite HqA, Hp8.
      setoid_replace ((inject_Z a + 1) * B.to_Q S)%Q
        with (inject_Z a * B.to_Q S + B.to_Q S)%Q in HaS by ring.
      lra. }
    destruct (mul_upper A S (-21) (-44) 8 (-45) HAfin HS Hprod) as [_ HFle]; try lia.
    rewrite HqA, Hp45 in HFle.
    setoid_replace ((inject_Z a + 1) * B.to_Q S)%Q
      with (inject_Z a * B.to_Q S + B.to_Q S)%Q in HaS by ring.
    lra.
Qed.

(** The byte of one element of an array that is rescaled. *)
Lemma rescaled_sample (arr : utils_dicom.ndarray) (lo hi v : Z) :
  integer_array arr ->
  utils_dicom.arr_min (utils_dicom.data arr) = Some lo ->
  utils_dicom.arr_max (utils_dicom.data arr) = Some hi ->
  lo < hi ->
  (utils_dicom.signed arr = true -> hi - lo < 2 ^ (utils_dicom.bits arr - 1)) ->
  In v (utils_dicom.data arr) ->
  utils_dicom.rescale (utils_dicom.signed arr) (utils_dicom.bits arr) lo hi v
  = utils_dicom.rescale false 32 0 (hi - lo) (v - lo)
  /\ 0 <= v - lo <= hi - lo /\ hi - lo < 2 ^ 32
  /\ finite_below (-44) (utils_dicom.rescale false 32 0 (hi - lo) (v - lo))
  /\ exists z,
       utils_dicom.astype_uint8 (utils_dicom.rescale false 32 0 (hi - lo) (v - lo))
       = Some z
       /\ 0 <= z <= 255.
Proof.
  intros Harr Hmin Hmax Hlt Hfits Hv.
  destruct (rescale_offsets arr lo hi v Harr Hmin Hmax Hfits Hv) as (Hre & Ha & Hd32).
  split; [exact Hre|]. split; [exact Ha|]. split; [exact Hd32|].
  destruct (rescale_spec 32 0 (hi - lo) (v - lo) ltac:(lia) (Z.le_refl 0) Ha Hd32
              ltac:(lia)) as (Hfin & Hlt256 & _ & _).
  split; [exact Hfin|].
  destruct (astype_uint8_spec _ _ Hfin Hlt256) as (z & Hz & Hzr & _).
  now exists z.
Qed.

(** X26: the extremes of a rescaled DICOM array. For an array of an integer
    dtype of at most 32 bits whose maximum exceeds its minimum (by a value of
    the dtype, when it is signed), the array handed to [Image.fromarray] has
    one byte per element; every position that holds the minimum gets 0, and
    every position that holds the maximum gets 254 or 255: the conversion to
    [uint8] cuts the fraction off, it does not round. Both extremes occur in
    the array. The loader returns what [Image.fromarray] makes of the bytes,
    or raises when it refuses their shape. *)
Theorem dicom_extremes_map_to_0_and_254_or_255 (d : utils_dicom.Decoders)
  (bytes : list Byte.byte) (filename : string) (ds : utils_dicom.Dataset) (lo hi : Z) :
  endswith (lower filename) ".dcm" = true ->
  utils_dicom._HAVE_PYDICOM d = true ->
  utils_dicom.dcmread d bytes = Some ds ->
  integer_array (utils_dicom.pixel_array ds) ->
  utils_dicom.arr_min (utils_dicom.data (utils_dicom.pixel_array ds)) = Some lo ->
  utils_dicom.arr_max (utils_dicom.data (utils_dicom.pixel_array ds)) = Some hi ->
  lo < hi ->
  (utils_dicom.signed (utils_dicom.pixel_array ds) = true ->
   hi - lo < 2 ^ (utils_dicom.bits (utils_dicom.pixel_array ds) - 1)) ->
  exists px,
    utils_dicom.normalize (utils_dicom.pixel_array ds) = Some px
    /\ utils_dicom.load_image_from_bytes d bytes filename = dicom_result d ds px
    /\ List.length px = List.length (utils_dicom.data (utils_dicom.pixel_array ds))
    /\ In lo (utils_dicom.data (utils_dicom.pixel_array ds))
    /\ In hi (utils_dicom.data (utils_dicom.pixel_array ds))
    /\ (forall i, nth_error (utils_dicom.data (utils_dicom.pixel_array ds)) i = Some lo ->
          nth_error px i = Some (Some 0))
    /\ (forall i, nth_error (utils_dicom.data (utils_dicom.pixel_array ds)) i = Some hi ->
          nth_error px i = Some (Some 254) \/ nth_error px i = Some (Some 255)).
Proof.
  intros Hname Hdicom Hread Harr Hmin Hmax Hlt Hfits.
  set (arr := utils_dicom.pixel_array ds) in *.
  pose proof (normalize_rescaled arr lo hi Hmin Hmax Hlt) as Hpx.
  pose proof (arr_min_in _ _ Hmin) as Hlo_in. pose proof (arr_max_in _ _ Hmax) as Hhi_in.
  eexists. split; [exact Hpx|].
  split; [exact (dicom_path d bytes filename ds _ Hname Hdicom Hread Hpx)|].
  split; [apply length_map|]. split; [exact Hlo_in|]. split; [exact Hhi_in|].
  split.
  - intros i Hi. rewrite nth_error_map, Hi. cbn [option_map].
    destruct (rescaled_sample arr lo hi lo Harr Hmin Hmax Hlt Hfits Hlo_in)
      as (Hre & Ha & Hd32 & _).
    rewrite Hre.
    destruct (rescale_spec 32 0 (hi - lo) (lo - lo) ltac:(lia) (Z.le_refl 0) Ha Hd32
                ltac:(lia)) as (_ & _ & _ & Hzero).
    rewrite (Hzero ltac:(lia)). reflexivity.
  - intros i Hi. rewrite nth_error_map, Hi. cbn [option_map].
    destruct (rescaled_sample arr lo hi hi Harr Hmin Hmax Hlt Hfits Hhi_in)
      as (Hre & Ha & Hd32 & Hfin & z & Hz & Hzr).
    rewrite Hre.
    pose proof (rescale_lower 32 0 (hi - lo) (hi - lo) ltac:(lia) (Z.le_refl 0) Ha Hd32
                  ltac:(lia)) as Hdown.
    rewrite !Z.sub_0_r in Hdown.
    destruct (astype_uint8_floor _ _ z Hfin Hz) as [_ Hup].
    assert (Hd : (0 < inject_Z (hi - lo))%Q).
    { change 0%Q with (inject_Z 0). rewrite <- Zlt_Qlt. lia. }
    assert (HL : (inject_Z 255 * inject_Z (hi - lo) / inject_Z (hi - lo) == inject_Z 255)%Q).
    { field. intros H0. rewrite H0 in Hd. lra. }
    rewrite HL in Hdown.
    assert (Hz254 : (inject_Z 253 < inject_Z z)%Q).
    { change (inject_Z 255) with (255 # 1)%Q in Hdown.
      change (inject_Z 253) with (253 # 1)%Q. lra. }
    rewrite <- Zlt_Qlt in Hz254. rewrite Hz.
    assert (Hcases : z = 254 \/ z = 255) by lia.
    destruct Hcases as [-> | ->]; [now left | now right].
Qed.

Lemma dicom_extremes_map_to_0_and_254_or_255_witness :
  exists px,
    utils_dicom.normalize (utils_dicom.pixel_array Fixtures.dicom_dataset) = Some px
    /\ utils_dicom.load_image_from_bytes Fixtures.dicom_decoders [] "scan.dcm"
       = dicom_result Fixtures.dicom_decoders Fixtures.dicom_dataset px
    /\ List.length px
       = List.length (utils_dicom.data (utils_dicom.pixel_array Fixtures.dicom_dataset))
    /\ In 0 (utils_dicom.data (utils_dicom.pixel_array Fixtures.dicom_dataset))
    /\ In 25 (utils_dicom.data (utils_dicom.pixel_array Fixtures.dicom_dataset))
    /\ (forall i,
          nth_error (utils_dicom.data (utils_dicom.pixel_array Fixtures.dicom_dataset)) i
          = Some 0 ->
          nth_error px i = Some (Some 0))
    /\ (forall i,
          nth_error (utils_dicom.data (utils_dicom.pixel_array Fixtures.dicom_dataset)) i
          = Some 25 ->
          nth_error px i = Some (Some 254) \/ nth_error px i = Some (Some 255)).
Proof.
  apply (dicom_extremes_map_to_0_and_254_or_255 Fixtures.dicom_decoders [] "scan.dcm"
           Fixtures.dicom_dataset 0 25); try reflexivity.
  split; [cbn; lia|]. cbn. intros v [<-|[<-|[<-|[]]]]; lia.
Defined.

(** X27: the rescaling preserves the order of the intensities. For an array
    of an integer dtype of at most 32 bits whose maximum exceeds its minimum
    (by a value of the dtype, when it is signed), each of two positions gets
    a byte in the array handed to [Image.fromarray], and a position holding
    the smaller (or an equal) element never gets the larger byte. *)
Theorem dicom_rescale_preserves_order (d : utils_dicom.Decoders)
  (bytes : list Byte.byte) (filename : string) (ds : utils_dicom.Dataset) (lo hi : Z) :
  endswith (lower filename) ".dcm" = true ->
  utils_dicom._HAVE_PYDICOM d = true ->
  utils_dicom.dcmread d bytes = Some ds ->
  integer_array (utils_dicom.pixel_array ds) ->
  utils_dicom.arr_min (utils_dicom.data (utils_dicom.pixel_array ds)) = Some lo ->
  utils_dicom.arr_max (utils_dicom.data (utils_dicom.pixel_array ds)) = Some hi ->
  lo < hi ->
  (utils_dicom.signed (utils_dicom.pixel_array ds) = true ->
   hi - lo < 2 ^ (utils_dicom.bits (utils_dicom.pixel_array ds) - 1)) ->
  exists px,
    utils_dicom.normalize (utils_dicom.pixel_array ds) = Some px
    /\ utils_dicom.load_image_from_bytes d bytes filename = dicom_result d ds px
    /\ forall i j v v',
         nth_error (utils_dicom.data (utils_dicom.pixel_array ds)) i = Some v ->
         nth_error (utils_dicom.data (utils_dicom.pixel_array ds)) j = Some v' ->
         v <= v' ->
         exists z z',
           nth_error px i = Some (Some z)
           /\ nth_error px j = Some (Some z')
           /\ 0 <= z /\ z <= z' /\ z' <= 255.
Proof.
  intros Hname Hdicom Hread Harr Hmin Hmax Hlt Hfits.
  set (arr := utils_dicom.pixel_array ds) in *.
  pose proof (normalize_rescaled arr lo hi Hmin Hmax Hlt) as Hpx.
  eexists. split; [exact Hpx|].
  split; [exact (dicom_path d bytes filename ds _ Hname Hdicom Hread Hpx)|].
  intros i j v v' Hi Hj Hle.
  pose proof (nth_error_In _ _ Hi) as Hv. pose proof (nth_error_In _ _ Hj) as Hv'.
  destruct (rescaled_sample arr lo hi v Harr Hmin Hmax Hlt Hfits Hv)
    as (Hre & Ha & Hd32 & Hfin & z & Hz & Hzr).
  destruct (rescaled_sample arr lo hi v' Harr Hmin Hmax Hlt Hfits Hv')
    as (Hre' & Ha' & _ & Hfin' & z' & Hz' & Hzr').
  exists z, z'. rewrite !nth_error_map, Hi, Hj. cbn [option_map].
  rewrite Hre, Hre', Hz, Hz'.
  split; [reflexivity|]. split; [reflexivity|]. split; [lia|]. split; [|lia].
  apply (astype_uint8_monotone _ _ _ _ z z' Hfin Hfin' Hz Hz').
  apply rescale_monotone; lia.
Qed.

Lemma dicom_rescale_preserves_order_witness :
  exists px,
    utils_dicom.normalize (utils_dicom.pixel_array Fixtures.signed_dataset) = Some px
    /\ utils_dicom.load_image_from_bytes (Fixtures.decoders_of Fixtures.signed_dataset)
         [] "scan.dcm"
       = dicom_result (Fixtures.decoders_of Fixtures.signed_dataset)
           Fixtures.signed_dataset px
    /\ forall i j v v',
         nth_error (utils_dicom.data (utils_dicom.pixel_array Fixtures.signed_dataset)) i
         = Some v ->
         nth_error (utils_dicom.data (utils_dicom.pixel_array Fixtures.signed_dataset)) j
         = Some v' ->
         v <= v' ->
         exists z z',
           nth_error px i = Some (Some z)
           /\ nth_error px j = Some (Some z')
           /\ 0 <= z /\ z <= z' /\ z' <= 255.
Proof.
  apply (dicom_rescale_preserves_order (Fixtures.decoders_of Fixtures.signed_dataset) []
           "scan.dcm" Fixtures.signed_dataset (-1000) 1000); try reflexivity.
  split; [cbn; lia|]. cbn. intros v [<-|[<-|[<-|[]]]]; lia.
Defined.

(** X28: a model service that cannot be built fails every request that asks
    for it, and the failure is not remembered. When [ModelService()] raises
    (the torch backend is selected and torch, the path or the load fails),
    the holder stays empty, so each request tries again: [GET /status] and an
    admin's [POST /models/reload] raise the same error, and so does every
    [POST /predict], also one whose upload could not be decoded and would
    have taken the fallback; its upload has been stored all the same. *)
Theorem unbuildable_service_fails_every_request (env : model.Environ) (t : model.Torch)
  (e : exn) :
  model.init env t = Raise e ->
  model.get_model_service env t None = (None, Raise e)
  /\ main.status_endpoint env t None = (None, Raise e)
  /\ (forall admin, auth.role admin = "admin" ->
        main.reload_model env t admin None = (None, Raise e))
  /\ (forall os d dr file_filename contents current_user w,
        main._MODEL_SERVICE w = None ->
        main.can_open os
          (main.saved_path_of os (str_or file_filename ("upload_" ++ main.uuid_upload dr)))
        = true ->
        main.predict_scan os d env t dr file_filename contents current_user w
        = (main.mkWorld None
             ((main.saved_path_of os
                 (str_or file_filename ("upload_" ++ main.uuid_upload dr)), contents)
              :: main.uploads w)
             (main.audit_log w),
           Raise e)).
Proof.
  intros Hinit.
  assert (Hget : model.get_model_service env t None = (None, Raise e)).
  { unfold model.get_model_service. now rewrite Hinit. }
  split; [exact Hget|]. split; [|split].
  - unfold main.status_endpoint. now rewrite Hget.
  - intros admin Hadmin. unfold main.reload_model. rewrite Hadmin.
    cbn [String.eqb Ascii.eqb Bool.eqb negb]. now rewrite Hget.
  - intros os d dr file_filename contents current_user w Hw Hopen.
    rewrite (predict_scan_saved os d env t dr file_filename contents current_user w Hopen).
    now rewrite Hw, Hget.
Qed.

Lemma unbuildable_service_fails_every_request_witness :
  let env := model.mkEnviron (Some "torch") None None in
  let e := Exception "RuntimeError: PyTorch not available" in
  model.get_model_service env Fixtures.no_torch None = (None, Raise e)
  /\ main.status_endpoint env Fixtures.no_torch None = (None, Raise e)
  /\ (forall admin, auth.role admin = "admin" ->
        main.reload_model env Fixtures.no_torch admin None = (None, Raise e))
  /\ (forall os d dr file_filename contents current_user w,
        main._MODEL_SERVICE w = None ->
        main.can_open os
          (main.saved_path_of os (str_or file_filename ("upload_" ++ main.uuid_upload dr)))
        = true ->
        main.predict_scan os d env Fixtures.no_torch dr file_filename contents
          current_user w
        = (main.mkWorld None
             ((main.saved_path_of os
                 (str_or file_filename ("upload_" ++ main.uuid_upload dr)), contents)
              :: main.uploads w)
             (main.audit_log w),
           Raise e)).
Proof.
  intros env e.
  apply (unbuildable_service_fails_every_request env Fixtures.no_torch e).
  reflexivity.
Defined.

(** ** The database URL ([db.py]) *)

(** X29: [get_database_url()] never returns the empty string. A variable that
    is set to the empty string counts as not set: [ONCOSCAN_DATABASE_URL]
    wins whenever it is non-empty, otherwise a non-empty [DATABASE_URL] is
    used, otherwise the SQLite file of the development setup. *)
Theorem get_database_url_never_empty (env : db.Environ) :
  db.get_database_url env <> ""
  /\ (truthy_str (db.ONCOSCAN_DATABASE_URL env) = true ->
      Some (db.get_database_url env) = db.ONCOSCAN_DATABASE_URL env)
  /\ (truthy_str (db.ONCOSCAN_DATABASE_URL env) = false ->
      truthy_str (db.DATABASE_URL env) = true ->
      Some (db.get_database_url env) = db.DATABASE_URL env)
  /\ (truthy_str (db.ONCOSCAN_DATABASE_URL env) = false ->
      truthy_str (db.DATABASE_URL env) = false ->
      db.get_database_url env = "sqlite:///oncoscan_webapp/backend/oncoscan.db").
Proof.
  unfold db.get_database_url.
  destruct (db.ONCOSCAN_DATABASE_URL env) as [[|a u]|];
    destruct (db.DATABASE_URL env) as [[|b v]|]; cbn;
    repeat split; intros; try reflexivity; discriminate.
Qed.

(** ** Where an upload lands *)

(** [normpath] of a path followed by one more component [child] that has
    no ['/'] and is not [".."]: the component is appended, unless it is empty
    or ["."]. *)
Lemma normpath_child_exact (path c child : string) :
  (3 <= String.length c)%nat ->
  contains "/" c = false -> c <> "."%string -> c <> ".."%string ->
  last_component path c ->
  contains "/" child = false -> child <> ".."%string ->
  posixpath.normpath (path ++ String "/" child)%string
  = if String.eqb child "" || String.eqb child "."
    then posixpath.normpath path
    else (posixpath.normpath path ++ String "/" child)%string.
Proof.
  intros Hlen Hc Hdot Hdots Hlast Hchild Hnotup.
  assert (Hc0 : c <> ""%string) by (intros ->; cbn in Hlen; lia).
  pose proof (last_component_length path c Hlast) as Hplen.
  destruct (last_component_split path c Hc Hlast) as [init Hsplit].
  unfold posixpath.normpath.
  assert (E1 : String.eqb (path ++ String "/" child) "" = false).
  { apply String.eqb_neq. apply append_nonempty_r. discriminate. }
  assert (E2 : String.eqb path "" = false).
  { apply String.eqb_neq. intros ->. cbn in Hplen. lia. }
  rewrite E1, E2, initial_slashes_app by lia.
  set (n := posixpath.initial_slashes path).
  rewrite split_sep_app, (split_sep_plain child Hchild), fold_left_app, Hsplit,
    fold_left_app.
  cbn [fold_left].
  set (before := fold_left (posixpath.norm_step n) init []).
  rewrite (norm_step_plain n before c Hc0 Hdot Hdots).
  assert (Hnonempty : String.eqb (posixpath.slashes n ++ posixpath.join_sep (before ++ [c])) ""
                      = false).
  { apply String.eqb_neq. apply append_nonempty_r.
    destruct before as [|x before]; [exact Hc0|].
    rewrite join_sep_snoc by discriminate.
    apply append_nonempty_r. discriminate. }
  assert (Hstep : posixpath.norm_step n (before ++ [c]) child
                  = if String.eqb child "" || String.eqb child "."
                    then before ++ [c] else (before ++ [c]) ++ [child]).
  { unfold posixpath.norm_step.
    destruct (String.eqb child "" || String.eqb child "."); [reflexivity|].
    apply String.eqb_neq in Hnotup. now rewrite Hnotup. }
  rewrite Hstep.
  destruct (String.eqb child "" || String.eqb child "."); [reflexivity|].
  rewrite join_sep_snoc by (destruct before; discriminate).
  rewrite Hnonempty.
  assert (E3 : String.eqb
                 (posixpath.slashes n ++ posixpath.join_sep (before ++ [c]) ++ "/" ++ child)
                 "" = false).
  { apply String.eqb_neq. apply append_nonempty_r, append_nonempty_r. discriminate. }
  rewrite E3. now rewrite append_assoc.
Qed.

Lemma append_inj_l (a b c : string) : (a ++ b = a ++ c)%string -> b = c.
Proof. induction a as [|x a IH]; cbn; [auto|]. intros [= H]. auto. Qed.

Lemma saved_path_of_exact (os : main.OS) (filename : string) :
  main.saved_path_of os filename
  = if String.eqb (main.safe_name_of filename) ""
       || String.eqb (main.safe_name_of filename) "."
    then posixpath.abspath (main.getcwd os) (main.upload_dir os)
    else (posixpath.abspath (main.getcwd os) (main.upload_dir os)
          ++ String "/" (main.safe_name_of filename))%string.
Proof.
  set (safe := main.safe_name_of filename).
  assert (Hslash : contains "/" safe = false) by apply replace_slash_clean.
  assert (Hdots : contains ".." safe = false).
  { unfold safe, main.safe_name_of.
    rewrite contains_dots_replace_slash. apply replace_dots_clean. }
  assert (Hnotup : safe <> ".."%string) by (intros E; rewrite E in Hdots; discriminate).
  pose proof (upload_dir_last_component os) as Hlast.
  set (dir := main.upload_dir os) in *.
  assert (Hdir0 : String.eqb dir "" = false).
  { apply String.eqb_neq. intros E.
    apply last_component_length in Hlast. rewrite E in Hlast. cbn in Hlast. lia. }
  assert (Hjoin : posixpath.join dir safe = (dir ++ String "/" safe)%string).
  { rewrite join_relative by (apply contains_prefix_false, Hslash).
    unfold join_prefix. rewrite Hdir0.
    rewrite (last_component_no_trailing_slash dir "uploads") by (auto; discriminate).
    cbn [orb]. now rewrite append_assoc. }
  unfold main.saved_path_of, posixpath.abspath. fold safe. fold dir. rewrite Hjoin.
  assert (Hstart : startswith (dir ++ String "/" safe) "/" = startswith dir "/").
  { unfold startswith. apply prefix_app_long.
    apply last_component_length in Hlast. cbn in Hlast |- *. lia. }
  rewrite Hstart. destruct (startswith dir "/") eqn:Eabs.
  - apply (normpath_child_exact dir "uploads" safe); auto; try discriminate. cbn; lia.
  - rewrite (join_relative (main.getcwd os) dir Eabs).
    rewrite (join_relative (main.getcwd os) (dir ++ String "/" safe) Hstart).
    rewrite <- append_assoc.
    apply (normpath_child_exact _ "uploads" safe); auto; try discriminate.
    + cbn; lia.
    + apply last_component_prepend; [apply join_prefix_cases | exact Hlast].
Qed.






(** X30: where an upload lands, exactly. When the sanitized name is empty
    or ["."] (as for the file names [".."] and ["."]) the path to write is
    the uploads directory itself; in every other case it is that directory
    followed by ['/'] and the sanitized name. Hence two uploads whose
    sanitized names are neither empty nor ["."] are written to the same path
    only when their sanitized names are equal. *)
Theorem saved_path_of_cases (os : main.OS) (f g : string) :
  (main.safe_name_of f = "" \/ main.safe_name_of f = "." ->
   main.saved_path_of os f = posixpath.abspath (main.getcwd os) (main.upload_dir os))
  /\ (main.safe_name_of f <> "" -> main.safe_name_of f <> "." ->
      main.saved_path_of os f
      = (posixpath.abspath (main.getcwd os) (main.upload_dir os)
         ++ String "/" (main.safe_name_of f))%string)
  /\ (main.safe_name_of f <> "" -> main.safe_name_of f <> "." ->
      main.safe_name_of g <> "" -> main.safe_name_of g <> "." ->
      main.saved_path_of os f = main.saved_path_of os g ->
      main.safe_name_of f = main.safe_name_of g).
Proof.
  assert (Hord : forall name,
    main.safe_name_of name <> "" -> main.safe_name_of name <> "." ->
    main.saved_path_of os name
    = (posixpath.abspath (main.getcwd os) (main.upload_dir os)
       ++ String "/" (main.safe_name_of name))%string).
  { intros name H0 H1. rewrite saved_path_of_exact.
    apply String.eqb_neq in H0, H1. now rewrite H0, H1. }
  split; [|split].
  - intros H. rewrite saved_path_of_exact.
    destruct H as [-> | ->]; reflexivity.
  - apply Hord.
  - intros Hf0 Hf1 Hg0 Hg1. rewrite (Hord f Hf0 Hf1), (Hord g Hg0 Hg1). intros H.
    apply append_inj_l in H. now injection H.
Qed.
